(** * Orange Canvas graphics scene (OrangeCanvas/canvas/scene.py)

    A shallow embedding of [CanvasScene]: the registries that tie scheme
    nodes and links to their canvas items, the signal mappers, the commit
    protocol and the lookups.  Python's mutable object with exceptions is
    modelled as a state-and-exception monad over a record of the scene's
    attributes: a raised exception keeps every mutation made before it.

    Objects are references: scheme nodes, scheme links and canvas items are
    natural numbers standing for object identity, which is also how the
    source's dictionaries (keyed by QObjects) compare them.  Coordinates are
    integers.  Signal connections and the scene's own emissions are
    recorded; the only slots that are run are [add_node] and [add_link] when
    the scheme announces an entity it accepted.  Log lines are left out,
    except where evaluating their arguments can raise.  Annotations are
    modelled apart, over a state of their own.  [set_scheme],
    [clear_scene] and the delegation of input events are outside this
    development. *)

From Stdlib Require Import ZArith Lia Ascii String.
From stdpp Require Import base option list functions gmap strings fin_maps.

Local Open Scope Z_scope.
Local Open Scope nat_scope.

(** ** Exceptions *)

(** A Python exception: the name of its class and its message.  Messages
    that format an object with [%r] or [%s] keep the format text. *)
Record exn := Exn { exn_class : string; exn_msg : string }.

Definition KeyError : exn := Exn "KeyError" "".
Definition ValueError (msg : string) : exn := Exn "ValueError" msg.
Definition Exception (msg : string) : exn := Exn "Exception" msg.
Definition AttributeError : exn := Exn "AttributeError" "".
Definition TypeError : exn := Exn "TypeError" "".

#[global] Instance exn_eq_dec : EqDecision exn.
Proof. solve_decision. Defined.

(** [except KeyError:] *)
Definition is_KeyError (e : exn) : bool := bool_decide (exn_class e = "KeyError").

Inductive result (A : Type) : Type :=
  | Ok (a : A)
  | Raise (e : exn).
Arguments Ok {A} a.
Arguments Raise {A} e.

(** ** Objects *)

Abbreviation SchemeNode := nat (only parsing).
Abbreviation SchemeLink := nat (only parsing).
Abbreviation NodeItem := nat (only parsing).
Abbreviation LinkItem := nat (only parsing).

(** [QPointF] *)
Definition QPointF : Type := Z * Z.

Definition isNull (p : QPointF) : bool := (p.1 =? 0)%Z && (p.2 =? 0)%Z.

Definition QPointF_add (p q : QPointF) : QPointF := (p.1 + q.1, p.2 + q.2)%Z.

(** [WidgetDescription]: [category] is a name or [None]. *)
Record WidgetDescription := {
  desc_name : string;
  category : option string
}.

Record CategoryDescription := { cat_name : string }.

#[global] Instance WidgetDescription_eq_dec : EqDecision WidgetDescription.
Proof. solve_decision. Defined.

#[global] Instance CategoryDescription_eq_dec : EqDecision CategoryDescription.
Proof. solve_decision. Defined.

(** The attributes of a [SchemeNode] that the scene reads. *)
Record SchemeNodeObj := {
  description : WidgetDescription;
  position : option QPointF;
  title : string
}.

(** The attributes of a [SchemeLink]; a channel is kept by its [name]. *)
Record SchemeLinkObj := {
  source_node : SchemeNode;
  source_channel : string;
  sink_node : SchemeNode;
  sink_channel : string;
  enabled : bool
}.

(** The part of an [items.NodeItem] that the scene sets or reads.  A new
    item is visible, at the origin, with no description. *)
Record NodeItemObj := {
  widget_description : option WidgetDescription;
  widget_category : option CategoryDescription;
  pos : QPointF;
  visible : bool
}.

Definition NodeItem_new : NodeItemObj :=
  {| widget_description := None; widget_category := None;
     pos := (0, 0)%Z; visible := true |}.

Definition with_widget_description (v : option WidgetDescription) (o : NodeItemObj)
  : NodeItemObj :=
  {| widget_description := v; widget_category := widget_category o;
     pos := pos o; visible := visible o |}.

Definition with_widget_category (v : option CategoryDescription) (o : NodeItemObj)
  : NodeItemObj :=
  {| widget_description := widget_description o; widget_category := v;
     pos := pos o; visible := visible o |}.

Definition with_pos (v : QPointF) (o : NodeItemObj) : NodeItemObj :=
  {| widget_description := widget_description o;
     widget_category := widget_category o; pos := v; visible := visible o |}.

Definition with_visible (v : bool) (o : NodeItemObj) : NodeItemObj :=
  {| widget_description := widget_description o;
     widget_category := widget_category o; pos := pos o; visible := v |}.

Record LinkItemObj := {
  sourceItem : option NodeItem;
  sinkItem : option NodeItem;
  toolTip : string;
  sourceName : string;
  sinkName : string;
  channelNamesVisible : bool;
  isEnabled : bool
}.

Definition LinkItem_new : LinkItemObj :=
  {| sourceItem := None; sinkItem := None; toolTip := "";
     sourceName := ""; sinkName := ""; channelNamesVisible := true;
     isEnabled := true |}.

Definition with_sourceItem (v : option NodeItem) (o : LinkItemObj) : LinkItemObj :=
  {| sourceItem := v; sinkItem := sinkItem o; toolTip := toolTip o;
     sourceName := sourceName o; sinkName := sinkName o;
     channelNamesVisible := channelNamesVisible o; isEnabled := isEnabled o |}.

Definition with_sinkItem (v : option NodeItem) (o : LinkItemObj) : LinkItemObj :=
  {| sourceItem := sourceItem o; sinkItem := v; toolTip := toolTip o;
     sourceName := sourceName o; sinkName := sinkName o;
     channelNamesVisible := channelNamesVisible o; isEnabled := isEnabled o |}.

Definition with_toolTip (v : string) (o : LinkItemObj) : LinkItemObj :=
  {| sourceItem := sourceItem o; sinkItem := sinkItem o; toolTip := v;
     sourceName := sourceName o; sinkName := sinkName o;
     channelNamesVisible := channelNamesVisible o; isEnabled := isEnabled o |}.

Definition with_sourceName (v : string) (o : LinkItemObj) : LinkItemObj :=
  {| sourceItem := sourceItem o; sinkItem := sinkItem o; toolTip := toolTip o;
     sourceName := v; sinkName := sinkName o;
     channelNamesVisible := channelNamesVisible o; isEnabled := isEnabled o |}.

Definition with_sinkName (v : string) (o : LinkItemObj) : LinkItemObj :=
  {| sourceItem := sourceItem o; sinkItem := sinkItem o; toolTip := toolTip o;
     sourceName := sourceName o; sinkName := v;
     channelNamesVisible := channelNamesVisible o; isEnabled := isEnabled o |}.

Definition with_channelNamesVisible (v : bool) (o : LinkItemObj) : LinkItemObj :=
  {| sourceItem := sourceItem o; sinkItem := sinkItem o; toolTip := toolTip o;
     sourceName := sourceName o; sinkName := sinkName o;
     channelNamesVisible := v; isEnabled := isEnabled o |}.

Definition with_isEnabled (v : bool) (o : LinkItemObj) : LinkItemObj :=
  {| sourceItem := sourceItem o; sinkItem := sinkItem o; toolTip := toolTip o;
     sourceName := sourceName o; sinkName := sinkName o;
     channelNamesVisible := channelNamesVisible o; isEnabled := v |}.

(** [xml.sax.saxutils.escape]: [&], [>] and [<] become entities. *)
Definition escape_char (a : ascii) : string :=
  if bool_decide (a = "&"%char) then "&amp;"
  else if bool_decide (a = ">"%char) then "&gt;"
  else if bool_decide (a = "<"%char) then "&lt;"
  else String a "".

Fixpoint escape (data : string) : string :=
  match data with
  | "" => ""
  | String a rest => escape_char a +:+ escape rest
  end.

(** [list.remove(x)]: drops the first occurrence, [None] when there is
    none (Python raises [ValueError]). *)
Fixpoint list_remove {A} `{EqDecision A} (x : A) (l : list A) : option (list A) :=
  match l with
  | [] => None
  | y :: l' =>
      if decide (x = y) then Some l' else cons y <$> list_remove x l'
  end.

(** [dict(pairs)]: a later pair overrides an earlier one with the same key. *)
Definition dict_of_pairs {K V} `{Countable K} (l : list (K * V)) : gmap K V :=
  foldl (fun d kv => <[kv.1 := kv.2]> d) ∅ l.

(** Modelled from the spec: the widget registry (registry package) is a
    collaborator whose [category] lookup "fails with a not-found condition",
    a [KeyError] in the source's [except] clause.  [registry_bool] is the
    truth value Python gives the object in [self.registry and ...]. *)
Record WidgetRegistry := {
  registry_bool : bool;
  categories : gmap string CategoryDescription
}.

#[global] Instance WidgetRegistry_eq_dec : EqDecision WidgetRegistry.
Proof. solve_decision. Defined.

(** Modelled from the spec: [registry.category(name)], the lookup of the
    missing registry. *)
Definition registry_category (reg : WidgetRegistry) (key : option string)
  : result CategoryDescription :=
  match key with
  | Some k =>
      match categories reg !! k with
      | Some c => Ok c
      | None => Raise KeyError
      end
  | None => Raise KeyError
  end.

(** Truth value of [widget_desc.category]: [None] and the empty string are
    false. *)
Definition category_bool (c : option string) : bool :=
  match c with
  | Some k => negb (bool_decide (k = ""))
  | None => false
  end.

(** ** The toolkit: graphics items, signals and slots *)

Inductive GraphicsItem :=
  | GAnchorLayout
  | GNode (item : NodeItem)
  | GLink (item : LinkItem).

#[global] Instance GraphicsItem_eq_dec : EqDecision GraphicsItem.
Proof. solve_decision. Defined.

Inductive MapperName := Activated | Hovered | PositionChange.

#[global] Instance MapperName_eq_dec : EqDecision MapperName.
Proof. solve_decision. Defined.

(** The signals of the objects the scene connects to. *)
Inductive Signal :=
  | position_changed (node : SchemeNode)
  | title_changed (node : SchemeNode)
  | progress_changed (node : SchemeNode)
  | processing_state_changed (node : SchemeNode)
  | enabled_changed (link : SchemeLink)
  | activated (item : NodeItem)
  | hovered (item : NodeItem)
  | positionChanged (item : NodeItem).

#[global] Instance Signal_eq_dec : EqDecision Signal.
Proof. solve_decision. Defined.

(** The slots the scene connects them to. *)
Inductive Slot :=
  | on_node_pos_changed
  | setTitle (item : NodeItem)
  | setProgress (item : NodeItem)
  | setProcessingState (item : NodeItem)
  | setEnabled (item : LinkItem)
  | pyMap (mapper : MapperName).

#[global] Instance Slot_eq_dec : EqDecision Slot.
Proof. solve_decision. Defined.

Definition Connection : Type := Signal * Slot.

(** The scene's own signals, as emitted. *)
Inductive Emitted :=
  | node_item_added (item : NodeItem)
  | node_item_removed (item : NodeItem)
  | link_item_added (item : LinkItem)
  | link_item_removed (item : LinkItem).

(** ** The domain model *)

(** Modelled from the spec: the scheme (scheme package) is the external
    domain model.  The scene reads the attributes of its nodes and links,
    and commits an entity with [add_node] / [add_link], which either
    rejects it by raising or accepts it and announces it through
    [node_added] / [link_added]. *)
Class SchemeModel (S : Type) := {
  node_obj : SchemeNode -> SchemeNodeObj;
  link_obj : SchemeLink -> SchemeLinkObj;
  scheme_add_node : S -> SchemeNode -> result S;
  scheme_add_link : S -> SchemeLink -> result S
}.

(** ** State *)

(** What the scene holds in the toolkit (the [QGraphicsScene] base class and
    the objects it refers to): the items shown, the signal connections made
    with [connect], the signals the scene has emitted, what the anchor
    layout was told to invalidate, and the canvas items allocated so far. *)
Record Toolkit := {
  scene_items : list GraphicsItem;
  connections : list Connection;
  emitted : list Emitted;
  invalidated : list GraphicsItem;
  node_item_obj : NodeItem -> NodeItemObj;
  link_item_obj : LinkItem -> LinkItemObj;
  next_item : nat
}.

Definition with_scene_items (v : list GraphicsItem) (t : Toolkit) : Toolkit :=
  {| scene_items := v; connections := connections t; emitted := emitted t;
     invalidated := invalidated t; node_item_obj := node_item_obj t;
     link_item_obj := link_item_obj t; next_item := next_item t |}.

Definition with_connections (v : list Connection) (t : Toolkit) : Toolkit :=
  {| scene_items := scene_items t; connections := v; emitted := emitted t;
     invalidated := invalidated t; node_item_obj := node_item_obj t;
     link_item_obj := link_item_obj t; next_item := next_item t |}.

Definition with_emitted (v : list Emitted) (t : Toolkit) : Toolkit :=
  {| scene_items := scene_items t; connections := connections t;
     emitted := v; invalidated := invalidated t;
     node_item_obj := node_item_obj t; link_item_obj := link_item_obj t;
     next_item := next_item t |}.

Definition with_invalidated (v : list GraphicsItem) (t : Toolkit) : Toolkit :=
  {| scene_items := scene_items t; connections := connections t;
     emitted := emitted t; invalidated := v;
     node_item_obj := node_item_obj t; link_item_obj := link_item_obj t;
     next_item := next_item t |}.

Definition with_node_item_obj (v : NodeItem -> NodeItemObj) (t : Toolkit) : Toolkit :=
  {| scene_items := scene_items t; connections := connections t;
     emitted := emitted t; invalidated := invalidated t; node_item_obj := v;
     link_item_obj := link_item_obj t; next_item := next_item t |}.

Definition with_link_item_obj (v : LinkItem -> LinkItemObj) (t : Toolkit) : Toolkit :=
  {| scene_items := scene_items t; connections := connections t;
     emitted := emitted t; invalidated := invalidated t;
     node_item_obj := node_item_obj t; link_item_obj := v;
     next_item := next_item t |}.

Definition with_next_item (v : nat) (t : Toolkit) : Toolkit :=
  {| scene_items := scene_items t; connections := connections t;
     emitted := emitted t; invalidated := invalidated t;
     node_item_obj := node_item_obj t; link_item_obj := link_item_obj t;
     next_item := v |}.

Section Scene.

Context {Sch : Type} `{!SchemeModel Sch}.

(** The attributes of [CanvasScene], as [__init__] declares them, and the
    toolkit state. *)
Record CanvasScene := {
  scheme : option Sch;
  registry : option WidgetRegistry;
  __node_items : list NodeItem;
  __item_for_node : gmap SchemeNode NodeItem;
  __link_items : list LinkItem;
  __item_for_link : gmap SchemeLink LinkItem;
  editable : bool;
  __channel_names_visible : bool;
  activated_mapper : gmap NodeItem NodeItem;
  hovered_mapper : gmap NodeItem NodeItem;
  position_change_mapper : gmap NodeItem NodeItem;
  qt : Toolkit
}.

Definition with_scheme (v : option Sch) (s : CanvasScene) : CanvasScene :=
  {| scheme := v; registry := registry s; __node_items := __node_items s;
     __item_for_node := __item_for_node s; __link_items := __link_items s;
     __item_for_link := __item_for_link s; editable := editable s;
     __channel_names_visible := __channel_names_visible s;
     activated_mapper := activated_mapper s;
     hovered_mapper := hovered_mapper s;
     position_change_mapper := position_change_mapper s; qt := qt s |}.

Definition with_registry (v : option WidgetRegistry) (s : CanvasScene) : CanvasScene :=
  {| scheme := scheme s; registry := v; __node_items := __node_items s;
     __item_for_node := __item_for_node s; __link_items := __link_items s;
     __item_for_link := __item_for_link s; editable := editable s;
     __channel_names_visible := __channel_names_visible s;
     activated_mapper := activated_mapper s;
     hovered_mapper := hovered_mapper s;
     position_change_mapper := position_change_mapper s; qt := qt s |}.

Definition with_node_items (v : list NodeItem) (s : CanvasScene) : CanvasScene :=
  {| scheme := scheme s; registry := registry s; __node_items := v;
     __item_for_node := __item_for_node s; __link_items := __link_items s;
     __item_for_link := __item_for_link s; editable := editable s;
     __channel_names_visible := __channel_names_visible s;
     activated_mapper := activated_mapper s;
     hovered_mapper := hovered_mapper s;
     position_change_mapper := position_change_mapper s; qt := qt s |}.

Definition with_item_for_node (v : gmap SchemeNode NodeItem) (s : CanvasScene) : CanvasScene :=
  {| scheme := scheme s; registry := registry s; __node_items := __node_items s;
     __item_for_node := v; __link_items := __link_items s;
     __item_for_link := __item_for_link s; editable := editable s;
     __channel_names_visible := __channel_names_visible s;
     activated_mapper := activated_mapper s;
     hovered_mapper := hovered_mapper s;
     position_change_mapper := position_change_mapper s; qt := qt s |}.

Definition with_link_items (v : list LinkItem) (s : CanvasScene) : CanvasScene :=
  {| scheme := scheme s; registry := registry s; __node_items := __node_items s;
     __item_for_node := __item_for_node s; __link_items := v;
     __item_for_link := __item_for_link s; editable := editable s;
     __channel_names_visible := __channel_names_visible s;
     activated_mapper := activated_mapper s;
     hovered_mapper := hovered_mapper s;
     position_change_mapper := position_change_mapper s; qt := qt s |}.

Definition with_item_for_link (v : gmap SchemeLink LinkItem) (s : CanvasScene) : CanvasScene :=
  {| scheme := scheme s; registry := registry s; __node_items := __node_items s;
     __item_for_node := __item_for_node s; __link_items := __link_items s;
     __item_for_link := v; editable := editable s;
     __channel_names_visible := __channel_names_visible s;
     activated_mapper := activated_mapper s;
     hovered_mapper := hovered_mapper s;
     position_change_mapper := position_change_mapper s; qt := qt s |}.

Definition with_editable (v : bool) (s : CanvasScene) : CanvasScene :=
  {| scheme := scheme s; registry := registry s; __node_items := __node_items s;
     __item_for_node := __item_for_node s; __link_items := __link_items s;
     __item_for_link := __item_for_link s; editable := v;
     __channel_names_visible := __channel_names_visible s;
     activated_mapper := activated_mapper s;
     hovered_mapper := hovered_mapper s;
     position_change_mapper := position_change_mapper s; qt := qt s |}.

Definition with_channel_names_visible (v : bool) (s : CanvasScene) : CanvasScene :=
  {| scheme := scheme s; registry := registry s; __node_items := __node_items s;
     __item_for_node := __item_for_node s; __link_items := __link_items s;
     __item_for_link := __item_for_link s; editable := editable s;
     __channel_names_visible := v; activated_mapper := activated_mapper s;
     hovered_mapper := hovered_mapper s;
     position_change_mapper := position_change_mapper s; qt := qt s |}.

Definition with_activated_mapper (v : gmap NodeItem NodeItem) (s : CanvasScene) : CanvasScene :=
  {| scheme := scheme s; registry := registry s; __node_items := __node_items s;
     __item_for_node := __item_for_node s; __link_items := __link_items s;
     __item_for_link := __item_for_link s; editable := editable s;
     __channel_names_visible := __channel_names_visible s; activated_mapper := v;
     hovered_mapper := hovered_mapper s;
     position_change_mapper := position_change_mapper s; qt := qt s |}.

Definition with_hovered_mapper (v : gmap NodeItem NodeItem) (s : CanvasScene) : CanvasScene :=
  {| scheme := scheme s; registry := registry s; __node_items := __node_items s;
     __item_for_node := __item_for_node s; __link_items := __link_items s;
     __item_for_link := __item_for_link s; editable := editable s;
     __channel_names_visible := __channel_names_visible s;
     activated_mapper := activated_mapper s; hovered_mapper := v;
     position_change_mapper := position_change_mapper s; qt := qt s |}.

Definition with_position_change_mapper (v : gmap NodeItem NodeItem) (s : CanvasScene) : CanvasScene :=
  {| scheme := scheme s; registry := registry s; __node_items := __node_items s;
     __item_for_node := __item_for_node s; __link_items := __link_items s;
     __item_for_link := __item_for_link s; editable := editable s;
     __channel_names_visible := __channel_names_visible s;
     activated_mapper := activated_mapper s;
     hovered_mapper := hovered_mapper s; position_change_mapper := v;
     qt := qt s |}.

Definition with_qt (v : Toolkit) (s : CanvasScene) : CanvasScene :=
  {| scheme := scheme s; registry := registry s; __node_items := __node_items s;
     __item_for_node := __item_for_node s; __link_items := __link_items s;
     __item_for_link := __item_for_link s; editable := editable s;
     __channel_names_visible := __channel_names_visible s;
     activated_mapper := activated_mapper s;
     hovered_mapper := hovered_mapper s;
     position_change_mapper := position_change_mapper s; qt := v |}.

(** ** The state-and-exception monad *)

Definition M (A : Type) : Type := CanvasScene -> result A * CanvasScene.

Definition ret {A} (a : A) : M A := fun s => (Ok a, s).

Definition raise {A} (e : exn) : M A := fun s => (Raise e, s).

Definition bind {A B} (m : M A) (k : A -> M B) : M B := fun s =>
  match m s with
  | (Ok a, s') => k a s'
  | (Raise e, s') => (Raise e, s')
  end.

Definition gets {A} (f : CanvasScene -> A) : M A := fun s => (Ok (f s), s).

Definition modify (f : CanvasScene -> CanvasScene) : M unit := fun s => (Ok tt, f s).

Definition modify_qt (f : Toolkit -> Toolkit) : M unit :=
  modify (fun s => with_qt (f (qt s)) s).

(** [try: m except Exception: h]; every exception of the model is an
    [Exception]. *)
Definition try_except {A} (m : M A) (h : exn -> M A) : M A := fun s =>
  match m s with
  | (Ok a, s') => (Ok a, s')
  | (Raise e, s') => h e s'
  end.

Notation "x <- m ;; k" := (bind m (fun x => k))
  (at level 100, m at next level, right associativity).
Notation "m ;; k" := (bind m (fun _ => k))
  (at level 100, right associativity).

(** [d[k]] *)
Definition dict_get {K V} `{Countable K} (d : gmap K V) (k : K) : M V :=
  match d !! k with
  | Some v => ret v
  | None => raise KeyError
  end.

(** ** Toolkit operations *)

(** [signal.connect(slot)] *)
Definition connect (c : Connection) : M unit :=
  modify_qt (fun t => with_connections (connections t ++ [c]) t).

(** [signal.disconnect(slot)]: drops one connection of the slot,
    [TypeError] when the slot is not connected. *)
Definition disconnect (c : Connection) : M unit :=
  cs <- gets (fun s => connections (qt s)) ;;
  match list_remove c cs with
  | Some cs' => modify_qt (with_connections cs')
  | None => raise TypeError
  end.

(** [QGraphicsScene.addItem]: an item already in the scene is not added
    again. *)
Definition addItem (g : GraphicsItem) : M unit :=
  modify_qt (fun t =>
    if bool_decide (g ∈ scene_items t) then t
    else with_scene_items (scene_items t ++ [g]) t).

(** [QGraphicsScene.removeItem]: an item that is not in the scene is left
    alone. *)
Definition removeItem (g : GraphicsItem) : M unit :=
  modify_qt (fun t => with_scene_items (filter (fun g' => g' ≠ g) (scene_items t)) t).

(** [signal.emit(item)] of one of the scene's signals. *)
Definition emit (e : Emitted) : M unit :=
  modify_qt (fun t => with_emitted (emitted t ++ [e]) t).

(** [AnchorLayout.invalidateLink] *)
Definition invalidateLink (item : LinkItem) : M unit :=
  modify_qt (fun t => with_invalidated (invalidated t ++ [GLink item]) t).

(** [items.NodeItem()] *)
Definition new_NodeItem : M NodeItem := fun s =>
  let item := next_item (qt s) in
  (Ok item,
   with_qt (with_next_item (S item)
             (with_node_item_obj (<[item := NodeItem_new]> (node_item_obj (qt s)))
                (qt s))) s).

(** [items.LinkItem()] *)
Definition new_LinkItem : M LinkItem := fun s =>
  let item := next_item (qt s) in
  (Ok item,
   with_qt (with_next_item (S item)
             (with_link_item_obj (<[item := LinkItem_new]> (link_item_obj (qt s)))
                (qt s))) s).

Definition update_NodeItem (item : NodeItem) (f : NodeItemObj -> NodeItemObj) : M unit :=
  modify_qt (fun t =>
    with_node_item_obj (<[item := f (node_item_obj t item)]> (node_item_obj t)) t).

Definition update_LinkItem (item : LinkItem) (f : LinkItemObj -> LinkItemObj) : M unit :=
  modify_qt (fun t =>
    with_link_item_obj (<[item := f (link_item_obj t item)]> (link_item_obj t)) t).

(** [item.pos()] *)
Definition NodeItem_pos (item : NodeItem) : M QPointF :=
  gets (fun s => pos (node_item_obj (qt s) item)).

Definition setPos (item : NodeItem) (p : QPointF) : M unit :=
  update_NodeItem item (with_pos p).

Definition hide (item : NodeItem) : M unit :=
  update_NodeItem item (with_visible false).

(** Modelled from the spec: the signal mapper ([typed_signal_mapper] of
    items.utils) keeps a table from an item to its tag; "registering a
    mapping for an item twice for the same event updates the tag", and
    removing is "safe to call even if some entries are absent". *)
Definition setPyMapping (sender mapped : NodeItem) (table : gmap NodeItem NodeItem)
  : gmap NodeItem NodeItem :=
  <[sender := mapped]> table.

(** Modelled from the spec: [removePyMappings] of the missing mapper drops
    the entry of the item from one table, and is safe when there is none. *)
Definition removePyMappings (sender : NodeItem) (table : gmap NodeItem NodeItem)
  : gmap NodeItem NodeItem :=
  delete sender table.

(** ** The scene *)

(** [CanvasScene.__init__]: empty registries, editable, the anchor layout
    as the only item, no scheme and no registry. *)
Definition init_toolkit : Toolkit :=
  {| scene_items := [GAnchorLayout]; connections := []; emitted := [];
     invalidated := []; node_item_obj := fun _ => NodeItem_new;
     link_item_obj := fun _ => LinkItem_new; next_item := 0 |}.

Definition init_scene : CanvasScene :=
  {| scheme := None; registry := None; __node_items := []; __item_for_node := ∅;
     __link_items := []; __item_for_link := ∅; editable := true;
     __channel_names_visible := true; activated_mapper := ∅;
     hovered_mapper := ∅; position_change_mapper := ∅; qt := init_toolkit |}.

Definition set_registry (reg : option WidgetRegistry) : M unit :=
  modify (with_registry reg).

Definition set_channel_names_visible (v : bool) : M unit :=
  modify (with_channel_names_visible v) ;;
  links <- gets __link_items ;;
  foldr (fun link k => update_LinkItem link (with_channelNamesVisible v) ;; k)
        (ret tt) links.

Definition add_node_item (item : NodeItem) : M NodeItem :=
  items <- gets __node_items ;;
  (if bool_decide (item ∈ items)
   then raise (ValueError "%r is already in the scene.")
   else ret tt) ;;
  p <- NodeItem_pos item ;;
  (if isNull p then
     items <- gets __node_items ;;
     p' <- match last items with
           | Some l => q <- NodeItem_pos l ;; ret (QPointF_add q (150, 0)%Z)
           | None => ret (150, 150)%Z
           end ;;
     setPos item p'
   else ret tt) ;;
  modify (fun s => with_activated_mapper (setPyMapping item item (activated_mapper s)) s) ;;
  connect (activated item, pyMap Activated) ;;
  modify (fun s => with_hovered_mapper (setPyMapping item item (hovered_mapper s)) s) ;;
  connect (hovered item, pyMap Hovered) ;;
  modify (fun s =>
    with_position_change_mapper (setPyMapping item item (position_change_mapper s)) s) ;;
  connect (positionChanged item, pyMap PositionChange) ;;
  addItem (GNode item) ;;
  modify (fun s => with_node_items (__node_items s ++ [item]) s) ;;
  emit (node_item_added item) ;;
  ret item.

Definition new_node_item (widget_desc : WidgetDescription)
    (category_desc : option CategoryDescription) : M NodeItem :=
  item <- new_NodeItem ;;
  update_NodeItem item (with_widget_description (Some widget_desc)) ;;
  reg <- gets registry ;;
  category_desc <-
    match category_desc, reg with
    | None, Some r =>
        if registry_bool r && category_bool (category widget_desc) then
          match registry_category r (category widget_desc) with
          | Ok c => ret (Some c)
          | Raise e => raise e
          end
        else ret None
    | _, _ => ret category_desc
    end ;;
  category_desc <-
    match category_desc, reg with
    | None, Some r =>
        try_except
          (match registry_category r (category widget_desc) with
           | Ok c => ret (Some c)
           | Raise e => raise e
           end)
          (fun e => if is_KeyError e then ret None else raise e)
    | _, _ => ret category_desc
    end ;;
  match category_desc with
  | Some c => update_NodeItem item (with_widget_category (Some c))
  | None => ret tt
  end ;;
  ret item.

Definition add_node (node : SchemeNode) : M NodeItem :=
  d <- gets __item_for_node ;;
  match d !! node with
  | Some item => ret item
  | None =>
      item <- new_node_item (description (node_obj node)) None ;;
      match position (node_obj node) with
      | Some p => setPos item p
      | None => ret tt
      end ;;
      modify (fun s => with_item_for_node (<[node := item]> (__item_for_node s)) s) ;;
      connect (position_changed node, on_node_pos_changed) ;;
      connect (title_changed node, setTitle item) ;;
      connect (progress_changed node, setProgress item) ;;
      connect (processing_state_changed node, setProcessingState item) ;;
      add_node_item item
  end.

Definition remove_node_item (item : NodeItem) : M unit :=
  modify (fun s => with_activated_mapper (removePyMappings item (activated_mapper s)) s) ;;
  modify (fun s => with_hovered_mapper (removePyMappings item (hovered_mapper s)) s) ;;
  hide item ;;
  removeItem (GNode item) ;;
  items <- gets __node_items ;;
  match list_remove item items with
  | Some items' => modify (with_node_items items')
  | None => raise (ValueError "list.remove(x): x not in list")
  end ;;
  emit (node_item_removed item).

Definition remove_node (node : SchemeNode) : M unit :=
  d <- gets __item_for_node ;;
  item <- dict_get d node ;;
  modify (with_item_for_node (delete node d)) ;;
  disconnect (position_changed node, on_node_pos_changed) ;;
  disconnect (title_changed node, setTitle item) ;;
  disconnect (progress_changed node, setProgress item) ;;
  disconnect (processing_state_changed node, setProcessingState item) ;;
  remove_node_item item.

(** [node_items()] returns a copy of the list. *)
Definition node_items : M (list NodeItem) := gets __node_items.

Definition add_link_item (item : LinkItem) : M LinkItem :=
  shown <- gets (fun s => scene_items (qt s)) ;;
  (if bool_decide (GLink item ∈ shown) then ret tt else addItem (GLink item)) ;;
  modify (fun s => with_link_items (__link_items s ++ [item]) s) ;;
  emit (link_item_added item) ;;
  (* the log line reads item.sourceItem.title and item.sinkItem.title *)
  o <- gets (fun s => link_item_obj (qt s) item) ;;
  match sourceItem o, sinkItem o with
  | Some _, Some _ => ret tt
  | _, _ => raise AttributeError
  end ;;
  invalidateLink item ;;
  ret item.

Definition new_link_item (source_item : NodeItem) (source_channel : string)
    (sink_item : NodeItem) (sink_channel : string) : M LinkItem :=
  item <- new_LinkItem ;;
  update_LinkItem item (with_sourceItem (Some source_item)) ;;
  update_LinkItem item (with_sinkItem (Some sink_item)) ;;
  update_LinkItem item
    (with_toolTip ("<b>" +:+ escape source_channel +:+ "</b>&nbsp;-->&nbsp;<b>"
                   +:+ escape sink_channel +:+ "</b>")) ;;
  update_LinkItem item (with_sourceName source_channel) ;;
  update_LinkItem item (with_sinkName sink_channel) ;;
  visible <- gets __channel_names_visible ;;
  update_LinkItem item (with_channelNamesVisible visible) ;;
  ret item.

Definition add_link (scheme_link : SchemeLink) : M LinkItem :=
  d <- gets __item_for_link ;;
  match d !! scheme_link with
  | Some item => ret item
  | None =>
      nodes <- gets __item_for_node ;;
      source <- dict_get nodes (source_node (link_obj scheme_link)) ;;
      sink <- dict_get nodes (sink_node (link_obj scheme_link)) ;;
      item <- new_link_item source (source_channel (link_obj scheme_link))
                            sink (sink_channel (link_obj scheme_link)) ;;
      update_LinkItem item (with_isEnabled (enabled (link_obj scheme_link))) ;;
      connect (enabled_changed scheme_link, setEnabled item) ;;
      add_link_item item ;;
      modify (fun s => with_item_for_link (<[scheme_link := item]> (__item_for_link s)) s) ;;
      ret item
  end.

(** [item.removeLink()] detaches the link from its anchor points. *)
Definition removeLink (item : LinkItem) : M unit :=
  update_LinkItem item (fun o => with_sinkItem None (with_sourceItem None o)).

Definition remove_link_item (item : LinkItem) : M LinkItem :=
  items <- gets __link_items ;;
  match list_remove item items with
  | Some items' => modify (with_link_items items')
  | None => raise (ValueError "list.remove(x): x not in list")
  end ;;
  removeLink item ;;
  removeItem (GLink item) ;;
  emit (link_item_removed item) ;;
  ret item.

Definition remove_link (scheme_link : SchemeLink) : M unit :=
  d <- gets __item_for_link ;;
  item <- dict_get d scheme_link ;;
  modify (with_item_for_link (delete scheme_link d)) ;;
  disconnect (enabled_changed scheme_link, setEnabled item) ;;
  remove_link_item item ;;
  ret tt.

(** [link_items()] returns a copy of the list. *)
Definition link_items : M (list LinkItem) := gets __link_items.

Definition channel_names_visible : M bool := gets __channel_names_visible.

(** [self.scheme.add_node(node)]: without a scheme the attribute access
    fails; a scheme that accepts the node announces it through [node_added],
    whose slot is [add_node] (an exception in a slot does not reach the
    emitter). *)
Definition Scheme_add_node (node : SchemeNode) : M unit := fun s =>
  match scheme s with
  | None => (Raise AttributeError, s)
  | Some sch =>
      match scheme_add_node sch node with
      | Ok sch' => (Ok tt, (add_node node (with_scheme (Some sch') s)).2)
      | Raise e => (Raise e, s)
      end
  end.

(** [self.scheme.add_link(link)], likewise with [link_added] and
    [add_link]. *)
Definition Scheme_add_link (link : SchemeLink) : M unit := fun s =>
  match scheme s with
  | None => (Raise AttributeError, s)
  | Some sch =>
      match scheme_add_link sch link with
      | Ok sch' => (Ok tt, (add_link link (with_scheme (Some sch') s)).2)
      | Raise e => (Raise e, s)
      end
  end.

Definition commit_scheme_node (node : SchemeNode) : M unit :=
  ed <- gets editable ;;
  (if negb ed then raise (Exception "Scheme not editable.") else ret tt) ;;
  d <- gets __item_for_node ;;
  match d !! node with
  | None => raise (ValueError "No 'NodeItem' for node.")
  | Some item =>
      try_except (Scheme_add_node node)
        (fun e =>
           (* Cleanup (remove the node item) *)
           remove_node_item item ;;
           raise e)
  end.

Definition commit_scheme_link (link : SchemeLink) : M unit :=
  ed <- gets editable ;;
  (if negb ed then raise (Exception "Scheme not editable") else ret tt) ;;
  d <- gets __item_for_link ;;
  match d !! link with
  | None => raise (ValueError "No 'LinkItem' for link.")
  | Some _ => Scheme_add_link link
  end.

Definition node_for_item (item : NodeItem) : M SchemeNode :=
  d <- gets __item_for_node ;;
  let rev := dict_of_pairs ((fun kv => (kv.2, kv.1)) <$> map_to_list d) in
  dict_get rev item.

Definition item_for_node (node : SchemeNode) : M NodeItem :=
  d <- gets __item_for_node ;;
  dict_get d node.

Definition link_for_item (item : LinkItem) : M SchemeLink :=
  d <- gets __item_for_link ;;
  let rev := dict_of_pairs ((fun kv => (kv.2, kv.1)) <$> map_to_list d) in
  dict_get rev item.

Definition item_for_link (link : SchemeLink) : M LinkItem :=
  d <- gets __item_for_link ;;
  dict_get d link.

(** ** Histories *)

(** The calls that change a scene, for statements about a scene reached by
    any sequence of them.  [OpNewNodeItem] and [OpAddNodeItem] are the
    interactive path, where a caller makes an item and adds it before any
    scheme node exists for it. *)
Inductive Op :=
  | OpAddNode (node : SchemeNode)
  | OpRemoveNode (node : SchemeNode)
  | OpAddLink (link : SchemeLink)
  | OpRemoveLink (link : SchemeLink)
  | OpCommitNode (node : SchemeNode)
  | OpCommitLink (link : SchemeLink)
  | OpNewNodeItem (widget_desc : WidgetDescription)
                  (category_desc : option CategoryDescription)
  | OpAddNodeItem (item : NodeItem)
  | OpRemoveNodeItem (item : NodeItem)
  | OpRemoveLinkItem (item : LinkItem)
  | OpSetRegistry (reg : option WidgetRegistry)
  | OpSetEditable (v : bool)
  | OpSetChannelNamesVisible (v : bool).

#[global] Instance Op_eq_dec : EqDecision Op.
Proof. solve_decision. Defined.

(** The scene after a call, whether it returned or raised. *)
Definition exec {A} (m : M A) (s : CanvasScene) : CanvasScene := (m s).2.

Definition step (s : CanvasScene) (op : Op) : CanvasScene :=
  match op with
  | OpAddNode node => exec (add_node node) s
  | OpRemoveNode node => exec (remove_node node) s
  | OpAddLink link => exec (add_link link) s
  | OpRemoveLink link => exec (remove_link link) s
  | OpCommitNode node => exec (commit_scheme_node node) s
  | OpCommitLink link => exec (commit_scheme_link link) s
  | OpNewNodeItem widget_desc category_desc =>
      exec (new_node_item widget_desc category_desc) s
  | OpAddNodeItem item => exec (add_node_item item) s
  | OpRemoveNodeItem item => exec (remove_node_item item) s
  | OpRemoveLinkItem item => exec (remove_link_item item) s
  | OpSetRegistry reg => exec (set_registry reg) s
  | OpSetEditable v => with_editable v s
  | OpSetChannelNamesVisible v => exec (set_channel_names_visible v) s
  end.

Definition run (ops : list Op) (s : CanvasScene) : CanvasScene := foldl step s ops.

(** [scheme.add_node(node)] / [scheme.add_link(link)] raises [e] for the
    scene's scheme. *)
Definition node_rejected (s : CanvasScene) (node : SchemeNode) (e : exn) : Prop :=
  match scheme s with
  | None => e = AttributeError
  | Some sch => scheme_add_node sch node = Raise e
  end.

Definition link_rejected (s : CanvasScene) (link : SchemeLink) (e : exn) : Prop :=
  match scheme s with
  | None => e = AttributeError
  | Some sch => scheme_add_link sch link = Raise e
  end.

(** The four listeners [add_node] connects for a node and its item. *)
Definition node_listeners (node : SchemeNode) (item : NodeItem) : list Connection :=
  [ (position_changed node, on_node_pos_changed);
    (title_changed node, setTitle item);
    (progress_changed node, setProgress item);
    (processing_state_changed node, setProcessingState item) ].

(** ** Vocabulary for the registry *)

(** A call leaves the node registry alone and only ever allocates. *)
Definition frame (s s' : CanvasScene) : Prop :=
  __item_for_node s' = __item_for_node s /\ next_item (qt s) <= next_item (qt s').

Definition framed {A} (m : M A) : Prop := forall s, frame s (exec m s).

(** Every registered item has been allocated, and no item is registered for
    two nodes. *)
Definition registry_ok (s : CanvasScene) : Prop :=
  (forall node item, __item_for_node s !! node = Some item -> item < next_item (qt s)) /\
  (forall node1 node2 item,
     __item_for_node s !! node1 = Some item ->
     __item_for_node s !! node2 = Some item -> node1 = node2).

End Scene.


Arguments CanvasScene : clear implicits.
Arguments M : clear implicits.
Arguments Op : clear implicits.

(** ** A concrete domain model *)

(** A small scheme for running the scene: it keeps the nodes and links it
    accepted, and rejects an entity it already holds or one beyond its
    [capacity]. *)
Record DemoScheme := {
  nodes : list SchemeNode;
  links : list SchemeLink;
  capacity : nat
}.

Definition demo_accept (held : list nat) (cap : nat) (x : nat) : bool :=
  negb (bool_decide (x ∈ held)) && (length held <? cap).

(** Node 11 is stored at the origin, node 12 at (40, 30), the others have
    no stored position; the widget of node 13 has no category, the others
    are in category Data.  Link [l] goes from node [l] to node [l + 1]. *)
Definition demo_node (n : SchemeNode) : SchemeNodeObj :=
  {| description :=
       {| desc_name := "File";
          category := if bool_decide (n = 13) then None else Some "Data" |};
     position :=
       match n with
       | 11 => Some (0, 0)%Z
       | 12 => Some (40, 30)%Z
       | _ => None
       end;
     title := "File" |}.

Definition demo_link (l : SchemeLink) : SchemeLinkObj :=
  {| source_node := l; source_channel := "Data"; sink_node := S l;
     sink_channel := "Data"; enabled := true |}.

#[global] Instance demo_model : SchemeModel DemoScheme := {
  node_obj := demo_node;
  link_obj := demo_link;
  scheme_add_node sch n :=
    if demo_accept (nodes sch) (capacity sch) n
    then Ok {| nodes := nodes sch ++ [n]; links := links sch; capacity := capacity sch |}
    else Raise (ValueError "node rejected");
  scheme_add_link sch l :=
    if demo_accept (links sch) (capacity sch) l
    then Ok {| nodes := nodes sch; links := links sch ++ [l]; capacity := capacity sch |}
    else Raise (ValueError "link rejected")
}.

(** A scene bound to a scheme that rejects everything. *)
Definition full_scheme : DemoScheme := {| nodes := []; links := []; capacity := 0 |}.

Definition demo_scene (sch : DemoScheme) : CanvasScene DemoScheme :=
  with_scheme (Some sch) init_scene.

(** Nodes 10, 11 and 12 (items 0, 1 and 2) over a scheme that rejects every
    commit, and the same with link 10 (node 10 to node 11, item 3) drawn. *)
Definition three_nodes : CanvasScene DemoScheme :=
  run [OpAddNode 10; OpAddNode 11; OpAddNode 12] (demo_scene full_scheme).

Definition linked_scene : CanvasScene DemoScheme :=
  run [OpAddLink 10] three_nodes.

(** The same scene, not editable. *)
Definition read_only_scene : CanvasScene DemoScheme := with_editable false three_nodes.

(** A registry that knows no category. *)
Definition empty_registry : WidgetRegistry :=
  {| registry_bool := true; categories := ∅ |}.

(** ** Neighbours *)

Section Neighbours.

Context {Sch : Type} `{!SchemeModel Sch}.

#[local] Notation "x <- m ;; k" := (bind (Sch := Sch) m (fun x => k))
  (at level 100, m at next level, right associativity).

(** [link.sourceItem == node_item] *)
Definition node_output_links (node_item : NodeItem) : M Sch (list LinkItem) :=
  links <- gets __link_items ;;
  obj <- gets (fun s => link_item_obj (qt s)) ;;
  ret (filter (fun link => sourceItem (obj link) = Some node_item) links).

Definition node_input_links (node_item : NodeItem) : M Sch (list LinkItem) :=
  links <- gets __link_items ;;
  obj <- gets (fun s => link_item_obj (qt s)) ;;
  ret (filter (fun link => sinkItem (obj link) = Some node_item) links).

Definition node_links (node_item : NodeItem) : M Sch (list LinkItem) :=
  outputs <- node_output_links node_item ;;
  inputs <- node_input_links node_item ;;
  ret (outputs ++ inputs).

(** [attrgetter] yields whatever the attribute holds, [None] included. *)
Definition neighbor_nodes (node_item : NodeItem) : M Sch (list (option NodeItem)) :=
  inputs <- node_input_links node_item ;;
  obj <- gets (fun s => link_item_obj (qt s)) ;;
  outputs <- node_output_links node_item ;;
  obj' <- gets (fun s => link_item_obj (qt s)) ;;
  ret (((fun link => sourceItem (obj link)) <$> inputs)
       ++ ((fun link => sinkItem (obj' link)) <$> outputs)).

(** ** Slots *)


(** ** Views, steps and invariants *)

(** A call leaves some view of the scene as it was, however it ends. *)
Definition unchanged {V A} (view : CanvasScene Sch -> V) (m : M Sch A) : Prop :=
  forall s, view (exec m s) = view s.

(** The node items among the items of the [QGraphicsScene]. *)
Definition shown_node_items (s : CanvasScene Sch) : list NodeItem :=
  omap (fun g => match g with GNode item => Some item | _ => None end)
       (scene_items (qt s)).

(** What the scene keeps about its node items: the list, the node items
    shown, and the three mapper tables. *)
Definition node_side (s : CanvasScene Sch)
  : list NodeItem * list NodeItem
    * (gmap NodeItem NodeItem * gmap NodeItem NodeItem * gmap NodeItem NodeItem) :=
  (__node_items s, shown_node_items s,
   (activated_mapper s, hovered_mapper s, position_change_mapper s)).

(** The node items are listed once, the list holds what is shown, and
    every listed item is its own tag in the three mappers. *)
Definition node_side_ok
    (v : list NodeItem * list NodeItem
         * (gmap NodeItem NodeItem * gmap NodeItem NodeItem * gmap NodeItem NodeItem))
  : Prop :=
  let '(items, shown, (act, hov, pos)) := v in
  NoDup items /\
  (forall item, item ∈ items <-> item ∈ shown) /\
  (forall item, item ∈ items ->
     act !! item = Some item /\ hov !! item = Some item /\ pos !! item = Some item).

Definition node_items_ok (s : CanvasScene Sch) : Prop := node_side_ok (node_side s).

(** What one call can do to the node side: nothing, add an item that was
    not listed, or drop an item. *)
Definition node_side_step
    (v v' : list NodeItem * list NodeItem
            * (gmap NodeItem NodeItem * gmap NodeItem NodeItem * gmap NodeItem NodeItem))
  : Prop :=
  let '(items, shown, (act, hov, pos)) := v in
  let '(items', shown', (act', hov', pos')) := v' in
  v' = v \/
  (exists item, (item ∉ items) /\ items' = items ++ [item] /\
     (forall x, x ∈ shown' <-> x ∈ shown \/ x = item) /\
     act' = <[item := item]> act /\ hov' = <[item := item]> hov /\
     pos' = <[item := item]> pos) \/
  (exists item,
     (list_remove item items = Some items' \/ ((item ∉ items) /\ items' = items)) /\
     (forall x, x ∈ shown' <-> x ∈ shown /\ x <> item) /\
     act' = delete item act /\ hov' = delete item hov /\ pos' = pos).

(** A call whose effect on some view of the scene is one step of a
    relation, however it ends. *)
Definition steps {V A} (view : CanvasScene Sch -> V) (R : V -> V -> Prop)
    (m : M Sch A) : Prop :=
  forall s, R (view s) (view (exec m s)).

(** Every registered link item has been allocated, and no link item is
    registered for two links. *)
Definition link_registry_ok (s : CanvasScene Sch) : Prop :=
  (forall link item, __item_for_link s !! link = Some item -> item < next_item (qt s)) /\
  (forall link1 link2 item,
     __item_for_link s !! link1 = Some item ->
     __item_for_link s !! link2 = Some item -> link1 = link2).

(** ** Listeners *)

(** The connections the scene makes from a scheme node or a scheme link to
    its item; all the others it makes go from a node item to a mapper. *)
Definition is_listener (c : Connection) : bool :=
  match c with
  | (position_changed _, on_node_pos_changed)
  | (title_changed _, setTitle _)
  | (progress_changed _, setProgress _)
  | (processing_state_changed _, setProcessingState _)
  | (enabled_changed _, setEnabled _) => true
  | _ => false
  end.

(** The listener of a link and its item. *)
Definition link_listener (link : SchemeLink) (item : LinkItem) : Connection :=
  (enabled_changed link, setEnabled item).

(** The listeners the two registries account for. *)
Definition accounted (nodes : gmap SchemeNode NodeItem) (links : gmap SchemeLink LinkItem)
    (c : Connection) : Prop :=
  (exists node item, nodes !! node = Some item /\ c ∈ node_listeners node item) \/
  (exists link item, links !! link = Some item /\ c = link_listener link item).

(** How often a connection is made. *)
Definition connected (l : list Connection) (c : Connection) : nat :=
  count_occ (decide_rel (=)) l c.

(** The registries and the listeners that are connected. *)
Definition listener_side (s : CanvasScene Sch)
  : gmap SchemeNode NodeItem * gmap SchemeLink LinkItem * list Connection :=
  (__item_for_node s, __item_for_link s,
   filter (fun c => is_listener c = true) (connections (qt s))).

(** Every listener the registries account for is connected once, and no
    other listener is connected. *)
Definition listeners_ok
    (v : gmap SchemeNode NodeItem * gmap SchemeLink LinkItem * list Connection) : Prop :=
  let '(nodes, links, l) := v in
  forall c, (accounted nodes links c -> connected l c = 1) /\
            (~ accounted nodes links c -> connected l c = 0).

(** What one call can do to the registries and the listeners: nothing,
    register a node or a link with its listeners, or drop one with its
    listeners. *)
Definition listener_step
    (v v' : gmap SchemeNode NodeItem * gmap SchemeLink LinkItem * list Connection) : Prop :=
  let '(nodes, links, l) := v in
  let '(nodes', links', l') := v' in
  v' = v \/
  (exists node item, nodes !! node = None /\ nodes' = <[node := item]> nodes /\
     links' = links /\ l' = l ++ node_listeners node item) \/
  (exists link item, links !! link = None /\ nodes' = nodes /\
     links' = <[link := item]> links /\ l' = l ++ [link_listener link item]) \/
  (exists node item, nodes !! node = Some item /\ nodes' = delete node nodes /\
     links' = links /\ l ≡ₚ node_listeners node item ++ l') \/
  (exists link item, links !! link = Some item /\ nodes' = nodes /\
     links' = delete link links /\ l ≡ₚ link_listener link item :: l').

End Neighbours.

(** A scheme with room for eight nodes and eight links, and a scene over it
    with nodes 10 and 11 (items 0 and 1) and link 10 between them
    (item 2). *)
Definition roomy_scheme : DemoScheme := {| nodes := []; links := []; capacity := 8 |}.

Definition open_scene : CanvasScene DemoScheme :=
  run [OpAddNode 10; OpAddNode 11; OpAddLink 10] (demo_scene roomy_scheme).

(** * Annotations *)

(** The annotation half of [CanvasScene].  [add_annotation] and its
    companions read and write only the two annotation attributes, the
    annotation items they put into the [QGraphicsScene], the signals of the
    scheme annotations and the scene's own [annotation_added] and
    [annotation_removed]; none of this is shared with the node and link
    half, so it is kept in a state of its own, with a monad of the same
    shape. *)

Abbreviation SchemeAnnotation := nat (only parsing).
Abbreviation AnnotationItem := nat (only parsing).

(** Modelled from the spec: a scheme annotation (scheme package) is "either
    free text (position, size, text content) or an arrow (start point, end
    point)"; [rect] is [(x, y, w, h)].  [OtherAnnotation] stands for an
    annotation of neither class, which the [if] / [elif] of
    [add_annotation] lets through. *)
Inductive SchemeAnnotationObj :=
  | SchemeTextAnnotation (text : string) (rect : Z * Z * Z * Z)
  | SchemeArrowAnnotation (start_pos end_pos : QPointF)
  | OtherAnnotation.

Class AnnotationModel := {
  annotation_obj : SchemeAnnotation -> SchemeAnnotationObj
}.

(** [Qt.TextEditorInteraction] *)
Inductive TextInteractionFlags := TextEditorInteraction.

(** Modelled from the spec: the annotation items (items package), with the
    attributes the scene sets on them. *)
Inductive AnnotationObj :=
  | TextAnnotation (plainText : string) (pos : QPointF) (size : Z * Z)
                   (textInteractionFlags : TextInteractionFlags)
  | ArrowAnnotation (line : QPointF * QPointF).

Inductive AnnotationSignal :=
  | text_changed (annot : SchemeAnnotation)
  | geometry_changed (annot : SchemeAnnotation).

#[global] Instance AnnotationSignal_eq_dec : EqDecision AnnotationSignal.
Proof. solve_decision. Defined.

Inductive AnnotationSlot :=
  | setPlainText (item : AnnotationItem)
  | on_scheme_annot_geometry_change.

#[global] Instance AnnotationSlot_eq_dec : EqDecision AnnotationSlot.
Proof. solve_decision. Defined.

Definition AnnotationConnection : Type := AnnotationSignal * AnnotationSlot.

Inductive AnnotationEmitted :=
  | annotation_added (item : AnnotationItem)
  | annotation_removed (item : AnnotationItem).

Definition UnboundLocalError : exn := Exn "UnboundLocalError" "".

(** The two annotation attributes of [CanvasScene], and what the toolkit
    holds for them: the annotation items in the [QGraphicsScene], the
    connections, the emissions and the annotation items allocated so
    far. *)
Record AnnotationScene := {
  __annotation_items : list AnnotationItem;
  __item_for_annotation : gmap SchemeAnnotation AnnotationItem;
  annotation_scene_items : list AnnotationItem;
  annotation_connections : list AnnotationConnection;
  annotation_emitted : list AnnotationEmitted;
  annotation_item_obj : gmap AnnotationItem AnnotationObj;
  next_annotation_item : nat
}.

Definition with_annotation_items (v : list AnnotationItem) (s : AnnotationScene)
  : AnnotationScene :=
  {| __annotation_items := v; __item_for_annotation := __item_for_annotation s;
     annotation_scene_items := annotation_scene_items s;
     annotation_connections := annotation_connections s;
     annotation_emitted := annotation_emitted s;
     annotation_item_obj := annotation_item_obj s;
     next_annotation_item := next_annotation_item s |}.

Definition with_item_for_annotation (v : gmap SchemeAnnotation AnnotationItem)
    (s : AnnotationScene) : AnnotationScene :=
  {| __annotation_items := __annotation_items s; __item_for_annotation := v;
     annotation_scene_items := annotation_scene_items s;
     annotation_connections := annotation_connections s;
     annotation_emitted := annotation_emitted s;
     annotation_item_obj := annotation_item_obj s;
     next_annotation_item := next_annotation_item s |}.

Definition with_annotation_scene_items (v : list AnnotationItem) (s : AnnotationScene)
  : AnnotationScene :=
  {| __annotation_items := __annotation_items s;
     __item_for_annotation := __item_for_annotation s;
     annotation_scene_items := v;
     annotation_connections := annotation_connections s;
     annotation_emitted := annotation_emitted s;
     annotation_item_obj := annotation_item_obj s;
     next_annotation_item := next_annotation_item s |}.

Definition with_annotation_connections (v : list AnnotationConnection)
    (s : AnnotationScene) : AnnotationScene :=
  {| __annotation_items := __annotation_items s;
     __item_for_annotation := __item_for_annotation s;
     annotation_scene_items := annotation_scene_items s;
     annotation_connections := v;
     annotation_emitted := annotation_emitted s;
     annotation_item_obj := annotation_item_obj s;
     next_annotation_item := next_annotation_item s |}.

Definition with_annotation_emitted (v : list AnnotationEmitted) (s : AnnotationScene)
  : AnnotationScene :=
  {| __annotation_items := __annotation_items s;
     __item_for_annotation := __item_for_annotation s;
     annotation_scene_items := annotation_scene_items s;
     annotation_connections := annotation_connections s;
     annotation_emitted := v;
     annotation_item_obj := annotation_item_obj s;
     next_annotation_item := next_annotation_item s |}.

(** [CanvasScene.__init__]: no annotation items, an empty registry. *)
Definition init_annotations : AnnotationScene :=
  {| __annotation_items := []; __item_for_annotation := ∅;
     annotation_scene_items := []; annotation_connections := [];
     annotation_emitted := []; annotation_item_obj := ∅;
     next_annotation_item := 0 |}.

Section Annotations.

Context {model : AnnotationModel}.

(** The state-and-exception monad over the annotation state. *)
Definition MA (A : Type) : Type := AnnotationScene -> result A * AnnotationScene.

Definition ret_a {A} (a : A) : MA A := fun s => (Ok a, s).

Definition raise_a {A} (e : exn) : MA A := fun s => (Raise e, s).

Definition bind_a {A B} (m : MA A) (k : A -> MA B) : MA B := fun s =>
  match m s with
  | (Ok a, s') => k a s'
  | (Raise e, s') => (Raise e, s')
  end.

Definition gets_a {A} (f : AnnotationScene -> A) : MA A := fun s => (Ok (f s), s).

Definition modify_a (f : AnnotationScene -> AnnotationScene) : MA unit :=
  fun s => (Ok tt, f s).

#[local] Notation "x <- m ;; k" := (bind_a m (fun x => k))
  (at level 100, m at next level, right associativity).
#[local] Notation "m ;; k" := (bind_a m (fun _ => k))
  (at level 100, right associativity).

(** [signal.connect(slot)] *)
Definition connect_a (c : AnnotationConnection) : MA unit :=
  modify_a (fun s => with_annotation_connections (annotation_connections s ++ [c]) s).

(** [signal.disconnect(slot)]: drops one connection of the slot,
    [TypeError] when the slot is not connected. *)
Definition disconnect_a (c : AnnotationConnection) : MA unit :=
  cs <- gets_a annotation_connections ;;
  match list_remove c cs with
  | Some cs' => modify_a (with_annotation_connections cs')
  | None => raise_a TypeError
  end.

(** [QGraphicsScene.addItem]: an item already in the scene is not added
    again. *)
Definition addItem_a (item : AnnotationItem) : MA unit :=
  modify_a (fun s =>
    if bool_decide (item ∈ annotation_scene_items s) then s
    else with_annotation_scene_items (annotation_scene_items s ++ [item]) s).

(** [QGraphicsScene.removeItem] *)
Definition removeItem_a (item : AnnotationItem) : MA unit :=
  modify_a (fun s =>
    with_annotation_scene_items
      (filter (fun i => i ≠ item) (annotation_scene_items s)) s).

Definition emit_a (e : AnnotationEmitted) : MA unit :=
  modify_a (fun s => with_annotation_emitted (annotation_emitted s ++ [e]) s).

(** [items.TextAnnotation()] or [items.ArrowAnnotation()], with the
    attributes the scene sets on the new item right away. *)
Definition new_annotation_item (o : AnnotationObj) : MA AnnotationItem := fun s =>
  let item := next_annotation_item s in
  (Ok item,
   {| __annotation_items := __annotation_items s;
      __item_for_annotation := __item_for_annotation s;
      annotation_scene_items := annotation_scene_items s;
      annotation_connections := annotation_connections s;
      annotation_emitted := annotation_emitted s;
      annotation_item_obj := <[item := o]> (annotation_item_obj s);
      next_annotation_item := S item |}).

Definition add_annotation_item (annotation : AnnotationItem) : MA AnnotationItem :=
  modify_a (fun s => with_annotation_items (__annotation_items s ++ [annotation]) s) ;;
  addItem_a annotation ;;
  emit_a (annotation_added annotation) ;;
  ret_a annotation.

(** The local [item] is bound in the two [isinstance] branches only: for an
    annotation of neither class the call of [add_annotation_item] fails on
    the unbound name, after [geometry_changed] has been connected. *)
Definition add_annotation (scheme_annot : SchemeAnnotation) : MA AnnotationItem :=
  d <- gets_a __item_for_annotation ;;
  match d !! scheme_annot with
  | Some item => ret_a item
  | None =>
      item <-
        match annotation_obj scheme_annot with
        | SchemeTextAnnotation text (x, y, w, h) =>
            item <- new_annotation_item
                      (TextAnnotation text (x, y) (w, h) TextEditorInteraction) ;;
            connect_a (text_changed scheme_annot, setPlainText item) ;;
            ret_a (Some item)
        | SchemeArrowAnnotation start_pos end_pos =>
            item <- new_annotation_item (ArrowAnnotation (start_pos, end_pos)) ;;
            ret_a (Some item)
        | OtherAnnotation => ret_a None
        end ;;
      connect_a (geometry_changed scheme_annot, on_scheme_annot_geometry_change) ;;
      match item with
      | None => raise_a UnboundLocalError
      | Some item =>
          add_annotation_item item ;;
          modify_a (fun s =>
            with_item_for_annotation
              (<[scheme_annot := item]> (__item_for_annotation s)) s) ;;
          ret_a item
      end
  end.

Definition remove_annotation_item (annotation : AnnotationItem) : MA unit :=
  items <- gets_a __annotation_items ;;
  match list_remove annotation items with
  | Some items' => modify_a (with_annotation_items items')
  | None => raise_a (ValueError "list.remove(x): x not in list")
  end ;;
  removeItem_a annotation ;;
  emit_a (annotation_removed annotation).

(** [self.__item_for_annotation.pop(scheme_annotation)] comes first. *)
Definition remove_annotation (scheme_annotation : SchemeAnnotation) : MA unit :=
  d <- gets_a __item_for_annotation ;;
  item <- match d !! scheme_annotation with
          | Some item =>
              modify_a (with_item_for_annotation (delete scheme_annotation d)) ;;
              ret_a item
          | None => raise_a KeyError
          end ;;
  disconnect_a (geometry_changed scheme_annotation, on_scheme_annot_geometry_change) ;;
  match annotation_obj scheme_annotation with
  | SchemeTextAnnotation _ _ =>
      disconnect_a (text_changed scheme_annotation, setPlainText item)
  | _ => ret_a tt
  end ;;
  remove_annotation_item item.

(** [annotation_items()] returns the list itself. *)
Definition annotation_items : MA (list AnnotationItem) := gets_a __annotation_items.

Definition item_for_annotation (scheme_annotation : SchemeAnnotation)
  : MA AnnotationItem :=
  d <- gets_a __item_for_annotation ;;
  match d !! scheme_annotation with
  | Some item => ret_a item
  | None => raise_a KeyError
  end.

Definition annotation_for_item (item : AnnotationItem) : MA SchemeAnnotation :=
  d <- gets_a __item_for_annotation ;;
  let rev := dict_of_pairs ((fun kv => (kv.2, kv.1)) <$> map_to_list d) in
  match rev !! item with
  | Some annot => ret_a annot
  | None => raise_a KeyError
  end.

(** The listeners [add_annotation] connects for an annotation and its
    item. *)
Definition annotation_listeners (annot : SchemeAnnotation) (item : AnnotationItem)
  : list AnnotationConnection :=
  match annotation_obj annot with
  | SchemeTextAnnotation _ _ =>
      [ (text_changed annot, setPlainText item);
        (geometry_changed annot, on_scheme_annot_geometry_change) ]
  | _ => [ (geometry_changed annot, on_scheme_annot_geometry_change) ]
  end.

(** The item [add_annotation] makes for an annotation, if it makes one. *)
Definition made_item (o : SchemeAnnotationObj) : option AnnotationObj :=
  match o with
  | SchemeTextAnnotation text (x, y, w, h) =>
      Some (TextAnnotation text (x, y) (w, h) TextEditorInteraction)
  | SchemeArrowAnnotation start_pos end_pos => Some (ArrowAnnotation (start_pos, end_pos))
  | OtherAnnotation => None
  end.

(** The annotation scene after a call, whether it returned or raised. *)
Definition exec_a {A} (m : MA A) (s : AnnotationScene) : AnnotationScene := (m s).2.

End Annotations.

(** Annotation 1 is a text, annotation 2 an arrow, any other is of neither
    class. *)
Definition demo_annotations : AnnotationModel :=
  {| annotation_obj a :=
       match a with
       | 1 => SchemeTextAnnotation "note" (10, 20, 100, 50)%Z
       | 2 => SchemeArrowAnnotation (0, 0)%Z (30, 40)%Z
       | _ => OtherAnnotation
       end |}.

(** * Properties *)

Ltac unfold_monad :=
  unfold bind, ret, raise, gets, modify, modify_qt, try_except, dict_get in *.

(** ** Refused commits *)

Lemma commit_scheme_node_not_editable {Sch} `{!SchemeModel Sch}
    (s : CanvasScene Sch) (node : SchemeNode) :
  editable s = false ->
  commit_scheme_node node s = (Raise (Exception "Scheme not editable."), s).
Proof.
  intros Hed. unfold commit_scheme_node. unfold_monad. by rewrite Hed.
Qed.

Lemma commit_scheme_link_not_editable {Sch} `{!SchemeModel Sch}
    (s : CanvasScene Sch) (link : SchemeLink) :
  editable s = false ->
  commit_scheme_link link s = (Raise (Exception "Scheme not editable"), s).
Proof.
  intros Hed. unfold commit_scheme_link. unfold_monad. by rewrite Hed.
Qed.

(** C5, as amended: on a scene that is not editable, [commit_scheme_node]
    and [commit_scheme_link] raise a plain [Exception] ("Scheme not
    editable." / "Scheme not editable") and leave the scene, and with it the
    scheme, exactly as they were. *)
Theorem commit_refused_when_not_editable {Sch} `{!SchemeModel Sch}
    (s : CanvasScene Sch) (node : SchemeNode) (link : SchemeLink) :
  editable s = false ->
  commit_scheme_node node s = (Raise (Exception "Scheme not editable."), s) /\
  commit_scheme_link link s = (Raise (Exception "Scheme not editable"), s).
Proof.
  intros Hed. split.
  - by apply commit_scheme_node_not_editable.
  - by apply commit_scheme_link_not_editable.
Qed.

Lemma commit_refused_when_not_editable_witness :
  commit_scheme_node 10 read_only_scene
    = (Raise (Exception "Scheme not editable."), read_only_scene) /\
  commit_scheme_link 10 read_only_scene
    = (Raise (Exception "Scheme not editable"), read_only_scene).
Proof.
  apply (commit_refused_when_not_editable read_only_scene 10 10). reflexivity.
Defined.

(** C5 as stated fails: the exception raised on a scene that is not
    editable is of class [Exception], not [EditingDisabledError]. *)
Lemma commit_not_editable_exception_class :
  editable read_only_scene = false /\
  exists e, commit_scheme_node 10 read_only_scene = (Raise e, read_only_scene) /\
            exn_class e = "Exception" /\
            exn_class e <> "EditingDisabledError".
Proof.
  split; [reflexivity|].
  exists (Exception "Scheme not editable."). split; [|split].
  - by apply commit_scheme_node_not_editable.
  - reflexivity.
  - discriminate.
Qed.

(** ** Links with a missing endpoint *)

Lemma add_link_missing_endpoint {Sch} `{!SchemeModel Sch}
    (s : CanvasScene Sch) (link : SchemeLink) :
  __item_for_link s !! link = None ->
  __item_for_node s !! source_node (link_obj link) = None \/
  __item_for_node s !! sink_node (link_obj link) = None ->
  add_link link s = (Raise KeyError, s).
Proof.
  intros Hnew Hmissing. unfold add_link. unfold_monad. rewrite Hnew.
  destruct (__item_for_node s !! source_node (link_obj link)) as [src|] eqn:Hsrc;
    [|reflexivity].
  destruct Hmissing as [?|Hsink]; [congruence|]. by rewrite Hsink.
Qed.

(** C4, as amended: for a scheme link that has no link item yet and whose
    source node or sink node has not been added to the scene, [add_link]
    fails with [KeyError], and the scene (so the link-item map and the
    link-item list) is exactly as it was before the call. *)
Theorem add_link_missing_endpoint_KeyError {Sch} `{!SchemeModel Sch}
    (s : CanvasScene Sch) (link : SchemeLink) :
  __item_for_link s !! link = None ->
  __item_for_node s !! source_node (link_obj link) = None \/
  __item_for_node s !! sink_node (link_obj link) = None ->
  exists s', add_link link s = (Raise KeyError, s') /\
             __item_for_link s' = __item_for_link s /\
             __link_items s' = __link_items s.
Proof.
  intros Hnew Hmissing. exists s.
  by rewrite (add_link_missing_endpoint s link Hnew Hmissing).
Qed.

(** Link 12 goes from node 12 to node 13, and node 13 was never added. *)
Lemma add_link_missing_endpoint_KeyError_witness :
  exists s', add_link 12 three_nodes = (Raise KeyError, s') /\
             __item_for_link s' = __item_for_link three_nodes /\
             __link_items s' = __link_items three_nodes.
Proof.
  apply (add_link_missing_endpoint_KeyError three_nodes 12).
  - reflexivity.
  - right. reflexivity.
Defined.

(** C4 as stated fails twice over.  The failure is a [KeyError], not a
    [MissingEndpointError]; and a link that already has an item is returned
    without its endpoints being looked at: after node 10 is removed from
    [linked_scene], [add_link 10] still returns the item of link 10. *)
Lemma add_link_missing_endpoint_not_typed :
  (__item_for_node three_nodes !! sink_node (link_obj 12) = None /\
   exists e, (add_link 12 three_nodes).1 = Raise e /\
             exn_class e <> "MissingEndpointError") /\
  (__item_for_node (run [OpRemoveNode 10] linked_scene)
     !! source_node (link_obj 10) = None /\
   (add_link 10 (run [OpRemoveNode 10] linked_scene)).1 = Ok 3).
Proof.
  split.
  - split; [reflexivity|]. exists KeyError. split; [|discriminate].
    rewrite add_link_missing_endpoint; [reflexivity|reflexivity|right; reflexivity].
  - split; vm_compute; reflexivity.
Qed.

(** ** [list.remove] *)

Lemma list_remove_elem_of {A} `{EqDecision A} (x : A) (l : list A) :
  x ∈ l -> exists l', list_remove x l = Some l'.
Proof.
  induction l as [|y l IH]; intros Hin; [by apply elem_of_nil in Hin|].
  simpl. destruct (decide (x = y)) as [->|Hne]; [by eexists|].
  apply elem_of_cons in Hin as [?|Hin]; [done|].
  destruct (IH Hin) as [l' ->]. by eexists.
Qed.

Lemma list_remove_length {A} `{EqDecision A} (x : A) (l l' : list A) :
  list_remove x l = Some l' -> length l = S (length l').
Proof.
  revert l'. induction l as [|y l IH]; intros l' Hrm; [done|].
  simpl in Hrm. destruct (decide (x = y)); [by inversion Hrm|].
  destruct (list_remove x l) as [l0|]; [|done].
  inversion Hrm; subst. simpl. by rewrite (IH l0).
Qed.

Lemma list_remove_subseteq {A} `{EqDecision A} (x : A) (l l' : list A) :
  list_remove x l = Some l' -> l' ⊆ l.
Proof.
  revert l'. induction l as [|y l IH]; intros l' Hrm; [done|].
  simpl in Hrm. destruct (decide (x = y)).
  - inversion Hrm; subst. intros z Hz. by apply elem_of_cons; right.
  - destruct (list_remove x l) as [l0|]; [|done].
    inversion Hrm; subst. specialize (IH l0 eq_refl).
    intros z Hz. apply elem_of_cons in Hz as [->|Hz]; apply elem_of_cons; auto.
Qed.

Lemma list_remove_NoDup {A} `{EqDecision A} (x : A) (l l' : list A) :
  NoDup l -> list_remove x l = Some l' -> x ∉ l'.
Proof.
  revert l'. induction l as [|y l IH]; intros l' Hnd Hrm; [done|].
  apply NoDup_cons in Hnd as [Hy Hnd]. simpl in Hrm.
  destruct (decide (x = y)) as [->|Hne]; [by inversion Hrm; subst|].
  destruct (list_remove x l) as [l0|]; [|done].
  inversion Hrm; subst. specialize (IH l0 Hnd eq_refl).
  intros Hx. apply elem_of_cons in Hx as [?|?]; auto.
Qed.

(** ** Rollback of a rejected commit *)

Lemma Scheme_add_node_rejected {Sch} `{!SchemeModel Sch}
    (s : CanvasScene Sch) (node : SchemeNode) (e : exn) :
  node_rejected s node e -> Scheme_add_node node s = (Raise e, s).
Proof.
  unfold node_rejected, Scheme_add_node. destruct (scheme s) as [sch|].
  - by intros ->.
  - by intros ->.
Qed.

Lemma Scheme_add_link_rejected {Sch} `{!SchemeModel Sch}
    (s : CanvasScene Sch) (link : SchemeLink) (e : exn) :
  link_rejected s link e -> Scheme_add_link link s = (Raise e, s).
Proof.
  unfold link_rejected, Scheme_add_link. destruct (scheme s) as [sch|].
  - by intros ->.
  - by intros ->.
Qed.

(** What [remove_node_item] does to a scene that lists the item. *)
Lemma remove_node_item_spec {Sch} `{!SchemeModel Sch}
    (s : CanvasScene Sch) (item : NodeItem) (items' : list NodeItem) :
  list_remove item (__node_items s) = Some items' ->
  exists s', remove_node_item item s = (Ok tt, s') /\
    __node_items s' = items' /\
    __item_for_node s' = __item_for_node s /\
    activated_mapper s' = removePyMappings item (activated_mapper s) /\
    hovered_mapper s' = removePyMappings item (hovered_mapper s) /\
    position_change_mapper s' = position_change_mapper s /\
    connections (qt s') = connections (qt s) /\
    scene_items (qt s') = filter (fun g => g <> GNode item) (scene_items (qt s)).
Proof.
  intros Hrm. eexists. split.
  - unfold remove_node_item, hide, removeItem, emit, update_NodeItem.
    unfold_monad. cbn. rewrite Hrm. reflexivity.
  - cbn. repeat split; reflexivity.
Qed.

(** A rejected commit of a node whose item is listed: the exception of the
    scheme comes out after [remove_node_item] has run. *)
Lemma commit_scheme_node_rejected {Sch} `{!SchemeModel Sch}
    (s : CanvasScene Sch) (node : SchemeNode) (item : NodeItem) (e : exn) :
  editable s = true ->
  __item_for_node s !! node = Some item ->
  item ∈ __node_items s ->
  node_rejected s node e ->
  commit_scheme_node node s = (Raise e, exec (remove_node_item item) s) /\
  (remove_node_item item s).1 = Ok tt.
Proof.
  intros Hed Hitem Hin Hrej.
  destruct (list_remove_elem_of item _ Hin) as [items' Hrm].
  destruct (remove_node_item_spec s item items' Hrm) as (s' & Hrun & _).
  unfold commit_scheme_node, exec. unfold_monad. rewrite Hed. cbn [negb].
  rewrite Hitem, (Scheme_add_node_rejected s node e Hrej), Hrun. done.
Qed.

(** A rejected commit of a link leaves the scene as it was: nothing is
    removed. *)
Lemma commit_scheme_link_rejected {Sch} `{!SchemeModel Sch}
    (s : CanvasScene Sch) (link : SchemeLink) (item : LinkItem) (e : exn) :
  editable s = true ->
  __item_for_link s !! link = Some item ->
  link_rejected s link e ->
  commit_scheme_link link s = (Raise e, s).
Proof.
  intros Hed Hitem Hrej. unfold commit_scheme_link. unfold_monad.
  rewrite Hed. cbn [negb]. rewrite Hitem. by apply Scheme_add_link_rejected.
Qed.

(** C1 fails for links: the scheme rejects link 10, the error reaches the
    caller, and the link item added for it (item 3) is still listed, still
    shown and still registered, whereas the same failure for node 10 removes
    its item (item 0). *)
Theorem rejected_link_commit_keeps_item :
  commit_scheme_link 10 linked_scene
    = (Raise (ValueError "link rejected"), linked_scene) /\
  __item_for_link linked_scene !! 10 = Some 3 /\
  3 ∈ __link_items linked_scene /\
  GLink 3 ∈ scene_items (qt linked_scene) /\
  __item_for_node linked_scene !! 10 = Some 0 /\
  (commit_scheme_node 10 linked_scene).1 = Raise (ValueError "node rejected") /\
  (0 ∉ __node_items (exec (commit_scheme_node 10) linked_scene)) /\
  (GNode 0 ∉ scene_items (qt (exec (commit_scheme_node 10) linked_scene))).
Proof.
  split; [|split; [|split; [|split; [|split; [|split; [|split]]]]]].
  - apply (commit_scheme_link_rejected linked_scene 10 3);
      vm_compute; reflexivity.
  - vm_compute; reflexivity.
  - apply (bool_decide_unpack _). vm_compute. exact I.
  - apply (bool_decide_unpack _). vm_compute. exact I.
  - vm_compute; reflexivity.
  - vm_compute; reflexivity.
  - apply (bool_decide_unpack _). vm_compute. exact I.
  - apply (bool_decide_unpack _). vm_compute. exact I.
Qed.

(** C6, as amended: for a node whose item is in the scene, a commit that
    fails because the scheme raises leaves one node item fewer than there
    were immediately before the call: the item of the node is removed. *)
Theorem failed_commit_removes_one_node_item {Sch} `{!SchemeModel Sch}
    (s : CanvasScene Sch) (node : SchemeNode) (item : NodeItem) (e : exn) :
  editable s = true ->
  __item_for_node s !! node = Some item ->
  item ∈ __node_items s ->
  node_rejected s node e ->
  exists s', commit_scheme_node node s = (Raise e, s') /\
             S (length (__node_items s')) = length (__node_items s).
Proof.
  intros Hed Hitem Hin Hrej.
  destruct (commit_scheme_node_rejected s node item e Hed Hitem Hin Hrej) as [Hrun _].
  destruct (list_remove_elem_of item _ Hin) as [items' Hrm].
  destruct (remove_node_item_spec s item items' Hrm) as (s' & Hrm' & Hitems & _).
  exists s'. split.
  - rewrite Hrun. unfold exec. by rewrite Hrm'.
  - rewrite Hitems. symmetry. by apply (list_remove_length item).
Qed.

Lemma failed_commit_removes_one_node_item_witness :
  exists s', commit_scheme_node 11 three_nodes = (Raise (ValueError "node rejected"), s') /\
             S (length (__node_items s')) = length (__node_items three_nodes).
Proof.
  apply (failed_commit_removes_one_node_item three_nodes 11 1).
  - vm_compute; reflexivity.
  - vm_compute; reflexivity.
  - apply (bool_decide_unpack _). vm_compute. exact I.
  - vm_compute; reflexivity.
Defined.

(** C6 as stated fails: three node items before the failed commit of
    node 11, two after it. *)
Lemma failed_commit_changes_node_item_count :
  (commit_scheme_node 11 three_nodes).1 = Raise (ValueError "node rejected") /\
  length (__node_items three_nodes) = 3 /\
  length (__node_items (exec (commit_scheme_node 11) three_nodes)) = 2.
Proof. repeat split; vm_compute; reflexivity. Qed.

(** C10: after a commit that failed because the scheme raised, with the
    item of the node removed from the scene, [item_for_node] still returns
    that item, the item is not among [node_items()], and the four listeners
    of the node are still connected. *)
Theorem failed_commit_leaves_stale_mapping {Sch} `{!SchemeModel Sch}
    (s : CanvasScene Sch) (node : SchemeNode) (item : NodeItem) (e : exn) :
  editable s = true ->
  __item_for_node s !! node = Some item ->
  item ∈ __node_items s ->
  NoDup (__node_items s) ->
  node_listeners node item ⊆ connections (qt s) ->
  node_rejected s node e ->
  exists s' shown,
    commit_scheme_node node s = (Raise e, s') /\
    item_for_node node s' = (Ok item, s') /\
    node_items s' = (Ok shown, s') /\
    (item ∉ shown) /\
    (GNode item ∉ scene_items (qt s')) /\
    node_listeners node item ⊆ connections (qt s').
Proof.
  intros Hed Hitem Hin Hnd Hconn Hrej.
  destruct (commit_scheme_node_rejected s node item e Hed Hitem Hin Hrej) as [Hrun _].
  destruct (list_remove_elem_of item _ Hin) as [items' Hrm].
  destruct (remove_node_item_spec s item items' Hrm)
    as (s' & Hrm' & Hitems & Hmap & _ & _ & _ & Hcs & Hshown).
  exists s', items'. split; [|split; [|split; [|split; [|split]]]].
  - rewrite Hrun. unfold exec. by rewrite Hrm'.
  - unfold item_for_node. unfold_monad. by rewrite Hmap, Hitem.
  - unfold node_items, gets. by rewrite Hitems.
  - by apply (list_remove_NoDup item (__node_items s)).
  - rewrite Hshown. intros Hg. apply list_elem_of_filter in Hg as [Hne _]. done.
  - by rewrite Hcs.
Qed.

Lemma failed_commit_leaves_stale_mapping_witness :
  exists s' shown,
    commit_scheme_node 11 three_nodes = (Raise (ValueError "node rejected"), s') /\
    item_for_node 11 s' = (Ok 1, s') /\
    node_items s' = (Ok shown, s') /\
    (1 ∉ shown) /\
    (GNode 1 ∉ scene_items (qt s')) /\
    node_listeners 11 1 ⊆ connections (qt s').
Proof.
  apply (failed_commit_leaves_stale_mapping three_nodes 11 1).
  - vm_compute; reflexivity.
  - vm_compute; reflexivity.
  - apply (bool_decide_unpack _). vm_compute. exact I.
  - apply (bool_decide_unpack _). vm_compute. exact I.
  - apply (bool_decide_unpack _). vm_compute. exact I.
  - vm_compute; reflexivity.
Defined.

(** ** Removing a node *)

(** [remove_node_item] never touches the position-change mapper, whatever
    the outcome. *)
Lemma remove_node_item_position_change_mapper {Sch} `{!SchemeModel Sch}
    (s : CanvasScene Sch) (item : NodeItem) :
  position_change_mapper (exec (remove_node_item item) s) = position_change_mapper s.
Proof.
  unfold exec, remove_node_item, hide, removeItem, emit, update_NodeItem.
  unfold_monad. cbn. by destruct (list_remove item (__node_items s)).
Qed.

(** C2 fails on the position-change table: node 7 is added to a new scene
    (its item is item 0) and removed again.  [remove_node] returns, the node
    is unregistered, its four listeners are disconnected and the activation
    and hover tables are cleared, but the position-change table still maps
    the item, and the three connections from the item to the mappers are
    still there. *)
Theorem remove_node_keeps_position_change_mapping :
  (add_node 7 (demo_scene full_scheme)).1 = Ok 0 /\
  (remove_node 7 (run [OpAddNode 7] (demo_scene full_scheme))).1 = Ok tt /\
  __item_for_node (run [OpAddNode 7; OpRemoveNode 7] (demo_scene full_scheme)) !! 7 = None /\
  activated_mapper (run [OpAddNode 7; OpRemoveNode 7] (demo_scene full_scheme)) !! 0 = None /\
  hovered_mapper (run [OpAddNode 7; OpRemoveNode 7] (demo_scene full_scheme)) !! 0 = None /\
  position_change_mapper (run [OpAddNode 7; OpRemoveNode 7] (demo_scene full_scheme)) !! 0
    = Some 0 /\
  connections (qt (run [OpAddNode 7; OpRemoveNode 7] (demo_scene full_scheme)))
    = [ (activated 0, pyMap Activated); (hovered 0, pyMap Hovered);
        (positionChanged 0, pyMap PositionChange) ].
Proof. repeat split; vm_compute; reflexivity. Qed.

(** ** New node items and the registry *)

(** An unguarded lookup: with a registry that is true and a widget whose
    category is a non-empty name, a category the registry does not know
    makes [new_node_item] raise [KeyError]. *)
Lemma new_node_item_unknown_category {Sch} `{!SchemeModel Sch}
    (s : CanvasScene Sch) (reg : WidgetRegistry) (widget_desc : WidgetDescription) :
  registry s = Some reg ->
  registry_bool reg = true ->
  category_bool (category widget_desc) = true ->
  registry_category reg (category widget_desc) = Raise KeyError ->
  (new_node_item widget_desc None s).1 = Raise KeyError.
Proof.
  intros Hreg Hbool Hcat Hlookup.
  unfold new_node_item, new_NodeItem, update_NodeItem. unfold_monad. cbn.
  rewrite Hreg, Hbool, Hcat, Hlookup. reflexivity.
Qed.

(** C3 fails when the registry is set and the widget names a category: the
    widget of node 10 is in category Data, the registry has no such
    category, and both [new_node_item] and [add_node] raise [KeyError].  The
    lookup that is tolerated is the one of a widget without a category
    (node 13). *)
Theorem unknown_category_raises :
  category (description (demo_node 10)) = Some "Data" /\
  registry_category empty_registry (Some "Data") = Raise KeyError /\
  (new_node_item (description (demo_node 10)) None
     (with_registry (Some empty_registry) (demo_scene full_scheme))).1
    = Raise KeyError /\
  (add_node 10 (with_registry (Some empty_registry) (demo_scene full_scheme))).1
    = Raise KeyError /\
  category (description (demo_node 13)) = None /\
  registry_category empty_registry None = Raise KeyError /\
  (add_node 13 (with_registry (Some empty_registry) (demo_scene full_scheme))).1
    = Ok 0.
Proof. repeat split; vm_compute; reflexivity. Qed.

(** ** Adding a node *)

(** [new_node_item] allocates the next item, at the origin, and changes
    nothing else of the scene; it returns that item or raises [KeyError]. *)
Lemma new_node_item_spec {Sch} `{!SchemeModel Sch} (s : CanvasScene Sch)
    (widget_desc : WidgetDescription) (category_desc : option CategoryDescription)
    (r : result NodeItem) (s' : CanvasScene Sch) :
  new_node_item widget_desc category_desc s = (r, s') ->
  (r = Ok (next_item (qt s)) \/ r = Raise KeyError) /\
  exists t, s' = with_qt t s /\
    next_item t = S (next_item (qt s)) /\
    scene_items t = scene_items (qt s) /\
    connections t = connections (qt s) /\
    pos (node_item_obj t (next_item (qt s))) = (0, 0)%Z /\
    forall j, j <> next_item (qt s) -> node_item_obj t j = node_item_obj (qt s) j.
Proof.
  intros Hrun.
  unfold new_node_item, new_NodeItem, update_NodeItem, registry_category in Hrun.
  unfold_monad. cbn in Hrun.
  destruct category_desc as [c|], (registry s) as [reg|]; cbn in Hrun;
    try destruct (registry_bool reg); cbn in Hrun;
    try destruct (category widget_desc) as [k|]; cbn in Hrun;
    try destruct (negb (bool_decide (k = ""))); cbn in Hrun;
    try destruct (categories reg !! k); cbn in Hrun.
  all: inversion Hrun; subst; clear Hrun.
  all: (split; [auto|]).
  all: eexists; (split; [reflexivity|]); cbn.
  all: rewrite ?fn_lookup_insert; repeat split; try reflexivity.
  all: intros j Hj; by rewrite ?fn_lookup_insert_ne.
Qed.

(** [add_node_item] refuses an item that is listed; otherwise it appends
    it, moving it first when it sits at the origin. *)
Lemma add_node_item_spec {Sch} `{!SchemeModel Sch} (s : CanvasScene Sch)
    (item : NodeItem) (r : result NodeItem) (s' : CanvasScene Sch) :
  add_node_item item s = (r, s') ->
  (item ∈ __node_items s /\ r = Raise (ValueError "%r is already in the scene.") /\ s' = s) \/
  ((item ∉ __node_items s) /\ r = Ok item /\
   __node_items s' = __node_items s ++ [item] /\
   __item_for_node s' = __item_for_node s /\
   next_item (qt s') = next_item (qt s) /\
   pos (node_item_obj (qt s') item) =
     (if isNull (pos (node_item_obj (qt s) item)) then
        match last (__node_items s) with
        | Some l => QPointF_add (pos (node_item_obj (qt s) l)) (150, 0)%Z
        | None => (150, 150)%Z
        end
      else pos (node_item_obj (qt s) item))).
Proof.
  intros Hrun.
  unfold add_node_item, NodeItem_pos, setPos, connect, addItem, emit, update_NodeItem in Hrun.
  unfold_monad. cbn in Hrun.
  destruct (bool_decide (item ∈ __node_items s)) eqn:Hin; cbn in Hrun.
  - left. apply bool_decide_eq_true in Hin. injection Hrun as <- <-. auto.
  - right. apply bool_decide_eq_false in Hin. split; [done|].
    destruct (isNull (pos (node_item_obj (qt s) item))); cbn in Hrun;
      [destruct (last (__node_items s)); cbn in Hrun|];
      injection Hrun as <- <-; cbn;
      destruct (bool_decide (GNode item ∈ scene_items (qt s))); cbn;
      rewrite ?fn_lookup_insert; auto.
Qed.

Local Arguments add_node_item : simpl never.
Local Arguments new_node_item : simpl never.
Local Opaque add_node_item new_node_item.

(** [add_node] for a node that is not registered yet, when it returns. *)
Lemma add_node_new_spec {Sch} `{!SchemeModel Sch} (s : CanvasScene Sch)
    (node : SchemeNode) (item : NodeItem) (s' : CanvasScene Sch) :
  __item_for_node s !! node = None ->
  add_node node s = (Ok item, s') ->
  item = next_item (qt s) /\
  (item ∉ __node_items s) /\
  __node_items s' = __node_items s ++ [item] /\
  __item_for_node s' = <[node := item]> (__item_for_node s) /\
  next_item (qt s') = S item /\
  pos (node_item_obj (qt s') item) =
    (let free :=
       match last (__node_items s) with
       | Some l => QPointF_add (pos (node_item_obj (qt s) l)) (150, 0)%Z
       | None => (150, 150)%Z
       end in
     match position (node_obj node) with
     | Some p => if isNull p then free else p
     | None => free
     end).
Proof.
  intros Hnew Hrun. unfold add_node in Hrun. unfold_monad. rewrite Hnew in Hrun.
  destruct (new_node_item _ _ s) as [r0 s0] eqn:Hitem.
  apply new_node_item_spec in Hitem
    as [[->| ->] (t & -> & Hnext & _ & _ & Hpos & Hframe)]; [|done].
  unfold setPos, connect, update_NodeItem in Hrun. unfold_monad.
  assert (Hlast : forall l, last (__node_items s) = Some l -> l ∈ __node_items s).
  { intros l Hl. rewrite last_lookup in Hl. by apply list_elem_of_lookup_2 in Hl. }
  destruct (position (node_obj node)) as [p|]; cbn in Hrun;
    destruct (add_node_item _ _) as [r1 s1] eqn:Hadd;
    apply add_node_item_spec in Hadd
      as [(_ & -> & _)|(Hin & -> & Hitems & Hmap & Hnext' & Hpos')]; try done;
    injection Hrun as <- <-; cbn in *;
    (split; [done|split; [done|split; [done|split; [done|split; [congruence|]]]]]);
    rewrite Hpos'.
  - rewrite fn_lookup_insert. cbn. destruct (isNull p); [|done].
    destruct (last (__node_items s)) as [l|] eqn:Hl; [|done].
    rewrite fn_lookup_insert_ne, Hframe; [done| |]; intros Heq; subst l; by apply Hin, Hlast.
  - rewrite Hpos. cbn. destruct (last (__node_items s)) as [l|] eqn:Hl; [|done].
    rewrite Hframe; [done|]. intros Heq; subst l. by apply Hin, Hlast.
Qed.

Local Transparent add_node_item new_node_item.

Lemma add_node_existing {Sch} `{!SchemeModel Sch} (s : CanvasScene Sch)
    (node : SchemeNode) (item : NodeItem) :
  __item_for_node s !! node = Some item -> add_node node s = (Ok item, s).
Proof. intros Hitem. unfold add_node. unfold_monad. by rewrite Hitem. Qed.

(** C8: [add_node] is idempotent.  When a call returns an item, a second
    call with the same node returns the same item and changes nothing (no
    second insertion, no new connection), and the node-item list holds the
    item exactly once; a node that was already registered before the first
    call is taken to be listed once, as every registered node is until a
    commit fails. *)
Theorem add_node_idempotent {Sch} `{!SchemeModel Sch} (s s1 : CanvasScene Sch)
    (node : SchemeNode) (item : NodeItem) :
  (forall item0, __item_for_node s !! node = Some item0 ->
                 count_occ Nat.eq_dec (__node_items s) item0 = 1) ->
  add_node node s = (Ok item, s1) ->
  add_node node s1 = (Ok item, s1) /\
  count_occ Nat.eq_dec (__node_items s1) item = 1.
Proof.
  intros Hlisted Hrun.
  destruct (__item_for_node s !! node) as [item0|] eqn:Hitem.
  - rewrite (add_node_existing s node item0 Hitem) in Hrun.
    injection Hrun as <- <-. split.
    + by apply add_node_existing.
    + by apply Hlisted.
  - apply add_node_new_spec in Hrun as (_ & Hfresh & Hitems & Hmap & _); [|done].
    split.
    + apply add_node_existing. rewrite Hmap. apply lookup_insert_eq.
    + rewrite Hitems, count_occ_app. cbn.
      destruct (Nat.eq_dec item item); [|done].
      rewrite (proj1 (count_occ_not_In Nat.eq_dec _ _)); [done|].
      by rewrite <- list_elem_of_In.
Qed.

Lemma add_node_idempotent_witness :
  (add_node 7 three_nodes).1 = Ok 3 /\
  add_node 7 (exec (add_node 7) three_nodes) = (Ok 3, exec (add_node 7) three_nodes) /\
  count_occ Nat.eq_dec (__node_items (exec (add_node 7) three_nodes)) 3 = 1.
Proof.
  split; [vm_compute; reflexivity|].
  apply (add_node_idempotent three_nodes (exec (add_node 7) three_nodes) 7 3).
  - intros item0 Hitem0. vm_compute in Hitem0. discriminate.
  - vm_compute; reflexivity.
Defined.

(** C9, as amended: a node that is added is placed at its stored position
    when one is set and is not the origin (0, 0); otherwise, when other node
    items are present, at the position of the last one in the list plus
    (150, 0); otherwise at (150, 150). *)
Theorem add_node_placement {Sch} `{!SchemeModel Sch} (s s' : CanvasScene Sch)
    (node : SchemeNode) (item : NodeItem) :
  __item_for_node s !! node = None ->
  add_node node s = (Ok item, s') ->
  pos (node_item_obj (qt s') item) =
    match position (node_obj node) with
    | Some (x, y) =>
        if negb ((x =? 0)%Z && (y =? 0)%Z) then (x, y)
        else match last (__node_items s) with
             | Some l => QPointF_add (pos (node_item_obj (qt s) l)) (150, 0)%Z
             | None => (150, 150)%Z
             end
    | None =>
        match last (__node_items s) with
        | Some l => QPointF_add (pos (node_item_obj (qt s) l)) (150, 0)%Z
        | None => (150, 150)%Z
        end
    end.
Proof.
  intros Hnew Hrun.
  apply add_node_new_spec in Hrun as (_ & _ & _ & _ & _ & ->); [|done].
  cbn. destruct (position (node_obj node)) as [[x y]|]; [|done].
  unfold isNull. cbn. by destruct ((x =? 0)%Z && (y =? 0)%Z).
Qed.

(** Node 12 is stored at (40, 30) and is placed there. *)
Lemma add_node_placement_witness :
  pos (node_item_obj (qt (exec (add_node 12) (demo_scene full_scheme))) 0) = (40, 30)%Z.
Proof.
  assert (Hnew : __item_for_node (demo_scene full_scheme) !! 12 = None)
    by (vm_compute; reflexivity).
  assert (Hrun : add_node 12 (demo_scene full_scheme)
                 = (Ok 0, exec (add_node 12) (demo_scene full_scheme)))
    by (vm_compute; reflexivity).
  exact (add_node_placement _ _ 12 0 Hnew Hrun).
Defined.

(** C9 as stated fails for a node stored at the origin: node 11 has the
    stored position (0, 0), and its item is placed at (150, 150) in an empty
    scene and at the last item's position plus (150, 0) otherwise. *)
Lemma add_node_stored_origin_is_moved :
  position (demo_node 11) = Some (0, 0)%Z /\
  (add_node 11 (demo_scene full_scheme)).1 = Ok 0 /\
  pos (node_item_obj (qt (exec (add_node 11) (demo_scene full_scheme))) 0)
    = (150, 150)%Z /\
  (add_node 11 (run [OpAddNode 12] (demo_scene full_scheme))).1 = Ok 1 /\
  pos (node_item_obj (qt (run [OpAddNode 12; OpAddNode 11] (demo_scene full_scheme))) 1)
    = (190, 30)%Z.
Proof. repeat split; vm_compute; reflexivity. Qed.

(** ** Calls that leave the node registry alone *)

Section Frames.

Context {Sch : Type} `{!SchemeModel Sch}.

Implicit Types s : CanvasScene Sch.

Lemma frame_refl s : frame s s.
Proof. by split. Qed.

Lemma frame_trans s1 s2 s3 : frame s1 s2 -> frame s2 s3 -> frame s1 s3.
Proof. intros [H1 L1] [H2 L2]. split; [congruence|lia]. Qed.

Lemma framed_ret {A} (a : A) : framed (Sch := Sch) (ret a).
Proof. intros s. apply frame_refl. Qed.

Lemma framed_raise {A} (e : exn) : framed (Sch := Sch) (raise (A := A) e).
Proof. intros s. apply frame_refl. Qed.

Lemma framed_gets {A} (f : CanvasScene Sch -> A) : framed (gets f).
Proof. intros s. apply frame_refl. Qed.

Lemma framed_modify (f : CanvasScene Sch -> CanvasScene Sch) :
  (forall s, frame s (f s)) -> framed (modify f).
Proof. intros Hf s. apply Hf. Qed.

Lemma framed_bind {A B} (m : M Sch A) (k : A -> M Sch B) :
  framed m -> (forall a, framed (k a)) -> framed (bind m k).
Proof.
  intros Hm Hk s. specialize (Hm s). unfold exec, bind in *.
  destruct (m s) as [[a|e] s1]; [|done].
  eapply frame_trans; [exact Hm|]. apply Hk.
Qed.

Lemma framed_try_except {A} (m : M Sch A) (h : exn -> M Sch A) :
  framed m -> (forall e, framed (h e)) -> framed (try_except m h).
Proof.
  intros Hm Hh s. specialize (Hm s). unfold exec, try_except in *.
  destruct (m s) as [[a|e] s1]; [done|].
  eapply frame_trans; [exact Hm|]. apply Hh.
Qed.

Lemma framed_modify_qt (f : Toolkit -> Toolkit) :
  (forall t, next_item t <= next_item (f t)) -> framed (Sch := Sch) (modify_qt f).
Proof. intros Hf. apply framed_modify. intros s. split; [done|]. cbn. apply Hf. Qed.

Lemma framed_dict_get {K V} `{Countable K} (d : gmap K V) (k : K) :
  framed (Sch := Sch) (dict_get d k).
Proof. unfold dict_get. destruct (d !! k); [apply framed_ret|apply framed_raise]. Qed.

End Frames.

Ltac framed_step :=
  first
    [ simple apply framed_ret | simple apply framed_raise | simple apply framed_gets
    | simple apply framed_dict_get
    | simple apply framed_bind; [|intros ?]
    | simple apply framed_try_except; [|intros ?]
    | simple apply framed_modify_qt; intros ?; cbn;
      repeat match goal with |- context [bool_decide ?P] => destruct (bool_decide P) end;
      cbn; lia
    | simple apply framed_modify; intros ?; split; cbn; [reflexivity|lia]
    | match goal with
      | |- framed (match ?x with _ => _ end) => destruct x
      | |- framed (if ?x then _ else _) => destruct x
      end ].

Ltac solve_framed := repeat framed_step.

Section FramedCalls.

Context {Sch : Type} `{!SchemeModel Sch}.

Lemma framed_connect c : framed (Sch := Sch) (connect c).
Proof. unfold connect. solve_framed. Qed.

Lemma framed_disconnect c : framed (Sch := Sch) (disconnect c).
Proof. unfold disconnect. solve_framed. Qed.

Lemma framed_addItem g : framed (Sch := Sch) (addItem g).
Proof. unfold addItem. solve_framed. Qed.

Lemma framed_removeItem g : framed (Sch := Sch) (removeItem g).
Proof. unfold removeItem. solve_framed. Qed.

Lemma framed_emit e : framed (Sch := Sch) (emit e).
Proof. unfold emit. solve_framed. Qed.

Lemma framed_invalidateLink item : framed (Sch := Sch) (invalidateLink item).
Proof. unfold invalidateLink. solve_framed. Qed.

Lemma framed_new_NodeItem : framed (Sch := Sch) new_NodeItem.
Proof. intros s. split; cbn; [done|lia]. Qed.

Lemma framed_new_LinkItem : framed (Sch := Sch) new_LinkItem.
Proof. intros s. split; cbn; [done|lia]. Qed.

Lemma framed_update_NodeItem item f : framed (Sch := Sch) (update_NodeItem item f).
Proof. unfold update_NodeItem. solve_framed. Qed.

Lemma framed_update_LinkItem item f : framed (Sch := Sch) (update_LinkItem item f).
Proof. unfold update_LinkItem. solve_framed. Qed.

End FramedCalls.

Create HintDb framed.

#[global] Hint Resolve framed_connect framed_disconnect framed_addItem
  framed_removeItem framed_emit framed_invalidateLink framed_new_NodeItem
  framed_new_LinkItem framed_update_NodeItem framed_update_LinkItem : framed.

Ltac solve_framed' := repeat first [ solve [auto 1 with framed nocore] | framed_step ].

Section FramedScene.

Context {Sch : Type} `{!SchemeModel Sch}.

Lemma framed_add_node_item item : framed (Sch := Sch) (add_node_item item).
Proof. unfold add_node_item, NodeItem_pos, setPos. solve_framed'. Qed.

Lemma framed_new_node_item widget_desc category_desc :
  framed (Sch := Sch) (new_node_item widget_desc category_desc).
Proof. unfold new_node_item. solve_framed'. Qed.

Lemma framed_remove_node_item item : framed (Sch := Sch) (remove_node_item item).
Proof. unfold remove_node_item, hide. solve_framed'. Qed.

Lemma framed_add_link_item item : framed (Sch := Sch) (add_link_item item).
Proof. unfold add_link_item. solve_framed'. Qed.

Lemma framed_new_link_item a b c d : framed (Sch := Sch) (new_link_item a b c d).
Proof. unfold new_link_item. solve_framed'. Qed.

Lemma framed_remove_link_item item : framed (Sch := Sch) (remove_link_item item).
Proof. unfold remove_link_item, removeLink. solve_framed'. Qed.


Lemma framed_add_link link : framed (Sch := Sch) (add_link link).
Proof.
  unfold add_link.
  repeat first [ simple apply framed_new_link_item | simple apply framed_add_link_item
               | solve [auto 1 with framed nocore] | framed_step ].
Qed.

Lemma framed_remove_link link : framed (Sch := Sch) (remove_link link).
Proof.
  unfold remove_link.
  repeat first [ simple apply framed_remove_link_item
               | solve [auto 1 with framed nocore] | framed_step ].
Qed.

Lemma framed_set_registry reg : framed (Sch := Sch) (set_registry reg).
Proof. unfold set_registry. solve_framed. Qed.

Lemma framed_set_channel_names_visible v :
  framed (Sch := Sch) (set_channel_names_visible v).
Proof.
  unfold set_channel_names_visible.
  apply framed_bind; [solve_framed|intros _].
  apply framed_bind; [solve_framed|intros links].
  induction links as [|link links IH]; cbn; [apply framed_ret|].
  apply framed_bind; [apply framed_update_LinkItem|intros _; exact IH].
Qed.

Lemma framed_Scheme_add_link link : framed (Sch := Sch) (Scheme_add_link link).
Proof.
  intros s. unfold exec, Scheme_add_link.
  destruct (scheme s) as [sch|]; [|apply frame_refl].
  destruct (scheme_add_link sch link) as [sch'|e]; [|apply frame_refl].
  apply (frame_trans _ (with_scheme (Some sch') s)); [by split|].
  exact (framed_add_link link _).
Qed.

Lemma framed_commit_scheme_link link : framed (Sch := Sch) (commit_scheme_link link).
Proof.
  unfold commit_scheme_link.
  repeat first [ simple apply framed_Scheme_add_link | framed_step ].
Qed.

Local Arguments add_node_item : simpl never.
Local Arguments new_node_item : simpl never.
Local Arguments remove_node_item : simpl never.
Local Opaque add_node_item new_node_item remove_node_item.

(** [add_node] either leaves the registry alone or registers the node with
    the item allocated next. *)
Lemma add_node_effect (s : CanvasScene Sch) (node : SchemeNode) :
  frame s (exec (add_node node) s) \/
  (__item_for_node s !! node = None /\
   __item_for_node (exec (add_node node) s)
     = <[node := next_item (qt s)]> (__item_for_node s) /\
   next_item (qt s) < next_item (qt (exec (add_node node) s))).
Proof.
  destruct (__item_for_node s !! node) as [item|] eqn:Hitem.
  { left. unfold exec. rewrite (add_node_existing s node item Hitem). apply frame_refl. }
  unfold exec, add_node. unfold_monad. rewrite Hitem.
  destruct (new_node_item _ _ s) as [r0 s0] eqn:Hnew.
  pose proof (framed_new_node_item (description (node_obj node)) None s) as Hframe.
  unfold exec in Hframe. rewrite Hnew in Hframe. cbn in Hframe.
  apply new_node_item_spec in Hnew as [[->| ->] (t & -> & Hnext & _)]; [|by left].
  right. split; [done|].
  unfold setPos, connect, update_NodeItem. unfold_monad.
  destruct (position (node_obj node)); cbn;
    match goal with
    | |- context [add_node_item ?i ?sx] =>
        destruct (framed_add_node_item i sx) as [Hmap Hle]
    end;
    unfold exec in Hmap, Hle; cbn in Hmap, Hle;
    (split; [by rewrite Hmap|lia]).
Qed.


Lemma exec_bind_Ok {A B} (m : M Sch A) (k : A -> M Sch B) s a s1 :
  m s = (Ok a, s1) -> exec (bind m k) s = exec (k a) s1.
Proof. intros Hm. unfold exec, bind. by rewrite Hm. Qed.

(** A commit never changes the node registry: an accepted node is already
    registered when [node_added] reaches [add_node], and the rollback does
    not unregister. *)
Lemma framed_commit_scheme_node node : framed (Sch := Sch) (commit_scheme_node node).
Proof.
  intros s. unfold exec, commit_scheme_node. unfold_monad.
  destruct (editable s); cbn [negb]; [|apply frame_refl].
  destruct (__item_for_node s !! node) as [item|] eqn:Hitem; [|apply frame_refl].
  unfold Scheme_add_node.
  destruct (scheme s) as [sch|].
  - destruct (scheme_add_node sch node) as [sch'|e].
    + rewrite (add_node_existing (with_scheme (Some sch') s) node item Hitem).
      by split.
    + pose proof (framed_remove_node_item item s) as Hframe. unfold exec in Hframe.
      by destruct (remove_node_item item s) as [[[]|e'] s1].
  - pose proof (framed_remove_node_item item s) as Hframe. unfold exec in Hframe.
    by destruct (remove_node_item item s) as [[[]|e'] s1].
Qed.

(** [remove_node] either fails at once or unregisters the node. *)
Lemma remove_node_effect (s : CanvasScene Sch) (node : SchemeNode) :
  frame s (exec (remove_node node) s) \/
  (__item_for_node (exec (remove_node node) s) = delete node (__item_for_node s) /\
   next_item (qt s) <= next_item (qt (exec (remove_node node) s))).
Proof.
  unfold remove_node.
  rewrite (exec_bind_Ok (gets __item_for_node) _ s (__item_for_node s) s eq_refl).
  destruct (__item_for_node s !! node) as [item|] eqn:Hitem.
  - right.
    rewrite (exec_bind_Ok (dict_get _ _) _ s item s)
      by (unfold dict_get; by rewrite Hitem).
    rewrite (exec_bind_Ok (modify _) _ s tt _ eq_refl).
    match goal with
    | |- context [exec ?m ?sx] => assert (Hm : framed m)
    end.
    { repeat first [ simple apply framed_remove_node_item
                   | solve [auto 1 with framed nocore] | framed_step ]. }
    destruct (Hm (with_item_for_node (delete node (__item_for_node s)) s)) as [Hmap Hle].
    split; [by rewrite Hmap|exact Hle].
  - left. unfold exec, bind, dict_get. rewrite Hitem. apply frame_refl.
Qed.

(** The effect of one call on the node registry. *)
Lemma step_effect (s : CanvasScene Sch) (op : Op) :
  frame s (step s op) \/
  (exists node, op = OpAddNode node /\
     __item_for_node s !! node = None /\
     __item_for_node (step s op) = <[node := next_item (qt s)]> (__item_for_node s) /\
     next_item (qt s) < next_item (qt (step s op))) \/
  (exists node, op = OpRemoveNode node /\
     __item_for_node (step s op) = delete node (__item_for_node s) /\
     next_item (qt s) <= next_item (qt (step s op))).
Proof.
  destruct op; cbn [step].
  - destruct (add_node_effect s node) as [?|?]; [by left|right; left; by exists node].
  - destruct (remove_node_effect s node) as [?|?]; [by left|right; right; by exists node].
  - left. apply framed_add_link.
  - left. apply framed_remove_link.
  - left. apply framed_commit_scheme_node.
  - left. apply framed_commit_scheme_link.
  - left. apply framed_new_node_item.
  - left. apply framed_add_node_item.
  - left. apply framed_remove_node_item.
  - left. apply framed_remove_link_item.
  - left. apply framed_set_registry.
  - left. by split.
  - left. apply framed_set_channel_names_visible.
Qed.

Lemma step_registry_ok (s : CanvasScene Sch) (op : Op) :
  registry_ok s -> registry_ok (step s op).
Proof.
  intros [Hfresh Hinj].
  destruct (step_effect s op)
    as [[Hmap Hle]|[(node & _ & Hnew & Hmap & Hlt)|(node & _ & Hmap & Hle)]];
    unfold registry_ok; rewrite Hmap.
  - split; [|done]. intros n i Hn. specialize (Hfresh n i Hn). lia.
  - split.
    + intros n i Hn. apply lookup_insert_Some in Hn as [[_ <-]|[_ Hn]]; [done|].
      specialize (Hfresh n i Hn). lia.
    + intros n1 n2 i H1 H2.
      apply lookup_insert_Some in H1 as [[<- <-]|[Hne1 H1]];
        apply lookup_insert_Some in H2 as [[<- Heq]|[Hne2 H2]]; try done.
      * specialize (Hfresh n2 _ H2). lia.
      * subst i. specialize (Hfresh n1 _ H1). lia.
      * by apply (Hinj n1 n2 i).
  - split.
    + intros n i Hn. apply lookup_delete_Some in Hn as [_ Hn].
      specialize (Hfresh n i Hn). lia.
    + intros n1 n2 i H1 H2. apply lookup_delete_Some in H1 as [_ H1].
      apply lookup_delete_Some in H2 as [_ H2]. by apply (Hinj n1 n2 i).
Qed.

Lemma step_keeps_item (s : CanvasScene Sch) (op : Op) (node : SchemeNode) (item : NodeItem) :
  __item_for_node s !! node = Some item ->
  op <> OpRemoveNode node ->
  __item_for_node (step s op) !! node = Some item.
Proof.
  intros Hitem Hop.
  destruct (step_effect s op)
    as [[Hmap _]|[(node' & _ & Hnew & Hmap & _)|(node' & -> & Hmap & _)]];
    rewrite Hmap; [done| |].
  - rewrite lookup_insert_ne; [done|]. intros ->. congruence.
  - rewrite lookup_delete_ne; [done|]. intros ->. done.
Qed.

Lemma run_registry_ok (ops : list Op) (s : CanvasScene Sch) :
  registry_ok s -> registry_ok (run ops s).
Proof.
  revert s. induction ops as [|op ops IH]; intros s Hok; [done|].
  cbn. apply IH. by apply step_registry_ok.
Qed.

Lemma run_keeps_item (ops : list Op) (s : CanvasScene Sch)
    (node : SchemeNode) (item : NodeItem) :
  __item_for_node s !! node = Some item ->
  (OpRemoveNode node ∉ ops) ->
  __item_for_node (run ops s) !! node = Some item.
Proof.
  revert s. induction ops as [|op ops IH]; intros s Hitem Hops; [done|].
  cbn. apply IH.
  - apply step_keeps_item; [done|]. intros ->. apply Hops. by left.
  - intros Hin. apply Hops. by right.
Qed.

End FramedScene.

Local Transparent add_node_item new_node_item remove_node_item.

(** ** Round trip between a node and its item *)

Lemma dict_of_pairs_lookup {K V} `{Countable K} (l : list (K * V)) (k : K) (v : V) :
  (k, v) ∈ l ->
  (forall v', (k, v') ∈ l -> v' = v) ->
  dict_of_pairs l !! k = Some v.
Proof.
  unfold dict_of_pairs. induction l as [|[k0 v0] l IH] using rev_ind;
    intros Hin Huniq; [by apply elem_of_nil in Hin|].
  rewrite foldl_snoc. cbn.
  destruct (decide (k0 = k)) as [->|Hne].
  - rewrite lookup_insert_eq. f_equal. apply Huniq, elem_of_app. right. by left.
  - rewrite lookup_insert_ne; [|done]. apply IH.
    + apply elem_of_app in Hin as [Hin|Hin]; [done|].
      apply list_elem_of_singleton in Hin. congruence.
    + intros v' Hv'. apply Huniq, elem_of_app. by left.
Qed.

Lemma node_for_item_of_registered {Sch} `{!SchemeModel Sch} (s : CanvasScene Sch)
    (node : SchemeNode) (item : NodeItem) :
  registry_ok s ->
  __item_for_node s !! node = Some item ->
  node_for_item item s = (Ok node, s).
Proof.
  intros [_ Hinj] Hitem. unfold node_for_item. unfold_monad.
  rewrite (dict_of_pairs_lookup _ item node); [done| |].
  - apply list_elem_of_fmap. exists (node, item). split; [done|].
    by apply elem_of_map_to_list.
  - intros node' Hin. apply list_elem_of_fmap in Hin as ([n i] & [= -> ->] & Hin).
    apply elem_of_map_to_list in Hin. by apply (Hinj n node i).
Qed.

Lemma registry_ok_init {Sch} `{!SchemeModel Sch} (sch : option Sch) :
  registry_ok (with_scheme sch init_scene).
Proof. split; cbn; intros *; by rewrite lookup_empty. Qed.

Lemma add_node_registers {Sch} `{!SchemeModel Sch} (s s' : CanvasScene Sch)
    (node : SchemeNode) (item : NodeItem) :
  add_node node s = (Ok item, s') -> __item_for_node s' !! node = Some item.
Proof.
  intros Hrun. destruct (__item_for_node s !! node) as [item0|] eqn:Hitem.
  - rewrite (add_node_existing s node item0 Hitem) in Hrun. by injection Hrun as <- <-.
  - apply add_node_new_spec in Hrun as (_ & _ & _ & -> & _); [|done].
    apply lookup_insert_eq.
Qed.

(** C7: take a new scene, bound to any scheme or to none, and any history
    of calls on it; add node N with [add_node], which returns an item; let
    any further calls follow, none of them [remove_node N].  Then
    [item_for_node N] returns that item and [node_for_item] of the item
    returns N. *)
Theorem node_item_round_trip {Sch} `{!SchemeModel Sch} (sch : option Sch)
    (before after : list Op) (node : SchemeNode) (item : NodeItem)
    (s : CanvasScene Sch) :
  add_node node (run before (with_scheme sch init_scene)) = (Ok item, s) ->
  (OpRemoveNode node ∉ after) ->
  item_for_node node (run after s) = (Ok item, run after s) /\
  node_for_item item (run after s) = (Ok node, run after s).
Proof.
  intros Hadd Hafter.
  assert (Hok : registry_ok s).
  { replace s with (step (run before (with_scheme sch init_scene)) (OpAddNode node))
      by (cbn; unfold exec; by rewrite Hadd).
    apply step_registry_ok, run_registry_ok, registry_ok_init. }
  pose proof (run_keeps_item after s node item (add_node_registers _ _ _ _ Hadd) Hafter)
    as Hitem.
  split.
  - unfold item_for_node. unfold_monad. by rewrite Hitem.
  - apply node_for_item_of_registered; [|done]. by apply run_registry_ok.
Qed.

(** Node 7 is added after three others and gets item 3; a failed commit
    of it, the removal of another node and a new link follow. *)
Lemma node_item_round_trip_witness :
  item_for_node 7 (run [OpCommitNode 7; OpRemoveNode 11; OpAddLink 10]
                     (exec (add_node 7) three_nodes))
    = (Ok 3, run [OpCommitNode 7; OpRemoveNode 11; OpAddLink 10]
               (exec (add_node 7) three_nodes)) /\
  node_for_item 3 (run [OpCommitNode 7; OpRemoveNode 11; OpAddLink 10]
                     (exec (add_node 7) three_nodes))
    = (Ok 7, run [OpCommitNode 7; OpRemoveNode 11; OpAddLink 10]
               (exec (add_node 7) three_nodes)).
Proof.
  apply (node_item_round_trip (Some full_scheme)
           [OpAddNode 10; OpAddNode 11; OpAddNode 12]
           [OpCommitNode 7; OpRemoveNode 11; OpAddLink 10] 7 3).
  - vm_compute; reflexivity.
  - apply (bool_decide_unpack _). vm_compute. exact I.
Defined.


(** * Further properties *)

(** ** Links *)

(** [new_link_item] allocates the next item and fills it in; nothing else
    of the scene changes. *)
Lemma new_link_item_spec {Sch} `{!SchemeModel Sch} (s : CanvasScene Sch)
    (source_item : NodeItem) (source_channel : string)
    (sink_item : NodeItem) (sink_channel : string) :
  exists t,
    new_link_item source_item source_channel sink_item sink_channel s
      = (Ok (next_item (qt s)), with_qt t s) /\
    next_item t = S (next_item (qt s)) /\
    link_item_obj t (next_item (qt s)) =
      {| sourceItem := Some source_item; sinkItem := Some sink_item;
         toolTip := "<b>" +:+ escape source_channel +:+ "</b>&nbsp;-->&nbsp;<b>"
                    +:+ escape sink_channel +:+ "</b>";
         sourceName := source_channel; sinkName := sink_channel;
         channelNamesVisible := __channel_names_visible s;
         isEnabled := true |} /\
    (forall j, j <> next_item (qt s) -> link_item_obj t j = link_item_obj (qt s) j) /\
    scene_items t = scene_items (qt s) /\
    connections t = connections (qt s) /\
    emitted t = emitted (qt s) /\
    invalidated t = invalidated (qt s) /\
    node_item_obj t = node_item_obj (qt s).
Proof.
  eexists. split.
  - unfold new_link_item, new_LinkItem, update_LinkItem. unfold_monad. reflexivity.
  - cbn. rewrite !fn_lookup_insert. repeat split.
    intros j Hj. by rewrite !fn_lookup_insert_ne.
Qed.

(** [add_link_item] of an item with both ends set: it is shown (once),
    listed and announced, and the anchor layout is told. *)
Lemma add_link_item_spec {Sch} `{!SchemeModel Sch} (s : CanvasScene Sch)
    (item : LinkItem) (source sink : NodeItem) :
  sourceItem (link_item_obj (qt s) item) = Some source ->
  sinkItem (link_item_obj (qt s) item) = Some sink ->
  exists t,
    add_link_item item s
      = (Ok item, with_qt t (with_link_items (__link_items s ++ [item]) s)) /\
    GLink item ∈ scene_items t /\
    (forall g, g ∈ scene_items t <-> g ∈ scene_items (qt s) \/ g = GLink item) /\
    connections t = connections (qt s) /\
    emitted t = emitted (qt s) ++ [link_item_added item] /\
    invalidated t = invalidated (qt s) ++ [GLink item] /\
    next_item t = next_item (qt s) /\
    link_item_obj t = link_item_obj (qt s) /\
    node_item_obj t = node_item_obj (qt s).
Proof.
  intros Hsource Hsink.
  unfold add_link_item, addItem, emit, invalidateLink. unfold_monad. cbn.
  destruct (bool_decide (GLink item ∈ scene_items (qt s))) eqn:Hin; cbn;
    rewrite ?Hin; cbn; rewrite Hsource, Hsink; cbn;
    (eexists; split; [reflexivity|]); cbn.
  - apply bool_decide_eq_true in Hin. repeat split; try done.
    + by left.
    + by intros [?| ->].
  - repeat split; try done.
    + apply elem_of_app. right. by apply list_elem_of_singleton.
    + intros Hg. apply elem_of_app in Hg as [?|Hg]; [by left|].
      right. by apply list_elem_of_singleton in Hg.
    + intros [?| ->]; apply elem_of_app; [by left|].
      right. by apply list_elem_of_singleton.
Qed.

Local Arguments new_link_item : simpl never.
Local Arguments add_link_item : simpl never.
Local Opaque new_link_item add_link_item.

Lemma add_link_new_spec {Sch} `{!SchemeModel Sch} (s : CanvasScene Sch)
    (link : SchemeLink) (source sink : NodeItem) :
  __item_for_link s !! link = None ->
  __item_for_node s !! source_node (link_obj link) = Some source ->
  __item_for_node s !! sink_node (link_obj link) = Some sink ->
  exists s',
    add_link link s = (Ok (next_item (qt s)), s') /\
    __item_for_link s' = <[link := next_item (qt s)]> (__item_for_link s) /\
    __link_items s' = __link_items s ++ [next_item (qt s)] /\
    GLink (next_item (qt s)) ∈ scene_items (qt s') /\
    link_item_obj (qt s') (next_item (qt s)) =
      {| sourceItem := Some source; sinkItem := Some sink;
         toolTip := "<b>" +:+ escape (source_channel (link_obj link))
                    +:+ "</b>&nbsp;-->&nbsp;<b>"
                    +:+ escape (sink_channel (link_obj link)) +:+ "</b>";
         sourceName := source_channel (link_obj link);
         sinkName := sink_channel (link_obj link);
         channelNamesVisible := __channel_names_visible s;
         isEnabled := enabled (link_obj link) |} /\
    connections (qt s') =
      connections (qt s) ++ [(enabled_changed link, setEnabled (next_item (qt s)))] /\
    invalidated (qt s') = invalidated (qt s) ++ [GLink (next_item (qt s))] /\
    emitted (qt s') = emitted (qt s) ++ [link_item_added (next_item (qt s))] /\
    next_item (qt s') = S (next_item (qt s)) /\
    __item_for_node s' = __item_for_node s /\
    __node_items s' = __node_items s /\
    (forall g, g ∈ scene_items (qt s')
               <-> g ∈ scene_items (qt s) \/ g = GLink (next_item (qt s))).
Proof.
  intros Hnew Hsource Hsink.
  destruct (new_link_item_spec s source (source_channel (link_obj link))
              sink (sink_channel (link_obj link)))
    as (t & Hitem & Hnext & Hobj & _ & Hshown & Hconn & Hem & Hinv & _).
  unfold add_link, update_LinkItem, connect. unfold_monad.
  rewrite Hnew. cbn. rewrite Hsource. cbn. rewrite Hsink. cbn. rewrite Hitem. cbn.
  match goal with
  | |- context [add_link_item ?i ?sx] =>
      destruct (add_link_item_spec sx i source sink)
        as (t' & Hadd & Hin' & Hiff & Hconn' & Hem' & Hinv' & Hnext' & Hobj' & _)
  end.
  { cbn. rewrite fn_lookup_insert, Hobj. reflexivity. }
  { cbn. rewrite fn_lookup_insert, Hobj. reflexivity. }
  rewrite Hadd. cbn in *. eexists. split; [reflexivity|]. cbn.
  rewrite Hobj', Hconn', Hinv', Hem', Hnext', fn_lookup_insert, Hobj, Hconn, Hinv, Hem, Hnext.
  rewrite Hshown in Hiff.
  split; [done|split; [done|split; [done|split; [done|split; [done|]]]]].
  split; [done|split; [done|split; [done|split; [done|split; [done|exact Hiff]]]]].
Qed.

(** X1: [add_link] of a link that is not registered, with both endpoint nodes
    registered, returns a new link item: the link is registered with it, it
    is appended to the list and shown; it ties the items of the two
    endpoint nodes, carries the channel names (escaped in the tool tip),
    the scene's channel-name visibility and the link's enabled flag; the
    link's [enabled_changed] is connected to it, the anchor layout is told
    and [link_item_added] is emitted.  The node side is untouched. *)
Theorem add_link_new {Sch} `{!SchemeModel Sch} (s : CanvasScene Sch)
    (link : SchemeLink) (source sink : NodeItem) :
  __item_for_link s !! link = None ->
  __item_for_node s !! source_node (link_obj link) = Some source ->
  __item_for_node s !! sink_node (link_obj link) = Some sink ->
  exists s',
    add_link link s = (Ok (next_item (qt s)), s') /\
    __item_for_link s' = <[link := next_item (qt s)]> (__item_for_link s) /\
    __link_items s' = __link_items s ++ [next_item (qt s)] /\
    GLink (next_item (qt s)) ∈ scene_items (qt s') /\
    link_item_obj (qt s') (next_item (qt s)) =
      {| sourceItem := Some source; sinkItem := Some sink;
         toolTip := "<b>" +:+ escape (source_channel (link_obj link))
                    +:+ "</b>&nbsp;-->&nbsp;<b>"
                    +:+ escape (sink_channel (link_obj link)) +:+ "</b>";
         sourceName := source_channel (link_obj link);
         sinkName := sink_channel (link_obj link);
         channelNamesVisible := __channel_names_visible s;
         isEnabled := enabled (link_obj link) |} /\
    connections (qt s') =
      connections (qt s) ++ [(enabled_changed link, setEnabled (next_item (qt s)))] /\
    invalidated (qt s') = invalidated (qt s) ++ [GLink (next_item (qt s))] /\
    emitted (qt s') = emitted (qt s) ++ [link_item_added (next_item (qt s))] /\
    __item_for_node s' = __item_for_node s /\
    __node_items s' = __node_items s.
Proof.
  intros Hnew Hsource Hsink.
  destruct (add_link_new_spec s link source sink Hnew Hsource Hsink)
    as (s' & H1 & H2 & H3 & H4 & H5 & H6 & H7 & H8 & _ & H10 & H11 & _).
  exists s'. repeat split; assumption.
Qed.

(** Link 11 of [three_nodes] goes from node 11 (item 1) to node 12
    (item 2). *)
Lemma add_link_new_witness :
  exists s',
    add_link 11 three_nodes = (Ok (next_item (qt three_nodes)), s') /\
    __item_for_link s'
      = <[11 := next_item (qt three_nodes)]> (__item_for_link three_nodes) /\
    __link_items s' = __link_items three_nodes ++ [next_item (qt three_nodes)] /\
    GLink (next_item (qt three_nodes)) ∈ scene_items (qt s') /\
    link_item_obj (qt s') (next_item (qt three_nodes)) =
      {| sourceItem := Some 1; sinkItem := Some 2;
         toolTip := "<b>" +:+ escape (source_channel (link_obj 11))
                    +:+ "</b>&nbsp;-->&nbsp;<b>"
                    +:+ escape (sink_channel (link_obj 11)) +:+ "</b>";
         sourceName := source_channel (link_obj 11);
         sinkName := sink_channel (link_obj 11);
         channelNamesVisible := __channel_names_visible three_nodes;
         isEnabled := enabled (link_obj 11) |} /\
    connections (qt s') =
      connections (qt three_nodes)
      ++ [(enabled_changed 11, setEnabled (next_item (qt three_nodes)))] /\
    invalidated (qt s')
      = invalidated (qt three_nodes) ++ [GLink (next_item (qt three_nodes))] /\
    emitted (qt s')
      = emitted (qt three_nodes) ++ [link_item_added (next_item (qt three_nodes))] /\
    __item_for_node s' = __item_for_node three_nodes /\
    __node_items s' = __node_items three_nodes.
Proof.
  apply (add_link_new three_nodes 11 1 2); vm_compute; reflexivity.
Defined.


Local Transparent new_link_item add_link_item.

Lemma add_link_existing {Sch} `{!SchemeModel Sch} (s : CanvasScene Sch)
    (link : SchemeLink) (item : LinkItem) :
  __item_for_link s !! link = Some item -> add_link link s = (Ok item, s).
Proof. intros Hitem. unfold add_link. unfold_monad. by rewrite Hitem. Qed.

(** Whenever [add_link] returns an item, the link is registered with it. *)
Lemma add_link_registers {Sch} `{!SchemeModel Sch} (s s' : CanvasScene Sch)
    (link : SchemeLink) (item : LinkItem) :
  add_link link s = (Ok item, s') -> __item_for_link s' !! link = Some item.
Proof.
  intros Hrun. destruct (__item_for_link s !! link) as [item0|] eqn:Hitem.
  { rewrite (add_link_existing s link item0 Hitem) in Hrun. by injection Hrun as <- <-. }
  destruct (__item_for_node s !! source_node (link_obj link)) as [source|] eqn:Hsource;
    [|by rewrite add_link_missing_endpoint in Hrun; auto].
  destruct (__item_for_node s !! sink_node (link_obj link)) as [sink|] eqn:Hsink;
    [|by rewrite add_link_missing_endpoint in Hrun; auto].
  destruct (add_link_new_spec s link source sink Hitem Hsource Hsink)
    as (s1 & Hrun1 & Hmap & _).
  rewrite Hrun1 in Hrun. injection Hrun as <- <-. rewrite Hmap. apply lookup_insert_eq.
Qed.

(** X2: [add_link] is idempotent: when a call returns an item, a second call
    with the same link returns the same item and changes nothing. *)
Theorem add_link_idempotent {Sch} `{!SchemeModel Sch} (s s1 : CanvasScene Sch)
    (link : SchemeLink) (item : LinkItem) :
  add_link link s = (Ok item, s1) -> add_link link s1 = (Ok item, s1).
Proof. intros Hrun. by apply add_link_existing, (add_link_registers s). Qed.

(** Link 10 is drawn on [three_nodes] (item 3) and then added again. *)
Lemma add_link_idempotent_witness :
  add_link 10 (exec (add_link 10) three_nodes) = (Ok 3, exec (add_link 10) three_nodes).
Proof.
  apply (add_link_idempotent three_nodes (exec (add_link 10) three_nodes) 10 3).
  vm_compute; reflexivity.
Defined.

(** ** Views that a call leaves unchanged *)

Section Unchanged.

Context {Sch : Type} `{!SchemeModel Sch} {V : Type} (view : CanvasScene Sch -> V).

Lemma unchanged_ret {A} (a : A) : unchanged view (ret a).
Proof. by intros s. Qed.

Lemma unchanged_raise {A} (e : exn) : unchanged view (raise (A := A) e).
Proof. by intros s. Qed.

Lemma unchanged_gets {A} (f : CanvasScene Sch -> A) : unchanged view (gets f).
Proof. by intros s. Qed.

Lemma unchanged_modify (f : CanvasScene Sch -> CanvasScene Sch) :
  (forall s, view (f s) = view s) -> unchanged view (modify f).
Proof. intros Hf s. apply Hf. Qed.

Lemma unchanged_bind {A B} (m : M Sch A) (k : A -> M Sch B) :
  unchanged view m -> (forall a, unchanged view (k a)) -> unchanged view (bind m k).
Proof.
  intros Hm Hk s. specialize (Hm s). unfold unchanged, exec, bind in *.
  destruct (m s) as [[a|e] s1]; [|done]. by rewrite Hk.
Qed.

Lemma unchanged_try_except {A} (m : M Sch A) (h : exn -> M Sch A) :
  unchanged view m -> (forall e, unchanged view (h e)) -> unchanged view (try_except m h).
Proof.
  intros Hm Hh s. specialize (Hm s). unfold unchanged, exec, try_except in *.
  destruct (m s) as [[a|e] s1]; [done|]. by rewrite Hh.
Qed.

Lemma unchanged_dict_get {K W} `{Countable K} (d : gmap K W) (k : K) :
  unchanged view (dict_get (Sch := Sch) d k).
Proof. unfold dict_get. destruct (d !! k); [apply unchanged_ret|apply unchanged_raise]. Qed.

(** Steps of a reflexive relation compose with calls that leave the view
    alone. *)
Lemma steps_unchanged {A} (R : V -> V -> Prop) (m : M Sch A) :
  (forall v, R v v) -> unchanged view m -> steps view R m.
Proof. intros Hrefl Hm s. rewrite Hm. apply Hrefl. Qed.

Lemma steps_bind {A B} (R : V -> V -> Prop) (m : M Sch A) (k : A -> M Sch B) :
  (forall v, R v v) -> unchanged view m -> (forall a, steps view R (k a)) ->
  steps view R (bind m k).
Proof.
  intros Hrefl Hm Hk s. specialize (Hm s). unfold exec, bind in *.
  destruct (m s) as [[a|e] s1]; simpl snd in *.
  - rewrite <- Hm. exact (Hk a s1).
  - rewrite Hm. apply Hrefl.
Qed.

Lemma steps_then {A B} (R : V -> V -> Prop) (m : M Sch A) (k : A -> M Sch B) :
  steps view R m -> (forall a, unchanged view (k a)) -> steps view R (bind m k).
Proof.
  intros Hm Hk s. specialize (Hm s). unfold exec, bind in *.
  destruct (m s) as [[a|e] s1]; simpl snd in *; [|done].
  specialize (Hk a s1). unfold exec in Hk. by rewrite Hk.
Qed.

End Unchanged.

(** One step of a proof that a view is unchanged: follow the structure of
    the call, and at a state update compare the view before and after. *)
Ltac unchanged_step :=
  first
    [ simple apply unchanged_ret | simple apply unchanged_raise
    | simple apply unchanged_gets | simple apply unchanged_dict_get
    | simple apply unchanged_bind; [|intros ?]
    | simple apply unchanged_try_except; [|intros ?]
    | simple apply unchanged_modify; intros ?; cbn;
      repeat match goal with |- context [bool_decide ?P] => destruct (bool_decide P) end;
      cbn; reflexivity
    | match goal with
      | |- unchanged _ (match ?x with _ => _ end) => destruct x
      | |- unchanged _ (if ?x then _ else _) => destruct x
      end ].

Ltac unfold_toolkit :=
  unfold setPos, hide, removeLink, NodeItem_pos;
  unfold connect, disconnect, addItem, removeItem, emit, invalidateLink,
    update_NodeItem, update_LinkItem;
  unfold modify_qt.

Ltac solve_unchanged := repeat first [ unchanged_step | progress unfold_toolkit ].

(** *** The link side of the scene *)

Section LinkSide.

Context {Sch : Type} `{!SchemeModel Sch}.

(** The node calls never touch the link registry. *)
Lemma unchanged_links_new_NodeItem :
  unchanged (Sch := Sch) __item_for_link new_NodeItem.
Proof. by intros s. Qed.

Lemma unchanged_links_new_node_item widget_desc category_desc :
  unchanged (Sch := Sch) __item_for_link (new_node_item widget_desc category_desc).
Proof.
  unfold new_node_item.
  repeat first [ simple apply unchanged_links_new_NodeItem | unchanged_step
               | progress unfold_toolkit ].
Qed.

Lemma unchanged_links_add_node_item item :
  unchanged (Sch := Sch) __item_for_link (add_node_item item).
Proof. unfold add_node_item. solve_unchanged. Qed.

Lemma unchanged_links_remove_node_item item :
  unchanged (Sch := Sch) __item_for_link (remove_node_item item).
Proof. unfold remove_node_item. solve_unchanged. Qed.

Lemma unchanged_links_add_node node :
  unchanged (Sch := Sch) __item_for_link (add_node node).
Proof.
  unfold add_node.
  repeat first [ simple apply unchanged_links_new_node_item
               | simple apply unchanged_links_add_node_item
               | unchanged_step | progress unfold_toolkit ].
Qed.

Lemma unchanged_links_remove_node node :
  unchanged (Sch := Sch) __item_for_link (remove_node node).
Proof.
  unfold remove_node.
  repeat first [ simple apply unchanged_links_remove_node_item
               | unchanged_step | progress unfold_toolkit ].
Qed.

Lemma unchanged_links_remove_link_item item :
  unchanged (Sch := Sch) __item_for_link (remove_link_item item).
Proof. unfold remove_link_item. solve_unchanged. Qed.

Lemma unchanged_links_set_channel_names_visible v :
  unchanged (Sch := Sch) __item_for_link (set_channel_names_visible v).
Proof.
  unfold set_channel_names_visible.
  apply unchanged_bind; [solve_unchanged|intros _].
  apply unchanged_bind; [solve_unchanged|intros links].
  induction links as [|link links IH]; cbn; [apply unchanged_ret|].
  apply unchanged_bind; [solve_unchanged|intros _; exact IH].
Qed.

Lemma unchanged_links_commit_scheme_node node :
  unchanged (Sch := Sch) __item_for_link (commit_scheme_node node).
Proof.
  unfold commit_scheme_node.
  repeat first [ simple apply unchanged_links_remove_node_item | unchanged_step ].
  intros s. unfold exec, Scheme_add_node.
  destruct (scheme s) as [sch|]; [|done].
  destruct (scheme_add_node sch node) as [sch'|e]; [|done].
  exact (unchanged_links_add_node node (with_scheme (Some sch') s)).
Qed.

End LinkSide.


Section LinkRegistry.

Context {Sch : Type} `{!SchemeModel Sch}.

Lemma step_next_item (s : CanvasScene Sch) (op : Op) :
  next_item (qt s) <= next_item (qt (step s op)).
Proof.
  destruct (step_effect s op) as [[_ ?]|[(? & _ & _ & _ & ?)|(? & _ & _ & ?)]]; lia.
Qed.

Lemma add_link_effect (s : CanvasScene Sch) (link : SchemeLink) :
  __item_for_link (exec (add_link link) s) = __item_for_link s \/
  (__item_for_link s !! link = None /\
   __item_for_link (exec (add_link link) s)
     = <[link := next_item (qt s)]> (__item_for_link s) /\
   next_item (qt s) < next_item (qt (exec (add_link link) s))).
Proof.
  unfold exec. destruct (__item_for_link s !! link) as [item|] eqn:Hitem.
  { left. by rewrite (add_link_existing s link item Hitem). }
  destruct (__item_for_node s !! source_node (link_obj link)) as [source|] eqn:Hsource;
    [|left; by rewrite add_link_missing_endpoint; auto].
  destruct (__item_for_node s !! sink_node (link_obj link)) as [sink|] eqn:Hsink;
    [|left; by rewrite add_link_missing_endpoint; auto].
  destruct (add_link_new_spec s link source sink Hitem Hsource Hsink)
    as (s1 & -> & Hmap & _ & _ & _ & _ & _ & _ & Hnext & _).
  right. cbn. rewrite Hmap, Hnext. split; [done|]. split; [done|lia].
Qed.

Lemma remove_link_effect (s : CanvasScene Sch) (link : SchemeLink) :
  __item_for_link (exec (remove_link link) s) = __item_for_link s \/
  __item_for_link (exec (remove_link link) s) = delete link (__item_for_link s).
Proof.
  unfold remove_link.
  rewrite (exec_bind_Ok (gets __item_for_link) _ s (__item_for_link s) s eq_refl).
  destruct (__item_for_link s !! link) as [item|] eqn:Hitem.
  - right.
    rewrite (exec_bind_Ok (dict_get _ _) _ s item s)
      by (unfold dict_get; by rewrite Hitem).
    rewrite (exec_bind_Ok (modify _) _ s tt _ eq_refl).
    match goal with
    | |- context [exec ?m ?sx] => assert (Hm : unchanged __item_for_link m)
    end.
    { repeat first [ simple apply unchanged_links_remove_link_item
                   | unchanged_step | progress unfold_toolkit ]. }
    by rewrite Hm.
  - left. unfold exec, bind, dict_get. by rewrite Hitem.
Qed.

Lemma commit_scheme_link_keeps_links (s : CanvasScene Sch) (link : SchemeLink) :
  __item_for_link (exec (commit_scheme_link link) s) = __item_for_link s.
Proof.
  unfold exec, commit_scheme_link. unfold_monad.
  destruct (editable s); cbn [negb]; [|done].
  destruct (__item_for_link s !! link) as [item|] eqn:Hitem; [|done].
  unfold Scheme_add_link. destruct (scheme s) as [sch|]; [|done].
  destruct (scheme_add_link sch link) as [sch'|e]; [|done].
  by rewrite (add_link_existing (with_scheme (Some sch') s) link item Hitem).
Qed.

(** The effect of one call on the link registry. *)
Lemma step_link_effect (s : CanvasScene Sch) (op : Op) :
  __item_for_link (step s op) = __item_for_link s \/
  (exists link, op = OpAddLink link /\
     __item_for_link s !! link = None /\
     __item_for_link (step s op) = <[link := next_item (qt s)]> (__item_for_link s) /\
     next_item (qt s) < next_item (qt (step s op))) \/
  (exists link, op = OpRemoveLink link /\
     __item_for_link (step s op) = delete link (__item_for_link s)).
Proof.
  destruct op; cbn [step].
  - left. apply unchanged_links_add_node.
  - left. apply unchanged_links_remove_node.
  - destruct (add_link_effect s link) as [?|?]; [by left|right; left; by exists link].
  - destruct (remove_link_effect s link) as [?|?]; [by left|right; right; by exists link].
  - left. apply unchanged_links_commit_scheme_node.
  - left. apply commit_scheme_link_keeps_links.
  - left. apply unchanged_links_new_node_item.
  - left. apply unchanged_links_add_node_item.
  - left. apply unchanged_links_remove_node_item.
  - left. apply unchanged_links_remove_link_item.
  - by left.
  - by left.
  - left. apply unchanged_links_set_channel_names_visible.
Qed.

Lemma step_link_registry_ok (s : CanvasScene Sch) (op : Op) :
  link_registry_ok s -> link_registry_ok (step s op).
Proof.
  intros [Hfresh Hinj]. pose proof (step_next_item s op) as Hle.
  destruct (step_link_effect s op)
    as [Hmap|[(link & _ & Hnew & Hmap & Hlt)|(link & _ & Hmap)]];
    unfold link_registry_ok; rewrite Hmap.
  - split; [|done]. intros l i Hl. specialize (Hfresh l i Hl). lia.
  - split.
    + intros l i Hl. apply lookup_insert_Some in Hl as [[_ <-]|[_ Hl]]; [done|].
      specialize (Hfresh l i Hl). lia.
    + intros l1 l2 i H1 H2.
      apply lookup_insert_Some in H1 as [[<- <-]|[Hne1 H1]];
        apply lookup_insert_Some in H2 as [[<- Heq]|[Hne2 H2]]; try done.
      * specialize (Hfresh l2 _ H2). lia.
      * subst i. specialize (Hfresh l1 _ H1). lia.
      * by apply (Hinj l1 l2 i).
  - split.
    + intros l i Hl. apply lookup_delete_Some in Hl as [_ Hl].
      specialize (Hfresh l i Hl). lia.
    + intros l1 l2 i H1 H2. apply lookup_delete_Some in H1 as [_ H1].
      apply lookup_delete_Some in H2 as [_ H2]. by apply (Hinj l1 l2 i).
Qed.

Lemma step_keeps_link_item (s : CanvasScene Sch) (op : Op)
    (link : SchemeLink) (item : LinkItem) :
  __item_for_link s !! link = Some item ->
  op <> OpRemoveLink link ->
  __item_for_link (step s op) !! link = Some item.
Proof.
  intros Hitem Hop.
  destruct (step_link_effect s op)
    as [Hmap|[(link' & _ & Hnew & Hmap & _)|(link' & -> & Hmap)]];
    rewrite Hmap; [done| |].
  - rewrite lookup_insert_ne; [done|]. intros ->. congruence.
  - rewrite lookup_delete_ne; [done|]. intros ->. done.
Qed.

Lemma run_link_registry_ok (ops : list Op) (s : CanvasScene Sch) :
  link_registry_ok s -> link_registry_ok (run ops s).
Proof.
  revert s. induction ops as [|op ops IH]; intros s Hok; [done|].
  cbn. apply IH. by apply step_link_registry_ok.
Qed.

Lemma run_keeps_link_item (ops : list Op) (s : CanvasScene Sch)
    (link : SchemeLink) (item : LinkItem) :
  __item_for_link s !! link = Some item ->
  (OpRemoveLink link ∉ ops) ->
  __item_for_link (run ops s) !! link = Some item.
Proof.
  revert s. induction ops as [|op ops IH]; intros s Hitem Hops; [done|].
  cbn. apply IH.
  - apply step_keeps_link_item; [done|]. intros ->. apply Hops. by left.
  - intros Hin. apply Hops. by right.
Qed.

Lemma link_for_item_of_registered (s : CanvasScene Sch)
    (link : SchemeLink) (item : LinkItem) :
  link_registry_ok s ->
  __item_for_link s !! link = Some item ->
  link_for_item item s = (Ok link, s).
Proof.
  intros [_ Hinj] Hitem. unfold link_for_item. unfold_monad.
  rewrite (dict_of_pairs_lookup _ item link); [done| |].
  - apply list_elem_of_fmap. exists (link, item). split; [done|].
    by apply elem_of_map_to_list.
  - intros link' Hin. apply list_elem_of_fmap in Hin as ([l i] & [= -> ->] & Hin).
    apply elem_of_map_to_list in Hin. by apply (Hinj l link i).
Qed.

Lemma link_registry_ok_init (sch : option Sch) :
  link_registry_ok (with_scheme sch init_scene).
Proof. split; cbn; intros *; by rewrite lookup_empty. Qed.

End LinkRegistry.

(** X3: links round trip like nodes: on a scene reached from a new one by any
    history, a link that [add_link] returned an item for, and that no later
    call removed with [remove_link], is mapped to that item by
    [item_for_link], and [link_for_item] maps the item back to the link. *)
Theorem link_item_round_trip {Sch} `{!SchemeModel Sch} (sch : option Sch)
    (before after : list Op) (link : SchemeLink) (item : LinkItem)
    (s : CanvasScene Sch) :
  add_link link (run before (with_scheme sch init_scene)) = (Ok item, s) ->
  (OpRemoveLink link ∉ after) ->
  item_for_link link (run after s) = (Ok item, run after s) /\
  link_for_item item (run after s) = (Ok link, run after s).
Proof.
  intros Hadd Hafter.
  assert (Hok : link_registry_ok s).
  { replace s with (step (run before (with_scheme sch init_scene)) (OpAddLink link))
      by (cbn; unfold exec; by rewrite Hadd).
    apply step_link_registry_ok, run_link_registry_ok, link_registry_ok_init. }
  pose proof (run_keeps_link_item after s link item (add_link_registers _ _ _ _ Hadd) Hafter)
    as Hitem.
  split.
  - unfold item_for_link. unfold_monad. by rewrite Hitem.
  - apply link_for_item_of_registered; [|done]. by apply run_link_registry_ok.
Qed.

(** Link 10 is drawn between nodes 10 and 11 and gets item 3; then link 11
    is drawn, link 11 is removed again, node 10 is removed and a commit of
    link 10 is rejected. *)
Lemma link_item_round_trip_witness :
  item_for_link 10
    (run [OpAddLink 11; OpRemoveLink 11; OpRemoveNode 10; OpCommitLink 10]
       (exec (add_link 10) three_nodes))
    = (Ok 3, run [OpAddLink 11; OpRemoveLink 11; OpRemoveNode 10; OpCommitLink 10]
               (exec (add_link 10) three_nodes)) /\
  link_for_item 3
    (run [OpAddLink 11; OpRemoveLink 11; OpRemoveNode 10; OpCommitLink 10]
       (exec (add_link 10) three_nodes))
    = (Ok 10, run [OpAddLink 11; OpRemoveLink 11; OpRemoveNode 10; OpCommitLink 10]
                (exec (add_link 10) three_nodes)).
Proof.
  apply (link_item_round_trip (Some full_scheme)
           [OpAddNode 10; OpAddNode 11; OpAddNode 12]
           [OpAddLink 11; OpRemoveLink 11; OpRemoveNode 10; OpCommitLink 10] 10 3).
  - vm_compute; reflexivity.
  - apply (bool_decide_unpack _). vm_compute. exact I.
Defined.


(** ** Reverse lookups on any scene *)

Lemma dict_of_pairs_snoc {K V} `{Countable K} (l : list (K * V)) (k : K) (v : V) :
  dict_of_pairs (l ++ [(k, v)]) = <[k := v]> (dict_of_pairs l).
Proof. unfold dict_of_pairs. by rewrite foldl_snoc. Qed.

Lemma dict_of_pairs_Some {K V} `{Countable K} (l : list (K * V)) (k : K) (v : V) :
  dict_of_pairs l !! k = Some v -> (k, v) ∈ l.
Proof.
  induction l as [|[k0 v0] l IH] using rev_ind;
    [unfold dict_of_pairs; cbn; by rewrite lookup_empty|].
  rewrite dict_of_pairs_snoc. intros Hlook. apply elem_of_app.
  apply lookup_insert_Some in Hlook as [[-> ->]|[_ Hlook]].
  - right. by apply list_elem_of_singleton.
  - left. by apply IH.
Qed.

Lemma dict_of_pairs_None {K V} `{Countable K} (l : list (K * V)) (k : K) :
  dict_of_pairs l !! k = None -> forall v, (k, v) ∉ l.
Proof.
  induction l as [|[k0 v0] l IH] using rev_ind; [intros _ v Hin; by apply elem_of_nil in Hin|].
  rewrite dict_of_pairs_snoc. intros Hlook v Hin.
  apply lookup_insert_None in Hlook as [Hlook Hne].
  apply elem_of_app in Hin as [Hin|Hin]; [by apply (IH Hlook v)|].
  apply list_elem_of_singleton in Hin. congruence.
Qed.

(** X4: [node_for_item] never changes the scene; what it returns is a node
    that is registered with the item, and it raises [KeyError] exactly when
    no node is registered with the item.  This holds on every scene, also
    where two nodes share an item. *)
Theorem reverse_lookup_sound {Sch} `{!SchemeModel Sch} (s : CanvasScene Sch)
    (item : nat) :
  (exists node, node_for_item item s = (Ok node, s) /\
                __item_for_node s !! node = Some item) \/
  (node_for_item item s = (Raise KeyError, s) /\
   forall node, __item_for_node s !! node <> Some item).
Proof.
  unfold node_for_item. unfold_monad.
  destruct (dict_of_pairs _ !! item) as [node|] eqn:Hlook.
  - left. exists node. split; [done|].
    apply dict_of_pairs_Some, list_elem_of_fmap in Hlook as ([n i] & [= -> ->] & Hin).
    by apply elem_of_map_to_list in Hin.
  - right. split; [done|]. intros node Hnode.
    apply (dict_of_pairs_None _ _ Hlook node), list_elem_of_fmap.
    exists (node, item). split; [done|]. by apply elem_of_map_to_list.
Qed.

(** X5: [link_for_item] never changes the scene; what it returns is a link
    that is registered with the item, and it raises [KeyError] exactly when
    no link is registered with the item. *)
Theorem link_reverse_lookup_sound {Sch} `{!SchemeModel Sch} (s : CanvasScene Sch)
    (item : nat) :
  (exists link, link_for_item item s = (Ok link, s) /\
                __item_for_link s !! link = Some item) \/
  (link_for_item item s = (Raise KeyError, s) /\
   forall link, __item_for_link s !! link <> Some item).
Proof.
  unfold link_for_item. unfold_monad.
  destruct (dict_of_pairs _ !! item) as [link|] eqn:Hlook.
  - left. exists link. split; [done|].
    apply dict_of_pairs_Some, list_elem_of_fmap in Hlook as ([l i] & [= -> ->] & Hin).
    by apply elem_of_map_to_list in Hin.
  - right. split; [done|]. intros link Hlink.
    apply (dict_of_pairs_None _ _ Hlook link), list_elem_of_fmap.
    exists (link, item). split; [done|]. by apply elem_of_map_to_list.
Qed.


(** ** Removing what was added *)

Lemma bind_Ok {Sch} `{!SchemeModel Sch} {A B} (m : M Sch A) (k : A -> M Sch B)
    (s s1 : CanvasScene Sch) (a : A) :
  m s = (Ok a, s1) -> bind m k s = k a s1.
Proof. intros Hm. unfold bind. by rewrite Hm. Qed.

Lemma bind_Raise {Sch} `{!SchemeModel Sch} {A B} (m : M Sch A) (k : A -> M Sch B)
    (s s1 : CanvasScene Sch) (e : exn) :
  m s = (Raise e, s1) -> bind m k s = (Raise e, s1).
Proof. intros Hm. unfold bind. by rewrite Hm. Qed.

Lemma list_remove_Permutation {A} `{EqDecision A} (x : A) (l l' : list A) :
  list_remove x l = Some l' -> l ≡ₚ x :: l'.
Proof.
  revert l'. induction l as [|y l IH]; intros l' Hrm; [done|].
  simpl in Hrm. destruct (decide (x = y)) as [->|Hne]; [by injection Hrm as <-|].
  destruct (list_remove x l) as [l0|]; [|done].
  injection Hrm as <-. rewrite (IH l0 eq_refl). apply Permutation_swap.
Qed.

Lemma list_remove_other {A} `{EqDecision A} (x y : A) (l l' : list A) :
  list_remove x l = Some l' -> y <> x -> y ∈ l -> y ∈ l'.
Proof.
  intros Hrm Hne Hin. apply list_remove_Permutation in Hrm.
  rewrite Hrm in Hin. apply elem_of_cons in Hin as [?|?]; done.
Qed.

Lemma list_remove_snoc {A} `{EqDecision A} (x : A) (l : list A) :
  x ∉ l -> list_remove x (l ++ [x]) = Some l.
Proof.
  induction l as [|y l IH]; intros Hin; cbn.
  - by destruct (decide (x = x)).
  - destruct (decide (x = y)) as [->|Hne]; [exfalso; apply Hin; by left|].
    rewrite IH; [done|]. intros ?. apply Hin. by right.
Qed.

(** [disconnect] of a connection that is there. *)
Lemma disconnect_spec {Sch} `{!SchemeModel Sch} (s : CanvasScene Sch) (c : Connection) :
  c ∈ connections (qt s) ->
  exists cs', list_remove c (connections (qt s)) = Some cs' /\
    disconnect c s = (Ok tt, with_qt (with_connections cs' (qt s)) s).
Proof.
  intros Hin. destruct (list_remove_elem_of c _ Hin) as [cs' Hrm].
  exists cs'. split; [done|]. unfold disconnect. unfold_monad. by rewrite Hrm.
Qed.

(** [disconnect] of a connection that is not there. *)
Lemma disconnect_missing {Sch} `{!SchemeModel Sch} (s : CanvasScene Sch) (c : Connection) :
  c ∉ connections (qt s) -> disconnect c s = (Raise TypeError, s).
Proof.
  intros Hin. unfold disconnect. unfold_monad.
  destruct (list_remove c (connections (qt s))) as [cs'|] eqn:Hrm; [|done].
  exfalso. apply Hin. apply list_remove_Permutation in Hrm. rewrite Hrm. by left.
Qed.

Local Arguments remove_node_item : simpl never.
Local Opaque remove_node_item.

(** [remove_node] of a registered node whose four listeners are connected
    gets through its four [disconnect] calls: what is left to do is
    [remove_node_item], on the scene without the node's entry and without
    the listeners. *)
Lemma remove_node_disconnects {Sch} `{!SchemeModel Sch} (s : CanvasScene Sch)
    (node : SchemeNode) (item : NodeItem) :
  __item_for_node s !! node = Some item ->
  node_listeners node item ⊆ connections (qt s) ->
  exists cs',
    connections (qt s) ≡ₚ node_listeners node item ++ cs' /\
    remove_node node s
    = remove_node_item item
        (with_qt (with_connections cs' (qt s))
           (with_item_for_node (delete node (__item_for_node s)) s)).
Proof.
  intros Hitem Hconn.
  assert (H1 : (position_changed node, on_node_pos_changed) ∈ connections (qt s))
    by (apply Hconn; set_solver).
  assert (H2 : (title_changed node, setTitle item) ∈ connections (qt s))
    by (apply Hconn; set_solver).
  assert (H3 : (progress_changed node, setProgress item) ∈ connections (qt s))
    by (apply Hconn; set_solver).
  assert (H4 : (processing_state_changed node, setProcessingState item)
               ∈ connections (qt s)) by (apply Hconn; set_solver).
  unfold remove_node.
  rewrite (bind_Ok (gets __item_for_node) _ s s (__item_for_node s) eq_refl).
  rewrite (bind_Ok (dict_get _ _) _ s s item) by (unfold dict_get; by rewrite Hitem).
  rewrite (bind_Ok (modify _) _ s _ tt eq_refl).
  set (s0 := with_item_for_node (delete node (__item_for_node s)) s).
  destruct (disconnect_spec s0 (position_changed node, on_node_pos_changed) H1)
    as (cs1 & Hrm1 & Hd1).
  rewrite (bind_Ok _ _ _ _ _ Hd1). set (s1 := with_qt _ s0).
  assert (H2a : (title_changed node, setTitle item) ∈ connections (qt s1))
    by (by apply (list_remove_other _ _ _ _ Hrm1)).
  assert (H3a : (progress_changed node, setProgress item) ∈ connections (qt s1))
    by (by apply (list_remove_other _ _ _ _ Hrm1)).
  assert (H4a : (processing_state_changed node, setProcessingState item)
                ∈ connections (qt s1)) by (by apply (list_remove_other _ _ _ _ Hrm1)).
  destruct (disconnect_spec s1 _ H2a) as (cs2 & Hrm2 & Hd2).
  rewrite (bind_Ok _ _ _ _ _ Hd2). set (s2 := with_qt _ s1).
  assert (H3b : (progress_changed node, setProgress item) ∈ connections (qt s2))
    by (by apply (list_remove_other _ _ _ _ Hrm2)).
  assert (H4b : (processing_state_changed node, setProcessingState item)
                ∈ connections (qt s2)) by (by apply (list_remove_other _ _ _ _ Hrm2)).
  destruct (disconnect_spec s2 _ H3b) as (cs3 & Hrm3 & Hd3).
  rewrite (bind_Ok _ _ _ _ _ Hd3). set (s3 := with_qt _ s2).
  assert (H4c : (processing_state_changed node, setProcessingState item)
                ∈ connections (qt s3)) by (by apply (list_remove_other _ _ _ _ Hrm3)).
  destruct (disconnect_spec s3 _ H4c) as (cs4 & Hrm4 & Hd4).
  rewrite (bind_Ok _ _ _ _ _ Hd4).
  exists cs4. split; [|reflexivity].
  apply list_remove_Permutation in Hrm1, Hrm2, Hrm3, Hrm4.
  cbn in *. by rewrite Hrm1, Hrm2, Hrm3, Hrm4.
Qed.

(** What [remove_node] does for a node that is registered, with its item
    listed and its four listeners connected. *)
Lemma remove_node_spec {Sch} `{!SchemeModel Sch} (s : CanvasScene Sch)
    (node : SchemeNode) (item : NodeItem) :
  __item_for_node s !! node = Some item ->
  item ∈ __node_items s ->
  node_listeners node item ⊆ connections (qt s) ->
  exists s',
    remove_node node s = (Ok tt, s') /\
    item_for_node node s' = (Raise KeyError, s') /\
    __item_for_node s' = delete node (__item_for_node s) /\
    list_remove item (__node_items s) = Some (__node_items s') /\
    scene_items (qt s') = filter (fun g => g <> GNode item) (scene_items (qt s)) /\
    activated_mapper s' = delete item (activated_mapper s) /\
    hovered_mapper s' = delete item (hovered_mapper s) /\
    position_change_mapper s' = position_change_mapper s /\
    connections (qt s) ≡ₚ node_listeners node item ++ connections (qt s').
Proof.
  intros Hitem Hin Hconn.
  destruct (remove_node_disconnects s node item Hitem Hconn) as (cs' & Hperm & ->).
  destruct (list_remove_elem_of item _ Hin) as [items' Hrm].
  destruct (remove_node_item_spec
              (with_qt (with_connections cs' (qt s))
                 (with_item_for_node (delete node (__item_for_node s)) s))
              item items' Hrm)
    as (s' & Hrun & Hitems & Hmap & Hact & Hhov & Hpos & Hcs & Hshown).
  exists s'. split; [done|]. cbn in *.
  split; [|split; [done|split; [by rewrite Hitems|split; [|split; [|split; [|split]]]]]].
  - unfold item_for_node. unfold_monad. by rewrite Hmap, lookup_delete_eq.
  - done.
  - done.
  - done.
  - done.
  - by rewrite Hcs.
Qed.

(** X6: [remove_node] of a node that is registered, with its item listed and
    its four listeners connected: the call returns, the node is no longer
    registered (so [item_for_node] raises [KeyError]), one occurrence of
    the item leaves the list, the item is taken out of the items shown and
    out of the activation and hover tables, and exactly the four listeners
    are dropped.  The position-change table is left as it was. *)
Theorem remove_node_registered {Sch} `{!SchemeModel Sch} (s : CanvasScene Sch)
    (node : SchemeNode) (item : NodeItem) :
  __item_for_node s !! node = Some item ->
  item ∈ __node_items s ->
  node_listeners node item ⊆ connections (qt s) ->
  exists s',
    remove_node node s = (Ok tt, s') /\
    item_for_node node s' = (Raise KeyError, s') /\
    __item_for_node s' = delete node (__item_for_node s) /\
    list_remove item (__node_items s) = Some (__node_items s') /\
    scene_items (qt s') = filter (fun g => g <> GNode item) (scene_items (qt s)) /\
    activated_mapper s' = delete item (activated_mapper s) /\
    hovered_mapper s' = delete item (hovered_mapper s) /\
    position_change_mapper s' = position_change_mapper s /\
    connections (qt s) ≡ₚ node_listeners node item ++ connections (qt s').
Proof. exact (remove_node_spec s node item). Qed.

(** Node 11 of [three_nodes] is removed. *)
Lemma remove_node_registered_witness :
  exists s',
    remove_node 11 three_nodes = (Ok tt, s') /\
    item_for_node 11 s' = (Raise KeyError, s') /\
    __item_for_node s' = delete 11 (__item_for_node three_nodes) /\
    list_remove 1 (__node_items three_nodes) = Some (__node_items s') /\
    scene_items (qt s')
      = filter (fun g => g <> GNode 1) (scene_items (qt three_nodes)) /\
    activated_mapper s' = delete 1 (activated_mapper three_nodes) /\
    hovered_mapper s' = delete 1 (hovered_mapper three_nodes) /\
    position_change_mapper s' = position_change_mapper three_nodes /\
    connections (qt three_nodes) ≡ₚ node_listeners 11 1 ++ connections (qt s').
Proof.
  apply (remove_node_registered three_nodes 11 1).
  - vm_compute; reflexivity.
  - apply (bool_decide_unpack _). vm_compute. exact I.
  - apply (bool_decide_unpack _). vm_compute. exact I.
Defined.

Local Transparent remove_node_item.

(** What [add_node_item] does to the tables, the connections and the items
    shown, for an item that is not listed. *)
Lemma add_node_item_tables {Sch} `{!SchemeModel Sch} (s : CanvasScene Sch)
    (item : NodeItem) :
  item ∉ __node_items s ->
  exists s', add_node_item item s = (Ok item, s') /\
    activated_mapper s' = <[item := item]> (activated_mapper s) /\
    hovered_mapper s' = <[item := item]> (hovered_mapper s) /\
    position_change_mapper s' = <[item := item]> (position_change_mapper s) /\
    connections (qt s') =
      connections (qt s) ++ [ (activated item, pyMap Activated);
                              (hovered item, pyMap Hovered);
                              (positionChanged item, pyMap PositionChange) ] /\
    filter (fun g => g <> GNode item) (scene_items (qt s'))
      = filter (fun g => g <> GNode item) (scene_items (qt s)) /\
    GNode item ∈ scene_items (qt s') /\
    (forall g, g ∈ scene_items (qt s') <-> g ∈ scene_items (qt s) \/ g = GNode item) /\
    emitted (qt s') = emitted (qt s) ++ [node_item_added item] /\
    __item_for_link s' = __item_for_link s /\
    __link_items s' = __link_items s.
Proof.
  intros Hin. apply (bool_decide_eq_false_2 _) in Hin.
  unfold add_node_item, NodeItem_pos, setPos, connect, addItem, emit, update_NodeItem.
  unfold_monad. cbn. rewrite Hin. cbn.
  assert (Hfilter : filter (fun g => g <> GNode item) [GNode item] = []).
  { rewrite filter_cons_False; [done|]. by intros []. }
  destruct (isNull (pos (node_item_obj (qt s) item))); cbn.
  1: destruct (last (__node_items s)); cbn.
  all: destruct (bool_decide (GNode item ∈ scene_items (qt s))) eqn:Hshown; cbn.
  all: eexists; (split; [reflexivity|]); cbn; rewrite <- ?app_assoc; cbn.
  all: rewrite ?filter_app, ?Hfilter, ?app_nil_r.
  all: split; [done|split; [done|split; [done|split; [done|split; [done|]]]]].
  all: try apply bool_decide_eq_true in Hshown.
  all: split; [try done; apply elem_of_app; right; by apply list_elem_of_singleton|].
  all: split; [|done]; intros g; rewrite ?elem_of_app, ?list_elem_of_singleton.
  all: try tauto.
  all: split; [by left|by intros [?| ->]].
Qed.


Local Arguments add_node_item : simpl never.
Local Arguments new_node_item : simpl never.
Local Opaque add_node_item new_node_item.

(** [add_node] for a node that is not registered yet: the tables, the
    connections and the items shown after it returned. *)
Lemma add_node_tables {Sch} `{!SchemeModel Sch} (s s' : CanvasScene Sch)
    (node : SchemeNode) (item : NodeItem) :
  __item_for_node s !! node = None ->
  add_node node s = (Ok item, s') ->
  activated_mapper s' = <[item := item]> (activated_mapper s) /\
  hovered_mapper s' = <[item := item]> (hovered_mapper s) /\
  position_change_mapper s' = <[item := item]> (position_change_mapper s) /\
  connections (qt s') =
    connections (qt s) ++ node_listeners node item
    ++ [ (activated item, pyMap Activated); (hovered item, pyMap Hovered);
         (positionChanged item, pyMap PositionChange) ] /\
  filter (fun g => g <> GNode item) (scene_items (qt s'))
    = filter (fun g => g <> GNode item) (scene_items (qt s)) /\
  GNode item ∈ scene_items (qt s') /\
  __item_for_link s' = __item_for_link s /\
  __link_items s' = __link_items s.
Proof.
  intros Hnew Hrun.
  destruct (add_node_new_spec s node item s' Hnew Hrun) as (-> & Hfresh & _).
  unfold add_node in Hrun. unfold_monad. rewrite Hnew in Hrun.
  destruct (new_node_item _ _ s) as [r0 s0] eqn:Hitem.
  apply new_node_item_spec in Hitem
    as [[->| ->] (t & -> & _ & Hshown & Hconn & _)]; [|done].
  unfold setPos, connect, update_NodeItem in Hrun. unfold_monad.
  destruct (position (node_obj node)) as [p|]; cbn in Hrun;
    match type of Hrun with
    | context [add_node_item ?i ?sx] =>
        destruct (add_node_item_tables sx i Hfresh)
          as (s1 & Hadd & Hact & Hhov & Hpos & Hcs & Hfilter & Hin & _ & _ & Hlinks & Hlist)
    end;
    rewrite Hadd in Hrun; injection Hrun as <-; cbn in *;
    rewrite Hact, Hhov, Hpos, Hcs, Hfilter, Hshown, Hconn, Hlinks, Hlist;
    rewrite <- !app_assoc; done.
Qed.

Local Transparent add_node_item new_node_item.

(** X7: [remove_node] right after [add_node], for a node that was not
    registered: the registry and the list of node items are as they were
    before the node was added.  The item is taken out of the items shown and
    out of the activation and hover tables.  What stays behind is the entry
    of the item in the position-change table and the three connections from
    the item to the mappers. *)
Theorem add_then_remove_node {Sch} `{!SchemeModel Sch} (s s1 : CanvasScene Sch)
    (node : SchemeNode) (item : NodeItem) :
  __item_for_node s !! node = None ->
  add_node node s = (Ok item, s1) ->
  exists s2,
    remove_node node s1 = (Ok tt, s2) /\
    __item_for_node s2 = __item_for_node s /\
    __node_items s2 = __node_items s /\
    scene_items (qt s2) = filter (fun g => g <> GNode item) (scene_items (qt s)) /\
    activated_mapper s2 = delete item (activated_mapper s) /\
    hovered_mapper s2 = delete item (hovered_mapper s) /\
    position_change_mapper s2 = <[item := item]> (position_change_mapper s) /\
    connections (qt s2) ≡ₚ
      connections (qt s)
      ++ [ (activated item, pyMap Activated); (hovered item, pyMap Hovered);
           (positionChanged item, pyMap PositionChange) ].
Proof.
  intros Hnew Hadd.
  destruct (add_node_new_spec s node item s1 Hnew Hadd)
    as (_ & Hfresh & Hitems & Hmap & _).
  destruct (add_node_tables s s1 node item Hnew Hadd)
    as (Hact & Hhov & Hpos & Hcs & Hfilter & _).
  destruct (remove_node_spec s1 node item)
    as (s2 & Hrun & _ & Hmap2 & Hitems2 & Hshown2 & Hact2 & Hhov2 & Hpos2 & Hcs2).
  { rewrite Hmap. apply lookup_insert_eq. }
  { rewrite Hitems. apply elem_of_app. right. by apply list_elem_of_singleton. }
  { rewrite Hcs. intros c Hc. apply elem_of_app. right. apply elem_of_app. by left. }
  exists s2. split; [done|].
  split; [by rewrite Hmap2, Hmap, delete_insert_id|].
  split.
  { rewrite Hitems, (list_remove_snoc item _ Hfresh) in Hitems2. by injection Hitems2. }
  split; [by rewrite Hshown2, Hfilter|].
  split; [by rewrite Hact2, Hact, delete_insert_eq|].
  split; [by rewrite Hhov2, Hhov, delete_insert_eq|].
  split; [by rewrite Hpos2, Hpos|].
  rewrite Hcs in Hcs2.
  apply (Permutation_app_inv_l (node_listeners node item)).
  rewrite <- Hcs2, !app_assoc.
  apply Permutation_app_tail, Permutation_app_comm.
Qed.

(** Node 7 is added to [three_nodes] (item 3) and removed again. *)
Lemma add_then_remove_node_witness :
  exists s2,
    remove_node 7 (exec (add_node 7) three_nodes) = (Ok tt, s2) /\
    __item_for_node s2 = __item_for_node three_nodes /\
    __node_items s2 = __node_items three_nodes /\
    scene_items (qt s2)
      = filter (fun g => g <> GNode 3) (scene_items (qt three_nodes)) /\
    activated_mapper s2 = delete 3 (activated_mapper three_nodes) /\
    hovered_mapper s2 = delete 3 (hovered_mapper three_nodes) /\
    position_change_mapper s2 = <[3 := 3]> (position_change_mapper three_nodes) /\
    connections (qt s2) ≡ₚ
      connections (qt three_nodes)
      ++ [ (activated 3, pyMap Activated); (hovered 3, pyMap Hovered);
           (positionChanged 3, pyMap PositionChange) ].
Proof.
  apply (add_then_remove_node three_nodes (exec (add_node 7) three_nodes) 7 3).
  - vm_compute; reflexivity.
  - vm_compute; reflexivity.
Defined.


(** What [remove_link_item] does to a scene that lists the item. *)
Lemma remove_link_item_spec {Sch} `{!SchemeModel Sch} (s : CanvasScene Sch)
    (item : LinkItem) (items' : list LinkItem) :
  list_remove item (__link_items s) = Some items' ->
  exists s', remove_link_item item s = (Ok item, s') /\
    __link_items s' = items' /\
    __item_for_link s' = __item_for_link s /\
    __item_for_node s' = __item_for_node s /\
    __node_items s' = __node_items s /\
    connections (qt s') = connections (qt s) /\
    scene_items (qt s') = filter (fun g => g <> GLink item) (scene_items (qt s)) /\
    sourceItem (link_item_obj (qt s') item) = None /\
    sinkItem (link_item_obj (qt s') item) = None /\
    emitted (qt s') = emitted (qt s) ++ [link_item_removed item].
Proof.
  intros Hrm. eexists. split.
  - unfold remove_link_item, removeLink, removeItem, emit, update_LinkItem.
    unfold_monad. rewrite Hrm. reflexivity.
  - cbn. rewrite !fn_lookup_insert. repeat split; reflexivity.
Qed.

(** [remove_link] of a registered link whose listener is connected gets
    through its [disconnect]: what is left to do is [remove_link_item], on
    the scene without the link's entry and without the listener. *)
Lemma remove_link_disconnects {Sch} `{!SchemeModel Sch} (s : CanvasScene Sch)
    (link : SchemeLink) (item : LinkItem) :
  __item_for_link s !! link = Some item ->
  (enabled_changed link, setEnabled item) ∈ connections (qt s) ->
  exists cs',
    connections (qt s) ≡ₚ (enabled_changed link, setEnabled item) :: cs' /\
    remove_link link s
    = bind (remove_link_item item) (fun _ => ret tt)
        (with_qt (with_connections cs' (qt s))
           (with_item_for_link (delete link (__item_for_link s)) s)).
Proof.
  intros Hitem Hconn. unfold remove_link.
  rewrite (bind_Ok (gets __item_for_link) _ s s (__item_for_link s) eq_refl).
  rewrite (bind_Ok (dict_get _ _) _ s s item) by (unfold dict_get; by rewrite Hitem).
  rewrite (bind_Ok (modify _) _ s _ tt eq_refl).
  set (s0 := with_item_for_link (delete link (__item_for_link s)) s).
  destruct (disconnect_spec s0 _ Hconn) as (cs1 & Hrm1 & Hd1).
  rewrite (bind_Ok _ _ _ _ _ Hd1).
  exists cs1. split; [|reflexivity]. by apply list_remove_Permutation.
Qed.

(** [remove_link] of a link that is registered, with its item listed and
    its listener connected. *)
Lemma remove_link_spec {Sch} `{!SchemeModel Sch} (s : CanvasScene Sch)
    (link : SchemeLink) (item : LinkItem) :
  __item_for_link s !! link = Some item ->
  item ∈ __link_items s ->
  (enabled_changed link, setEnabled item) ∈ connections (qt s) ->
  exists s',
    remove_link link s = (Ok tt, s') /\
    __item_for_link s' = delete link (__item_for_link s) /\
    list_remove item (__link_items s) = Some (__link_items s') /\
    scene_items (qt s') = filter (fun g => g <> GLink item) (scene_items (qt s)) /\
    sourceItem (link_item_obj (qt s') item) = None /\
    sinkItem (link_item_obj (qt s') item) = None /\
    connections (qt s) ≡ₚ (enabled_changed link, setEnabled item) :: connections (qt s') /\
    __item_for_node s' = __item_for_node s /\
    __node_items s' = __node_items s.
Proof.
  intros Hitem Hin Hconn.
  destruct (remove_link_disconnects s link item Hitem Hconn) as (cs' & Hperm & ->).
  destruct (list_remove_elem_of item _ Hin) as [items' Hrm].
  destruct (remove_link_item_spec
              (with_qt (with_connections cs' (qt s))
                 (with_item_for_link (delete link (__item_for_link s)) s))
              item items' Hrm)
    as (s' & Hrun & Hitems & Hmap & Hnodes & Hlist & Hcs & Hshown & Hsrc & Hsnk & _).
  rewrite (bind_Ok _ _ _ _ _ Hrun). exists s'. split; [done|]. cbn in *.
  rewrite Hitems, Hcs. repeat split; done.
Qed.

(** X8: [remove_link] of a link that is registered, with its item listed and
    its [enabled_changed] listener connected: the call returns, the link is
    no longer registered, one occurrence of the item leaves the list, the
    item is taken out of the items shown and detached from both of its
    ends, and exactly the one listener is dropped.  The node registry and
    the node items are untouched. *)
Theorem remove_link_registered {Sch} `{!SchemeModel Sch} (s : CanvasScene Sch)
    (link : SchemeLink) (item : LinkItem) :
  __item_for_link s !! link = Some item ->
  item ∈ __link_items s ->
  (enabled_changed link, setEnabled item) ∈ connections (qt s) ->
  exists s',
    remove_link link s = (Ok tt, s') /\
    item_for_link link s' = (Raise KeyError, s') /\
    __item_for_link s' = delete link (__item_for_link s) /\
    list_remove item (__link_items s) = Some (__link_items s') /\
    scene_items (qt s') = filter (fun g => g <> GLink item) (scene_items (qt s)) /\
    sourceItem (link_item_obj (qt s') item) = None /\
    sinkItem (link_item_obj (qt s') item) = None /\
    connections (qt s) ≡ₚ (enabled_changed link, setEnabled item) :: connections (qt s') /\
    __item_for_node s' = __item_for_node s /\
    __node_items s' = __node_items s.
Proof.
  intros Hitem Hin Hconn.
  destruct (remove_link_spec s link item Hitem Hin Hconn)
    as (s' & Hrun & Hmap & Hrest).
  exists s'. split; [done|]. split; [|by split].
  unfold item_for_link. unfold_monad. by rewrite Hmap, lookup_delete_eq.
Qed.

(** Link 10 of [linked_scene] (item 3) is removed. *)
Lemma remove_link_registered_witness :
  exists s',
    remove_link 10 linked_scene = (Ok tt, s') /\
    item_for_link 10 s' = (Raise KeyError, s') /\
    __item_for_link s' = delete 10 (__item_for_link linked_scene) /\
    list_remove 3 (__link_items linked_scene) = Some (__link_items s') /\
    scene_items (qt s')
      = filter (fun g => g <> GLink 3) (scene_items (qt linked_scene)) /\
    sourceItem (link_item_obj (qt s') 3) = None /\
    sinkItem (link_item_obj (qt s') 3) = None /\
    connections (qt linked_scene)
      ≡ₚ (enabled_changed 10, setEnabled 3) :: connections (qt s') /\
    __item_for_node s' = __item_for_node linked_scene /\
    __node_items s' = __node_items linked_scene.
Proof.
  apply (remove_link_registered linked_scene 10 3).
  - vm_compute; reflexivity.
  - apply (bool_decide_unpack _). vm_compute. exact I.
  - apply (bool_decide_unpack _). vm_compute. exact I.
Defined.

(** X9: [remove_link] right after [add_link], for a link that was not
    registered: the link registry is as it was before the link was added,
    the list of link items holds the same items (and is the same list when
    the item was not listed before), the items shown are the ones there
    were without the item, the item is detached from its ends, and the
    connections are the ones there were.  The node registry and the node items are untouched
    throughout. *)
Theorem add_then_remove_link {Sch} `{!SchemeModel Sch} (s s1 : CanvasScene Sch)
    (link : SchemeLink) (item : LinkItem) :
  __item_for_link s !! link = None ->
  add_link link s = (Ok item, s1) ->
  exists s2,
    remove_link link s1 = (Ok tt, s2) /\
    __item_for_link s2 = __item_for_link s /\
    __link_items s2 ≡ₚ __link_items s /\
    (item ∉ __link_items s -> __link_items s2 = __link_items s) /\
    (forall g, g ∈ scene_items (qt s2)
               <-> g ∈ scene_items (qt s) /\ g <> GLink item) /\
    sourceItem (link_item_obj (qt s2) item) = None /\
    sinkItem (link_item_obj (qt s2) item) = None /\
    connections (qt s2) ≡ₚ connections (qt s) /\
    __item_for_node s2 = __item_for_node s /\
    __node_items s2 = __node_items s.
Proof.
  intros Hnew Hadd.
  destruct (__item_for_node s !! source_node (link_obj link)) as [source|] eqn:Hsource;
    [|by rewrite add_link_missing_endpoint in Hadd; auto].
  destruct (__item_for_node s !! sink_node (link_obj link)) as [sink|] eqn:Hsink;
    [|by rewrite add_link_missing_endpoint in Hadd; auto].
  destruct (add_link_new_spec s link source sink Hnew Hsource Hsink)
    as (s1' & Hrun & Hmap & Hitems & _ & _ & Hcs & _ & _ & _ & Hnodes & Hlist & Hshown).
  rewrite Hrun in Hadd. injection Hadd as <- <-.
  destruct (remove_link_spec s1' link (next_item (qt s)))
    as (s2 & Hrun2 & Hmap2 & Hitems2 & Hshown2 & Hsrc & Hsnk & Hcs2 & Hnodes2 & Hlist2).
  { rewrite Hmap. apply lookup_insert_eq. }
  { rewrite Hitems. apply elem_of_app. right. by apply list_elem_of_singleton. }
  { rewrite Hcs. apply elem_of_app. right. by apply list_elem_of_singleton. }
  exists s2. split; [done|].
  split; [by rewrite Hmap2, Hmap, delete_insert_id|].
  split.
  { apply list_remove_Permutation in Hitems2. rewrite Hitems in Hitems2.
    apply (Permutation_cons_inv (a := next_item (qt s))).
    by rewrite <- Hitems2, Permutation_app_comm. }
  split.
  { intros Hfresh. rewrite Hitems, (list_remove_snoc _ _ Hfresh) in Hitems2.
    by injection Hitems2. }
  split.
  { intros g. rewrite Hshown2, list_elem_of_filter, Hshown. tauto. }
  split; [done|]. split; [done|].
  split.
  { rewrite Hcs in Hcs2. apply (Permutation_cons_inv (a := (enabled_changed link, setEnabled (next_item (qt s))))).
    by rewrite <- Hcs2, Permutation_app_comm. }
  split; [by rewrite Hnodes2|by rewrite Hlist2].
Qed.

(** Link 11 is drawn on [three_nodes] (item 3) and removed again. *)
Lemma add_then_remove_link_witness :
  exists s2,
    remove_link 11 (exec (add_link 11) three_nodes) = (Ok tt, s2) /\
    __item_for_link s2 = __item_for_link three_nodes /\
    __link_items s2 ≡ₚ __link_items three_nodes /\
    (3 ∉ __link_items three_nodes -> __link_items s2 = __link_items three_nodes) /\
    (forall g, g ∈ scene_items (qt s2)
               <-> g ∈ scene_items (qt three_nodes) /\ g <> GLink 3) /\
    sourceItem (link_item_obj (qt s2) 3) = None /\
    sinkItem (link_item_obj (qt s2) 3) = None /\
    connections (qt s2) ≡ₚ connections (qt three_nodes) /\
    __item_for_node s2 = __item_for_node three_nodes /\
    __node_items s2 = __node_items three_nodes.
Proof.
  apply (add_then_remove_link three_nodes (exec (add_link 11) three_nodes) 11 3).
  - vm_compute; reflexivity.
  - vm_compute; reflexivity.
Defined.


(** ** Commits *)

(** X10: a commit that the scheme accepts changes the scheme and nothing else:
    [node_added] (or [link_added]) reaches [add_node] (or [add_link]), which
    finds the entity registered and does nothing. *)
Theorem accepted_commit_changes_only_scheme {Sch} `{!SchemeModel Sch}
    (s : CanvasScene Sch) (sch : Sch) :
  editable s = true ->
  scheme s = Some sch ->
  (forall node item sch',
     __item_for_node s !! node = Some item ->
     scheme_add_node sch node = Ok sch' ->
     commit_scheme_node node s = (Ok tt, with_scheme (Some sch') s)) /\
  (forall link item sch',
     __item_for_link s !! link = Some item ->
     scheme_add_link sch link = Ok sch' ->
     commit_scheme_link link s = (Ok tt, with_scheme (Some sch') s)).
Proof.
  intros Hed Hsch. split.
  - intros node item sch' Hitem Hok.
    unfold commit_scheme_node, Scheme_add_node. unfold_monad.
    rewrite Hed. cbn [negb]. rewrite Hitem, Hsch, Hok.
    by rewrite (add_node_existing (with_scheme (Some sch') s) node item Hitem).
  - intros link item sch' Hitem Hok.
    unfold commit_scheme_link, Scheme_add_link. unfold_monad.
    rewrite Hed. cbn [negb]. rewrite Hitem, Hsch, Hok.
    by rewrite (add_link_existing (with_scheme (Some sch') s) link item Hitem).
Qed.

Lemma accepted_commit_changes_only_scheme_witness :
  commit_scheme_node 11 open_scene
    = (Ok tt, with_scheme (Some {| nodes := [11]; links := []; capacity := 8 |})
                open_scene) /\
  commit_scheme_link 10 open_scene
    = (Ok tt, with_scheme (Some {| nodes := []; links := [10]; capacity := 8 |})
                open_scene).
Proof.
  destruct (accepted_commit_changes_only_scheme open_scene roomy_scheme)
    as [Hnode Hlink]; [vm_compute; reflexivity|vm_compute; reflexivity|].
  split.
  - apply (Hnode 11 1); vm_compute; reflexivity.
  - apply (Hlink 10 2); vm_compute; reflexivity.
Defined.

(** X11: a [commit_scheme_node] that raises, for whatever reason, leaves the
    scheme, both registries and the link items as they were; of the node
    items it removes at most one. *)
Theorem failed_node_commit_keeps_scheme {Sch} `{!SchemeModel Sch}
    (s s' : CanvasScene Sch) (node : SchemeNode) (e : exn) :
  commit_scheme_node node s = (Raise e, s') ->
  scheme s' = scheme s /\
  __item_for_node s' = __item_for_node s /\
  __item_for_link s' = __item_for_link s /\
  __link_items s' = __link_items s /\
  length (__node_items s) <= S (length (__node_items s')).
Proof.
  unfold commit_scheme_node, Scheme_add_node. unfold_monad.
  destruct (editable s); cbn [negb]; [|by intros [= <- <-]; repeat split; lia].
  destruct (__item_for_node s !! node) as [item|] eqn:Hitem;
    [|by intros [= <- <-]; repeat split; lia].
  assert (Hkeep : unchanged
            (fun x : CanvasScene Sch =>
               (scheme x, __item_for_node x, __item_for_link x, __link_items x))
            (remove_node_item item)).
  { unfold remove_node_item. solve_unchanged. }
  assert (Hlen : length (__node_items s)
                 <= S (length (__node_items (exec (remove_node_item item) s)))).
  { unfold exec, remove_node_item. unfold_toolkit. unfold_monad. cbn.
    destruct (list_remove item (__node_items s)) as [items'|] eqn:Hrm; cbn; [|lia].
    apply list_remove_length in Hrm. lia. }
  specialize (Hkeep s). unfold exec in Hkeep, Hlen.
  destruct (scheme s) as [sch|].
  - destruct (scheme_add_node sch node) as [sch'|e0]; [done|].
    destruct (remove_node_item item s) as [[[]|e1] s1]; intros [= <- <-];
      injection Hkeep as -> -> -> ->; done.
  - destruct (remove_node_item item s) as [[[]|e1] s1]; intros [= <- <-];
      injection Hkeep as -> -> -> ->; done.
Qed.

Lemma failed_node_commit_keeps_scheme_witness :
  scheme (exec (commit_scheme_node 11) three_nodes) = scheme three_nodes /\
  __item_for_node (exec (commit_scheme_node 11) three_nodes)
    = __item_for_node three_nodes /\
  __item_for_link (exec (commit_scheme_node 11) three_nodes)
    = __item_for_link three_nodes /\
  __link_items (exec (commit_scheme_node 11) three_nodes) = __link_items three_nodes /\
  length (__node_items three_nodes)
    <= S (length (__node_items (exec (commit_scheme_node 11) three_nodes))).
Proof.
  apply (failed_node_commit_keeps_scheme three_nodes _ 11 (ValueError "node rejected")).
  vm_compute; reflexivity.
Defined.

(** ** Channel names *)

Lemma set_channel_names_loop {Sch} `{!SchemeModel Sch} (v : bool)
    (links : list LinkItem) (s : CanvasScene Sch) :
  exists t,
    foldr (fun link k => bind (update_LinkItem link (with_channelNamesVisible v))
                              (fun _ => k))
      (ret tt) links s = (Ok tt, with_qt t s) /\
    (forall link, link_item_obj t link =
       if bool_decide (link ∈ links)
       then with_channelNamesVisible v (link_item_obj (qt s) link)
       else link_item_obj (qt s) link) /\
    scene_items t = scene_items (qt s) /\
    connections t = connections (qt s) /\
    emitted t = emitted (qt s) /\
    next_item t = next_item (qt s).
Proof.
  revert s. induction links as [|link links IH]; intros s.
  - exists (qt s). split; [by destruct s|]. by repeat split.
  - cbn [foldr].
    rewrite (bind_Ok (update_LinkItem link (with_channelNamesVisible v)) _ s
               (exec (update_LinkItem link (with_channelNamesVisible v)) s) tt eq_refl).
    destruct (IH (exec (update_LinkItem link (with_channelNamesVisible v)) s))
      as (t & Hrun & Hobj & Hshown & Hconn & Hem & Hnext).
    rewrite Hrun.
    exists t. split; [reflexivity|]. cbn in *.
    split; [|by repeat split].
    intros l. rewrite Hobj.
    destruct (decide (l = link)) as [->|Hne].
    + rewrite fn_lookup_insert, (bool_decide_eq_true_2 (link ∈ link :: links));
        [|by left].
      by destruct (bool_decide (link ∈ links)).
    + rewrite fn_lookup_insert_ne; [|done].
      destruct (bool_decide (l ∈ links)) eqn:Hin.
      * apply bool_decide_eq_true in Hin.
        rewrite (bool_decide_eq_true_2 (l ∈ link :: links)); [done|by right].
      * apply bool_decide_eq_false in Hin.
        rewrite (bool_decide_eq_false_2 (l ∈ link :: links)); [done|].
        intros Hl. apply elem_of_cons in Hl as [?|?]; done.
Qed.

(** X12: [set_channel_names_visible v] returns; afterwards the scene's flag is
    [v], every listed link item shows or hides its channel names
    accordingly, with nothing else of it changed, and link items that are
    not listed are as they were. *)
Theorem set_channel_names_visible_all {Sch} `{!SchemeModel Sch}
    (s : CanvasScene Sch) (v : bool) :
  exists s',
    set_channel_names_visible v s = (Ok tt, s') /\
    channel_names_visible s' = (Ok v, s') /\
    (forall link, link ∈ __link_items s ->
       link_item_obj (qt s') link
         = with_channelNamesVisible v (link_item_obj (qt s) link)) /\
    (forall link, link ∉ __link_items s ->
       link_item_obj (qt s') link = link_item_obj (qt s) link) /\
    __link_items s' = __link_items s /\
    __item_for_link s' = __item_for_link s.
Proof.
  unfold set_channel_names_visible.
  rewrite (bind_Ok (modify _) _ s (with_channel_names_visible v s) tt eq_refl).
  rewrite (bind_Ok (gets __link_items) _ (with_channel_names_visible v s)
             (with_channel_names_visible v s) (__link_items s) eq_refl).
  destruct (set_channel_names_loop v (__link_items s) (with_channel_names_visible v s))
    as (t & Hrun & Hobj & _).
  rewrite Hrun. eexists. split; [reflexivity|]. cbn.
  split; [done|]. split; [|split; [|done]].
  - intros link Hin. by rewrite Hobj, bool_decide_eq_true_2.
  - intros link Hin. by rewrite Hobj, bool_decide_eq_false_2.
Qed.


(** ** Neighbours *)

Section NeighbourFacts.

Context {Sch : Type} `{!SchemeModel Sch}.

Implicit Types s : CanvasScene Sch.

Lemma node_output_links_run s (a : NodeItem) :
  node_output_links a s
    = (Ok (filter (fun link => sourceItem (link_item_obj (qt s) link) = Some a)
                  (__link_items s)), s).
Proof. reflexivity. Qed.

Lemma node_input_links_run s (a : NodeItem) :
  node_input_links a s
    = (Ok (filter (fun link => sinkItem (link_item_obj (qt s) link) = Some a)
                  (__link_items s)), s).
Proof. reflexivity. Qed.

Lemma node_links_run s (a : NodeItem) :
  node_links a s
    = (Ok (filter (fun link => sourceItem (link_item_obj (qt s) link) = Some a)
                  (__link_items s)
           ++ filter (fun link => sinkItem (link_item_obj (qt s) link) = Some a)
                     (__link_items s)), s).
Proof. reflexivity. Qed.

Lemma neighbor_nodes_run s (a : NodeItem) :
  neighbor_nodes a s
    = (Ok (((fun link => sourceItem (link_item_obj (qt s) link))
              <$> filter (fun link => sinkItem (link_item_obj (qt s) link) = Some a)
                         (__link_items s))
           ++ ((fun link => sinkItem (link_item_obj (qt s) link))
                 <$> filter (fun link => sourceItem (link_item_obj (qt s) link) = Some a)
                            (__link_items s))), s).
Proof. reflexivity. Qed.

(** Who is a neighbour: the other end of a listed link. *)
Lemma neighbor_nodes_elem s (a b : NodeItem) (l : list (option NodeItem)) :
  neighbor_nodes a s = (Ok l, s) ->
  Some b ∈ l <->
  exists link, link ∈ __link_items s /\
    ((sourceItem (link_item_obj (qt s) link) = Some b /\
      sinkItem (link_item_obj (qt s) link) = Some a) \/
     (sourceItem (link_item_obj (qt s) link) = Some a /\
      sinkItem (link_item_obj (qt s) link) = Some b)).
Proof.
  rewrite neighbor_nodes_run. intros [= <-].
  rewrite elem_of_app, !list_elem_of_fmap. split.
  - intros [(link & Hb & Hin)|(link & Hb & Hin)];
      apply list_elem_of_filter in Hin as [Ha Hin]; exists link; split; auto.
  - intros (link & Hin & [[Hb Ha]|[Ha Hb]]); [left|right];
      exists link; split; auto; by apply list_elem_of_filter.
Qed.

Lemma count_occ_filter (P : nat -> Prop) `{!forall x, Decision (P x)}
    (l : list nat) (x : nat) :
  count_occ Nat.eq_dec (filter P l) x
    = if decide (P x) then count_occ Nat.eq_dec l x else 0.
Proof.
  induction l as [|y l IH]; [by destruct (decide (P x))|].
  rewrite filter_cons. destruct (decide (P y)) as [Hy|Hy]; cbn;
    destruct (Nat.eq_dec y x) as [->|Hne]; rewrite IH;
    destruct (decide (P x)); try done.
Qed.

End NeighbourFacts.

(** X13: being neighbours is symmetric: [b] is among the neighbours of [a]
    exactly when [a] is among the neighbours of [b]; neither query changes
    the scene. *)
Theorem neighbor_nodes_symmetric {Sch} `{!SchemeModel Sch} (s : CanvasScene Sch)
    (a b : NodeItem) :
  exists la lb,
    neighbor_nodes a s = (Ok la, s) /\
    neighbor_nodes b s = (Ok lb, s) /\
    (Some b ∈ la <-> Some a ∈ lb).
Proof.
  eexists. eexists. split; [apply neighbor_nodes_run|].
  split; [apply neighbor_nodes_run|].
  rewrite (neighbor_nodes_elem s a b _ (neighbor_nodes_run s a)).
  rewrite (neighbor_nodes_elem s b a _ (neighbor_nodes_run s b)).
  split; intros (link & Hin & [[? ?]|[? ?]]); exists link; auto.
Qed.

(** X14: [node_links] holds the listed links that leave the node, then the
    listed links that enter it; a link from the node to itself is therefore
    returned twice as often as it is listed. *)
Theorem node_links_count {Sch} `{!SchemeModel Sch} (s : CanvasScene Sch)
    (a : NodeItem) :
  exists l,
    node_links a s = (Ok l, s) /\
    (forall link, link ∈ l <->
       link ∈ __link_items s /\
       (sourceItem (link_item_obj (qt s) link) = Some a \/
        sinkItem (link_item_obj (qt s) link) = Some a)) /\
    (forall link,
       sourceItem (link_item_obj (qt s) link) = Some a ->
       sinkItem (link_item_obj (qt s) link) = Some a ->
       count_occ Nat.eq_dec l link = 2 * count_occ Nat.eq_dec (__link_items s) link).
Proof.
  eexists. split; [apply node_links_run|]. split.
  - intros link. rewrite elem_of_app, !list_elem_of_filter. tauto.
  - intros link Hsrc Hsnk. rewrite count_occ_app, !count_occ_filter.
    rewrite !decide_True by done. lia.
Qed.

(** X15: once [add_link] has drawn a new link between two registered nodes, the
    queries see it: the new item is among the output links of the source
    item and the input links of the sink item, and each end is a neighbour
    of the other. *)
Theorem add_link_makes_neighbours {Sch} `{!SchemeModel Sch} (s : CanvasScene Sch)
    (link : SchemeLink) (source sink : NodeItem) :
  __item_for_link s !! link = None ->
  __item_for_node s !! source_node (link_obj link) = Some source ->
  __item_for_node s !! sink_node (link_obj link) = Some sink ->
  exists s' item outputs inputs from_source from_sink,
    add_link link s = (Ok item, s') /\
    node_output_links source s' = (Ok outputs, s') /\ item ∈ outputs /\
    node_input_links sink s' = (Ok inputs, s') /\ item ∈ inputs /\
    neighbor_nodes source s' = (Ok from_source, s') /\ Some sink ∈ from_source /\
    neighbor_nodes sink s' = (Ok from_sink, s') /\ Some source ∈ from_sink.
Proof.
  intros Hnew Hsource Hsink.
  destruct (add_link_new_spec s link source sink Hnew Hsource Hsink)
    as (s' & Hrun & _ & Hitems & _ & Hobj & _).
  assert (Hin : next_item (qt s) ∈ __link_items s').
  { rewrite Hitems. apply elem_of_app. right. by apply list_elem_of_singleton. }
  assert (Hsrc : sourceItem (link_item_obj (qt s') (next_item (qt s))) = Some source)
    by (by rewrite Hobj).
  assert (Hsnk : sinkItem (link_item_obj (qt s') (next_item (qt s))) = Some sink)
    by (by rewrite Hobj).
  exists s', (next_item (qt s)). do 4 eexists.
  split; [exact Hrun|].
  split; [apply node_output_links_run|]. split; [by apply list_elem_of_filter|].
  split; [apply node_input_links_run|]. split; [by apply list_elem_of_filter|].
  split; [apply neighbor_nodes_run|].
  split.
  { apply (neighbor_nodes_elem s' source sink _ (neighbor_nodes_run s' source)).
    exists (next_item (qt s)). auto. }
  split; [apply neighbor_nodes_run|].
  apply (neighbor_nodes_elem s' sink source _ (neighbor_nodes_run s' sink)).
  exists (next_item (qt s)). auto.
Qed.

(** Link 11 of [three_nodes] goes from node 11 (item 1) to node 12
    (item 2). *)
Lemma add_link_makes_neighbours_witness :
  exists s' item outputs inputs from_source from_sink,
    add_link 11 three_nodes = (Ok item, s') /\
    node_output_links 1 s' = (Ok outputs, s') /\ item ∈ outputs /\
    node_input_links 2 s' = (Ok inputs, s') /\ item ∈ inputs /\
    neighbor_nodes 1 s' = (Ok from_source, s') /\ Some 2 ∈ from_source /\
    neighbor_nodes 2 s' = (Ok from_sink, s') /\ Some 1 ∈ from_sink.
Proof.
  apply (add_link_makes_neighbours three_nodes 11 1 2); vm_compute; reflexivity.
Defined.


(** ** The node items of a scene *)

Section NodeSide.

Context {Sch : Type} `{!SchemeModel Sch}.

Implicit Types s : CanvasScene Sch.

Lemma shown_node_items_elem s (x : NodeItem) :
  x ∈ shown_node_items s <-> GNode x ∈ scene_items (qt s).
Proof.
  unfold shown_node_items. rewrite list_elem_of_omap. split.
  - intros ([| |] & Hin & Hx); try done. by injection Hx as ->.
  - intros Hin. by exists (GNode x).
Qed.

Lemma omap_filter_link (item : LinkItem) (l : list GraphicsItem) :
  omap (fun g => match g with GNode i => Some i | _ => None end)
       (filter (fun g => g <> GLink item) l)
  = omap (fun g => match g with GNode i => Some i | _ => None end) l.
Proof.
  induction l as [|g l IH]; [done|]. rewrite filter_cons.
  destruct (decide (g <> GLink item)) as [Hne|Heq]; cbn; [by rewrite IH|].
  destruct (decide (g = GLink item)) as [->|?]; [by rewrite IH|done].
Qed.

Lemma unchanged_nodes_addItem_link (item : LinkItem) :
  unchanged (Sch := Sch) node_side (addItem (GLink item)).
Proof.
  intros s. unfold exec, addItem. unfold_monad. cbn.
  destruct (bool_decide (GLink item ∈ scene_items (qt s))); [done|].
  unfold node_side, shown_node_items. cbn. by rewrite omap_app, app_nil_r.
Qed.

Lemma unchanged_nodes_removeItem_link (item : LinkItem) :
  unchanged (Sch := Sch) node_side (removeItem (GLink item)).
Proof.
  intros s. unfold exec, removeItem. unfold_monad.
  unfold node_side, shown_node_items. cbn. by rewrite omap_filter_link.
Qed.

Lemma unchanged_nodes_new_NodeItem : unchanged (Sch := Sch) node_side new_NodeItem.
Proof. by intros s. Qed.

Lemma unchanged_nodes_new_LinkItem : unchanged (Sch := Sch) node_side new_LinkItem.
Proof. by intros s. Qed.

Lemma unchanged_nodes_new_node_item widget_desc category_desc :
  unchanged (Sch := Sch) node_side (new_node_item widget_desc category_desc).
Proof.
  unfold new_node_item.
  repeat first [ simple apply unchanged_nodes_new_NodeItem | unchanged_step
               | progress unfold_toolkit ].
Qed.

Lemma unchanged_nodes_add_link_item item :
  unchanged (Sch := Sch) node_side (add_link_item item).
Proof.
  unfold add_link_item.
  repeat first [ simple apply unchanged_nodes_addItem_link | unchanged_step
               | progress unfold emit, invalidateLink, modify_qt ].
Qed.

Lemma unchanged_nodes_new_link_item a b c d :
  unchanged (Sch := Sch) node_side (new_link_item a b c d).
Proof.
  unfold new_link_item.
  repeat first [ simple apply unchanged_nodes_new_LinkItem | unchanged_step
               | progress unfold_toolkit ].
Qed.

Lemma unchanged_nodes_add_link link : unchanged (Sch := Sch) node_side (add_link link).
Proof.
  unfold add_link.
  repeat first [ simple apply unchanged_nodes_new_link_item
               | simple apply unchanged_nodes_add_link_item
               | unchanged_step | progress unfold_toolkit ].
Qed.

Lemma unchanged_nodes_remove_link_item item :
  unchanged (Sch := Sch) node_side (remove_link_item item).
Proof.
  unfold remove_link_item.
  repeat first [ simple apply unchanged_nodes_removeItem_link | unchanged_step
               | progress unfold removeLink, emit, update_LinkItem, modify_qt ].
Qed.

Lemma unchanged_nodes_remove_link link :
  unchanged (Sch := Sch) node_side (remove_link link).
Proof.
  unfold remove_link.
  repeat first [ simple apply unchanged_nodes_remove_link_item | unchanged_step
               | progress unfold connect, disconnect, modify_qt ].
Qed.

Lemma unchanged_nodes_set_channel_names_visible v :
  unchanged (Sch := Sch) node_side (set_channel_names_visible v).
Proof.
  unfold set_channel_names_visible.
  apply unchanged_bind; [solve_unchanged|intros _].
  apply unchanged_bind; [solve_unchanged|intros links].
  induction links as [|link links IH]; cbn; [apply unchanged_ret|].
  apply unchanged_bind; [solve_unchanged|intros _; exact IH].
Qed.

Lemma unchanged_nodes_commit_scheme_link link :
  unchanged (Sch := Sch) node_side (commit_scheme_link link).
Proof.
  unfold commit_scheme_link. repeat unchanged_step.
  intros s. unfold exec, Scheme_add_link.
  destruct (scheme s) as [sch|]; [|done].
  destruct (scheme_add_link sch link) as [sch'|e]; [|done].
  exact (unchanged_nodes_add_link link (with_scheme (Some sch') s)).
Qed.

Lemma node_side_step_refl v : node_side_step v v.
Proof. destruct v as [[items shown] [[act hov] pos]]. by left. Qed.

#[local] Notation "'one_node_step' m" := (steps (Sch := Sch) node_side node_side_step m) (at level 10, m at level 9).

Lemma unchanged_one_node_step {A} (m : M Sch A) :
  unchanged node_side m -> one_node_step m.
Proof. apply steps_unchanged, node_side_step_refl. Qed.

Lemma one_node_step_bind {A B} (m : M Sch A) (k : A -> M Sch B) :
  unchanged node_side m -> (forall a, one_node_step (k a)) -> one_node_step (bind m k).
Proof. apply steps_bind, node_side_step_refl. Qed.

Lemma one_node_step_then {A B} (m : M Sch A) (k : A -> M Sch B) :
  one_node_step m -> (forall a, unchanged node_side (k a)) -> one_node_step (bind m k).
Proof. apply steps_then. Qed.

Lemma one_node_step_add_node_item item : one_node_step (add_node_item item).
Proof.
  intros s. unfold exec.
  destruct (decide (item ∈ __node_items s)) as [Hin|Hin].
  - destruct (add_node_item item s) as [r s'] eqn:Hrun.
    apply add_node_item_spec in Hrun as [(_ & _ & ->)|(Hnot & _)]; [|done].
    apply node_side_step_refl.
  - destruct (add_node_item_tables s item Hin)
      as (s' & Hrun & Hact & Hhov & Hpos & _ & _ & _ & Hiff & _).
    destruct (add_node_item_spec s item _ _ Hrun) as [(? & _)|(_ & _ & Hitems & _)]; [done|].
    rewrite Hrun. simpl snd. unfold node_side. rewrite Hact, Hhov, Hpos, Hitems.
    right; left. exists item. repeat split; try done.
    + intros Hx. apply shown_node_items_elem, Hiff in Hx as [Hx| [= ->]]; [left|by right].
      by apply shown_node_items_elem.
    + intros [Hx| ->]; apply shown_node_items_elem, Hiff; [left|by right].
      by apply shown_node_items_elem.
Qed.

Lemma list_remove_None {X} `{EqDecision X} (x : X) (l : list X) :
  list_remove x l = None -> x ∉ l.
Proof.
  intros Hrm Hin. apply list_remove_elem_of in Hin as [l' Hl']. congruence.
Qed.

Lemma shown_after_removeItem s s' item :
  scene_items (qt s') = filter (fun g => g <> GNode item) (scene_items (qt s)) ->
  forall x, x ∈ shown_node_items s' <-> x ∈ shown_node_items s /\ x <> item.
Proof.
  intros Hshown x. rewrite !shown_node_items_elem, Hshown, list_elem_of_filter.
  split; intros [H1 H2]; split; try done; congruence.
Qed.

Lemma one_node_step_remove_node_item item :
  one_node_step (remove_node_item item).
Proof.
  intros s. unfold exec.
  destruct (list_remove item (__node_items s)) as [items'|] eqn:Hrm.
  - destruct (remove_node_item_spec s item items' Hrm)
      as (s' & Hrun & Hitems & _ & Hact & Hhov & Hpos & _ & Hshown).
    rewrite Hrun. simpl snd. unfold node_side. rewrite Hact, Hhov, Hpos, Hitems.
    right; right. exists item. repeat split; try done; try (by left);
      by apply (shown_after_removeItem s s' item Hshown).
  - pose proof (list_remove_None _ _ Hrm) as Hin.
    destruct (remove_node_item item s) as [r s'] eqn:Hrun.
    unfold remove_node_item, hide, removeItem, emit, update_NodeItem in Hrun.
    unfold_monad. cbn in Hrun. rewrite Hrm in Hrun. cbn in Hrun.
    injection Hrun as _ <-. simpl snd.
    match goal with |- node_side_step _ (node_side ?x) => set (s' := x) end.
    assert (Hshown : scene_items (qt s')
                     = filter (fun g => g <> GNode item) (scene_items (qt s))) by done.
    unfold node_side. replace (__node_items s') with (__node_items s) by done.
    replace (activated_mapper s') with (delete item (activated_mapper s)) by done.
    replace (hovered_mapper s') with (delete item (hovered_mapper s)) by done.
    replace (position_change_mapper s') with (position_change_mapper s) by done.
    right; right. exists item. repeat split; try done; try (by right);
      by apply (shown_after_removeItem s s' item Hshown).
Qed.

Lemma one_node_step_add_node node : one_node_step (add_node node).
Proof.
  unfold add_node.
  apply one_node_step_bind; [solve_unchanged|intros d].
  destruct (d !! node) as [item|]; [apply unchanged_one_node_step; solve_unchanged|].
  apply one_node_step_bind; [apply unchanged_nodes_new_node_item|intros item].
  repeat (simple apply one_node_step_bind; [solve_unchanged|intros _]).
  apply one_node_step_add_node_item.
Qed.

Lemma one_node_step_remove_node node : one_node_step (remove_node node).
Proof.
  unfold remove_node.
  apply one_node_step_bind; [solve_unchanged|intros d].
  apply one_node_step_bind; [solve_unchanged|intros item].
  repeat (simple apply one_node_step_bind; [solve_unchanged|intros _]).
  apply one_node_step_remove_node_item.
Qed.

Lemma one_node_step_commit_scheme_node node :
  one_node_step (commit_scheme_node node).
Proof.
  unfold commit_scheme_node.
  apply one_node_step_bind; [solve_unchanged|intros ed].
  apply one_node_step_bind; [solve_unchanged|intros _].
  apply one_node_step_bind; [solve_unchanged|intros d].
  destruct (d !! node) as [item|]; [|apply unchanged_one_node_step; solve_unchanged].
  intros s. unfold exec, try_except, Scheme_add_node.
  destruct (scheme s) as [sch|].
  - destruct (scheme_add_node sch node) as [sch'|e].
    + exact (one_node_step_add_node node (with_scheme (Some sch') s)).
    + apply (one_node_step_then (remove_node_item item) (fun _ => raise e));
        [apply one_node_step_remove_node_item|intros _; solve_unchanged].
  - apply (one_node_step_then (remove_node_item item) (fun _ => raise AttributeError));
      [apply one_node_step_remove_node_item|intros _; solve_unchanged].
Qed.

(** Every call of a history is one step on the node side. *)
Lemma step_node_side (s : CanvasScene Sch) (op : Op) :
  node_side_step (node_side s) (node_side (step s op)).
Proof.
  destruct op; cbn [step].
  - apply one_node_step_add_node.
  - apply one_node_step_remove_node.
  - apply unchanged_one_node_step, unchanged_nodes_add_link.
  - apply unchanged_one_node_step, unchanged_nodes_remove_link.
  - apply one_node_step_commit_scheme_node.
  - apply unchanged_one_node_step, unchanged_nodes_commit_scheme_link.
  - apply unchanged_one_node_step, unchanged_nodes_new_node_item.
  - apply one_node_step_add_node_item.
  - apply one_node_step_remove_node_item.
  - apply unchanged_one_node_step, unchanged_nodes_remove_link_item.
  - apply node_side_step_refl.
  - apply node_side_step_refl.
  - apply unchanged_one_node_step, unchanged_nodes_set_channel_names_visible.
Qed.

Lemma node_side_step_ok v v' : node_side_ok v -> node_side_step v v' -> node_side_ok v'.
Proof.
  destruct v as [[items shown] [[act hov] pos]].
  destruct v' as [[items' shown'] [[act' hov'] pos']].
  intros (Hnd & Hshown & Hmapped)
    [[= -> -> -> -> ->]
    |[(item & Hnew & -> & Hshown' & -> & -> & ->)
     |(item & Hitems & Hshown' & -> & -> & ->)]].
  - done.
  - split; [|split].
    + apply NoDup_app. split; [done|]. split; [|apply NoDup_singleton].
      intros x Hx [->|[]%elem_of_nil]%elem_of_cons. done.
    + intros x. rewrite elem_of_app, list_elem_of_singleton, Hshown', Hshown. done.
    + intros x [Hx| ->%list_elem_of_singleton]%elem_of_app.
      * destruct (decide (x = item)) as [->|Hne]; [done|].
        rewrite !lookup_insert_ne by done. by apply Hmapped.
      * by rewrite !lookup_insert_eq.
  - destruct Hitems as [Hrm|[Hnot ->]].
    + pose proof (list_remove_NoDup _ _ _ Hnd Hrm) as Hgone.
      pose proof (list_remove_subseteq _ _ _ Hrm) as Hsub.
      pose proof (list_remove_Permutation _ _ _ Hrm) as Hperm.
      split; [|split].
      * rewrite Hperm in Hnd. by apply NoDup_cons in Hnd as [_ ?].
      * intros x. rewrite Hshown', <- Hshown. split.
        -- intros Hx. split; [by apply Hsub|]. by intros ->.
        -- intros [Hx Hne]. by apply (list_remove_other item x items items').
      * intros x Hx. assert (x <> item) by (by intros ->).
        rewrite !lookup_delete_ne by done. apply Hmapped. by apply Hsub.
    + split; [done|split].
      * intros x. rewrite Hshown', <- Hshown. split; [|by intros [? _]].
        intros Hx. split; [done|]. by intros ->.
      * intros x Hx. assert (x <> item) by (by intros ->).
        rewrite !lookup_delete_ne by done. by apply Hmapped.
Qed.

Lemma run_node_items_ok (ops : list Op) (s : CanvasScene Sch) :
  node_items_ok s -> node_items_ok (run ops s).
Proof.
  revert s. induction ops as [|op ops IH]; intros s Hok; [done|].
  apply IH. exact (node_side_step_ok _ _ Hok (step_node_side s op)).
Qed.

Lemma node_items_ok_init (sch : option Sch) :
  node_items_ok (with_scheme sch init_scene).
Proof.
  split; [apply NoDup_nil_2|]. split.
  - intros item. cbn. split; intros []%elem_of_nil.
  - by intros item []%elem_of_nil.
Qed.


End NodeSide.

(** X16: after any history of calls on a new scene, bound to any scheme
    or to none, the list of node items has no item twice, it holds exactly
    the node items that are in the [QGraphicsScene], and every listed item
    is mapped to itself in the activated, the hovered and the position
    change mapper.  This holds whichever of the calls raised. *)
Theorem node_items_listed_once_shown_and_mapped {Sch} `{!SchemeModel Sch}
    (sch : option Sch) (ops : list Op) :
  let s := run ops (with_scheme sch init_scene) in
  NoDup (__node_items s) /\
  (forall item, item ∈ __node_items s <-> GNode item ∈ scene_items (qt s)) /\
  (forall item, item ∈ __node_items s ->
     activated_mapper s !! item = Some item /\
     hovered_mapper s !! item = Some item /\
     position_change_mapper s !! item = Some item).
Proof.
  intros s.
  destruct (run_node_items_ok ops _ (node_items_ok_init sch)) as (Hnd & Hshown & Hmapped).
  split; [exact Hnd|]. split; [|exact Hmapped].
  intros item. rewrite <- shown_node_items_elem. apply Hshown.
Qed.

(** ** The listeners of a scene *)

Section Listeners.

Context {Sch : Type} `{!SchemeModel Sch}.

Implicit Types s : CanvasScene Sch.
Implicit Types c : Connection.
Implicit Types l : list Connection.

#[local] Abbreviation listeners l := (filter (fun c => is_listener c = true) l).

Lemma listeners_snoc l c :
  listeners (l ++ [c]) = listeners l ++ (if is_listener c then [c] else []).
Proof.
  rewrite filter_app. f_equal. rewrite filter_cons, filter_nil.
  destruct (is_listener c); [by rewrite decide_True|by rewrite decide_False].
Qed.

Lemma listeners_remove_other c l l' :
  is_listener c = false -> list_remove c l = Some l' -> listeners l' = listeners l.
Proof.
  intros Hc. revert l'. induction l as [|x l IH]; intros l' Hrm; [done|].
  cbn in Hrm. destruct (decide (c = x)) as [<-|Hne].
  - injection Hrm as <-. rewrite filter_cons, decide_False; [done|congruence].
  - destruct (list_remove c l) as [l0|]; [|done]. injection Hrm as <-.
    rewrite !filter_cons, (IH l0 eq_refl). done.
Qed.

Lemma connected_listeners l c :
  is_listener c = true -> connected (listeners l) c = connected l c.
Proof.
  intros Hc. unfold connected. induction l as [|x l IH]; [done|].
  rewrite filter_cons. destruct (decide (is_listener x = true)) as [Hx|Hx]; cbn.
  - destruct (decide_rel eq x c); by rewrite IH.
  - destruct (decide_rel eq x c) as [->|Hne]; [done|by rewrite IH].
Qed.

Lemma connected_elem_of l c : 0 < connected l c <-> c ∈ l.
Proof.
  unfold connected. rewrite list_elem_of_In, (count_occ_In (decide_rel eq)). done.
Qed.

Lemma connected_Permutation l l' c : l ≡ₚ l' -> connected l c = connected l' c.
Proof.
  intros Hperm. unfold connected.
  by apply (proj1 (Permutation_count_occ (decide_rel eq) l l')).
Qed.

Lemma connected_app l l' c : connected (l ++ l') c = connected l c + connected l' c.
Proof. apply count_occ_app. Qed.

Lemma connected_NoDup l c :
  NoDup l -> connected l c = if bool_decide (c ∈ l) then 1 else 0.
Proof.
  intros Hnd. unfold connected. destruct (bool_decide (c ∈ l)) eqn:Hin.
  - apply bool_decide_eq_true in Hin.
    apply (proj1 (NoDup_count_occ' (decide_rel eq) l)); [by apply NoDup_ListNoDup|].
    by apply list_elem_of_In.
  - apply bool_decide_eq_false in Hin. apply count_occ_not_In.
    by rewrite <- list_elem_of_In.
Qed.

Lemma elem_of_node_listeners c (node : SchemeNode) (item : NodeItem) :
  c ∈ node_listeners node item <->
  c = (position_changed node, on_node_pos_changed) \/
  c = (title_changed node, setTitle item) \/
  c = (progress_changed node, setProgress item) \/
  c = (processing_state_changed node, setProcessingState item).
Proof.
  unfold node_listeners. rewrite !elem_of_cons, elem_of_nil. tauto.
Qed.

Lemma node_listeners_NoDup (node : SchemeNode) (item : NodeItem) :
  NoDup (node_listeners node item).
Proof.
  unfold node_listeners. repeat (apply NoDup_cons; split); [..|apply NoDup_nil_2];
    rewrite ?elem_of_cons, elem_of_nil; intros H; intuition discriminate.
Qed.

Lemma node_listeners_node c (node node' : SchemeNode) (item item' : NodeItem) :
  c ∈ node_listeners node item -> c ∈ node_listeners node' item' -> node = node'.
Proof.
  rewrite !elem_of_node_listeners.
  intros [->|[->|[->| ->]]] [?|[?|[?|?]]]; congruence.
Qed.

Lemma node_listeners_is_listener c (node : SchemeNode) (item : NodeItem) :
  c ∈ node_listeners node item -> is_listener c = true.
Proof. rewrite elem_of_node_listeners. by intros [->|[->|[->| ->]]]. Qed.

Lemma node_listeners_not_link c (node : SchemeNode) (item : NodeItem)
    (link : SchemeLink) (item' : LinkItem) :
  c ∈ node_listeners node item -> c <> link_listener link item'.
Proof. rewrite elem_of_node_listeners. by intros [->|[->|[->| ->]]]. Qed.

Lemma listeners_node_listeners (node : SchemeNode) (item : NodeItem) :
  listeners (node_listeners node item) = node_listeners node item.
Proof. reflexivity. Qed.

(** *** What the registries account for *)

Lemma accounted_insert_node nodes links (node : SchemeNode) (item : NodeItem) c :
  nodes !! node = None ->
  accounted (<[node := item]> nodes) links c <->
  accounted nodes links c \/ c ∈ node_listeners node item.
Proof.
  intros Hnew. unfold accounted. split.
  - intros [(node' & item' & Hlook & Hc)|Hlink]; [|by left; right].
    destruct (decide (node' = node)) as [->|Hne].
    + rewrite lookup_insert_eq in Hlook. injection Hlook as <-. by right.
    + rewrite lookup_insert_ne in Hlook by done. left; left. by exists node', item'.
  - intros [[(node' & item' & Hlook & Hc)|Hlink]|Hc]; [|by right|].
    + left. exists node', item'. split; [|done].
      rewrite lookup_insert_ne; [done|]. intros ->. congruence.
    + left. exists node, item. by rewrite lookup_insert_eq.
Qed.

Lemma accounted_not_node nodes links (node : SchemeNode) (item : NodeItem) c :
  nodes !! node = None -> accounted nodes links c -> c ∉ node_listeners node item.
Proof.
  intros Hnew [(node' & item' & Hlook & Hc)|(link & item' & _ & ->)] Hin.
  - rewrite (node_listeners_node c node node' item item' Hin Hc) in Hnew. congruence.
  - by apply (node_listeners_not_link _ _ _ link item') in Hin.
Qed.

Lemma accounted_insert_link nodes links (link : SchemeLink) (item : LinkItem) c :
  links !! link = None ->
  accounted nodes (<[link := item]> links) c <->
  accounted nodes links c \/ c ∈ [link_listener link item].
Proof.
  intros Hnew. unfold accounted. rewrite list_elem_of_singleton. split.
  - intros [Hnode|(link' & item' & Hlook & Hc)]; [by left; left|].
    destruct (decide (link' = link)) as [->|Hne].
    + rewrite lookup_insert_eq in Hlook. injection Hlook as <-. by right.
    + rewrite lookup_insert_ne in Hlook by done. left; right. by exists link', item'.
  - intros [[Hnode|(link' & item' & Hlook & Hc)]|Hc]; [by left| |].
    + right. exists link', item'. split; [|done].
      rewrite lookup_insert_ne; [done|]. intros ->. congruence.
    + right. exists link, item. by rewrite lookup_insert_eq.
Qed.

Lemma accounted_not_link nodes links (link : SchemeLink) (item : LinkItem) c :
  links !! link = None -> accounted nodes links c -> c ∉ [link_listener link item].
Proof.
  rewrite list_elem_of_singleton.
  intros Hnew [(node & item' & _ & Hc)|(link' & item' & Hlook & ->)] Heq.
  - by apply (node_listeners_not_link _ _ _ link item) in Hc.
  - injection Heq as -> ->. congruence.
Qed.

(** A batch of new listeners, none of them accounted for before. *)
Lemma listeners_ok_batch nodes links nodes' links' l (batch : list Connection) :
  NoDup batch ->
  (forall c, accounted nodes' links' c <-> accounted nodes links c \/ c ∈ batch) ->
  (forall c, accounted nodes links c -> c ∉ batch) ->
  listeners_ok (nodes, links, l) <-> listeners_ok (nodes', links', l ++ batch).
Proof.
  intros Hnd Hacc Hnot. unfold listeners_ok. split; intros Hok c;
    destruct (Hok c) as [Hone Hzero]; rewrite connected_app in *;
    rewrite (connected_NoDup batch c Hnd) in *; rewrite Hacc in *;
    destruct (bool_decide (c ∈ batch)) eqn:Hin;
    [apply bool_decide_eq_true in Hin|apply bool_decide_eq_false in Hin
    |apply bool_decide_eq_true in Hin|apply bool_decide_eq_false in Hin].
  - split; [|tauto]. intros _. rewrite Hzero; [done|]. intros ?. by apply (Hnot c).
  - split; [|intros ?; rewrite Hzero; tauto].
    intros [?|?]; [|done]. by rewrite Hone.
  - split.
    + intros Hc. by destruct (Hnot c Hc).
    + intros _. assert (connected l c + 1 = 1) by (apply Hone; by right). lia.
  - split.
    + intros Hc. rewrite <- (Hone (or_introl Hc)). lia.
    + intros Hc. assert (connected l c + 0 = 0) by (apply Hzero; tauto). lia.
Qed.

Lemma listeners_ok_Permutation nodes links l l' :
  l ≡ₚ l' -> listeners_ok (nodes, links, l) -> listeners_ok (nodes, links, l').
Proof.
  intros Hperm Hok c. rewrite <- (connected_Permutation l l' c Hperm). apply Hok.
Qed.

Lemma listener_step_refl v : listener_step v v.
Proof. destruct v as [[nodes links] l]. by left. Qed.

Lemma listener_step_ok v v' : listeners_ok v -> listener_step v v' -> listeners_ok v'.
Proof.
  destruct v as [[nodes links] l]. destruct v' as [[nodes' links'] l'].
  intros Hok
    [[= -> -> ->]
    |[(node & item & Hnew & -> & -> & ->)
     |[(link & item & Hnew & -> & -> & ->)
      |[(node & item & Hitem & -> & -> & Hperm)
       |(link & item & Hitem & -> & -> & Hperm)]]]].
  - done.
  - apply (listeners_ok_batch nodes links); [apply node_listeners_NoDup|..|done].
    + intros c. by apply accounted_insert_node.
    + intros c. by apply accounted_not_node.
  - apply (listeners_ok_batch nodes links); [apply NoDup_singleton|..|done].
    + intros c. by apply accounted_insert_link.
    + intros c. by apply accounted_not_link.
  - apply (listeners_ok_batch (delete node nodes) links nodes links l'
             (node_listeners node item)); [apply node_listeners_NoDup|..].
    + intros c. rewrite <- (accounted_insert_node _ _ node item c)
        by apply lookup_delete_eq.
      by rewrite insert_delete_id.
    + intros c. apply accounted_not_node, lookup_delete_eq.
    + apply (listeners_ok_Permutation _ _ l); [|done].
      by rewrite Hperm, Permutation_app_comm.
  - apply (listeners_ok_batch nodes (delete link links) nodes links l'
             [link_listener link item]); [apply NoDup_singleton|..].
    + intros c. rewrite <- (accounted_insert_link _ _ link item c)
        by apply lookup_delete_eq.
      by rewrite insert_delete_id.
    + intros c. apply accounted_not_link, lookup_delete_eq.
    + apply (listeners_ok_Permutation _ _ l); [|done].
      by rewrite Hperm, Permutation_cons_append.
Qed.

(** *** Calls that leave the registries and the listeners alone *)

Lemma unchanged_listeners_connect c :
  is_listener c = false -> unchanged (Sch := Sch) listener_side (connect c).
Proof.
  intros Hc s. unfold exec, connect, modify_qt, listener_side. unfold_monad. cbn.
  by rewrite listeners_snoc, Hc, app_nil_r.
Qed.

Lemma unchanged_listeners_disconnect c :
  is_listener c = false -> unchanged (Sch := Sch) listener_side (disconnect c).
Proof.
  intros Hc s. unfold exec, disconnect, modify_qt, listener_side. unfold_monad. cbn.
  destruct (list_remove c (connections (qt s))) as [cs'|] eqn:Hrm; [|done].
  cbn. by rewrite (listeners_remove_other c _ _ Hc Hrm).
Qed.

Ltac solve_listeners :=
  repeat first
    [ simple apply unchanged_listeners_connect; reflexivity
    | simple apply unchanged_listeners_disconnect; reflexivity
    | unchanged_step
    | progress unfold setPos, hide, removeLink, NodeItem_pos
    | progress unfold addItem, removeItem, emit, invalidateLink,
        update_NodeItem, update_LinkItem
    | progress unfold modify_qt ].

Lemma unchanged_listeners_new_node_item widget_desc category_desc :
  unchanged (Sch := Sch) listener_side (new_node_item widget_desc category_desc).
Proof.
  unfold new_node_item.
  apply unchanged_bind; [by intros s|intros item]. solve_listeners.
Qed.

Lemma unchanged_listeners_add_node_item item :
  unchanged (Sch := Sch) listener_side (add_node_item item).
Proof. unfold add_node_item. solve_listeners. Qed.

Lemma unchanged_listeners_remove_node_item item :
  unchanged (Sch := Sch) listener_side (remove_node_item item).
Proof. unfold remove_node_item. solve_listeners. Qed.

Lemma unchanged_listeners_remove_link_item item :
  unchanged (Sch := Sch) listener_side (remove_link_item item).
Proof. unfold remove_link_item. solve_listeners. Qed.

Lemma unchanged_listeners_set_channel_names_visible v :
  unchanged (Sch := Sch) listener_side (set_channel_names_visible v).
Proof.
  unfold set_channel_names_visible.
  apply unchanged_bind; [solve_listeners|intros _].
  apply unchanged_bind; [solve_listeners|intros links].
  induction links as [|link links IH]; cbn; [apply unchanged_ret|].
  apply unchanged_bind; [solve_listeners|intros _; exact IH].
Qed.

End Listeners.

Section ListenerSteps.

Context {Sch : Type} `{!SchemeModel Sch}.

Implicit Types s : CanvasScene Sch.

#[local] Abbreviation listeners l := (filter (fun c => is_listener c = true) l).

Local Arguments add_node_item : simpl never.
Local Arguments new_node_item : simpl never.
Local Opaque add_node_item new_node_item.

(** [add_node] does nothing here or registers the node with its four
    listeners. *)
Lemma add_node_listener_step (node : SchemeNode) :
  steps (Sch := Sch) listener_side listener_step (add_node node).
Proof.
  intros s. unfold exec.
  destruct (__item_for_node s !! node) as [item|] eqn:Hnew.
  { rewrite (add_node_existing s node item Hnew). apply listener_step_refl. }
  destruct (add_node node s) as [r s'] eqn:Hrun. simpl snd.
  unfold add_node in Hrun. unfold_monad. rewrite Hnew in Hrun.
  destruct (new_node_item _ _ s) as [r0 s0] eqn:Hitem.
  apply new_node_item_spec in Hitem as [[->| ->] (t & -> & _ & _ & Hconn & _)].
  - unfold setPos, connect, update_NodeItem in Hrun. unfold_monad.
    destruct (position (node_obj node)) as [p|]; cbn in Hrun;
      match type of Hrun with
      | context [add_node_item ?i ?sx] =>
          pose proof (unchanged_listeners_add_node_item i sx) as Hkeep;
          unfold exec in Hkeep;
          destruct (add_node_item i sx) as [r1 s1]
      end;
      injection Hrun as _ <-; simpl snd in Hkeep; rewrite Hkeep;
      unfold listener_side; cbn; rewrite !listeners_snoc, Hconn; cbn;
      right; left; exists node, (next_item (qt s));
      rewrite <- !app_assoc; done.
  - injection Hrun as _ <-. unfold listener_side. cbn. rewrite Hconn. by left.
Qed.

Local Transparent add_node_item new_node_item.

(** [add_link] does nothing here or registers the link with its
    listener. *)
Lemma add_link_listener_step (link : SchemeLink) :
  steps (Sch := Sch) listener_side listener_step (add_link link).
Proof.
  intros s. unfold exec.
  destruct (__item_for_link s !! link) as [item|] eqn:Hnew.
  { rewrite (add_link_existing s link item Hnew). apply listener_step_refl. }
  destruct (__item_for_node s !! source_node (link_obj link)) as [source|] eqn:Hsource;
    [|rewrite add_link_missing_endpoint by auto; apply listener_step_refl].
  destruct (__item_for_node s !! sink_node (link_obj link)) as [sink|] eqn:Hsink;
    [|rewrite add_link_missing_endpoint by auto; apply listener_step_refl].
  destruct (add_link_new_spec s link source sink Hnew Hsource Hsink)
    as (s' & -> & Hmap & _ & _ & _ & Hcs & _ & _ & _ & Hnodes & _).
  simpl snd. unfold listener_side. rewrite Hmap, Hcs, Hnodes, listeners_snoc. cbn.
  right; right; left. by exists link, (next_item (qt s)).
Qed.

(** On a scene whose listeners are in order, the listeners of a registered
    node or link are connected. *)
Lemma listeners_ok_node_connected s (node : SchemeNode) (item : NodeItem) :
  listeners_ok (listener_side s) ->
  __item_for_node s !! node = Some item ->
  node_listeners node item ⊆ connections (qt s).
Proof.
  intros Hok Hitem c Hc. apply connected_elem_of.
  rewrite <- (connected_listeners _ c (node_listeners_is_listener c node item Hc)).
  destruct (Hok c) as [Hone _]. rewrite Hone; [lia|].
  left. by exists node, item.
Qed.

Lemma listeners_ok_link_connected s (link : SchemeLink) (item : LinkItem) :
  listeners_ok (listener_side s) ->
  __item_for_link s !! link = Some item ->
  link_listener link item ∈ connections (qt s).
Proof.
  intros Hok Hitem. apply connected_elem_of.
  rewrite <- (connected_listeners _ (link_listener link item) eq_refl).
  destruct (Hok (link_listener link item)) as [Hone _]. rewrite Hone; [lia|].
  right. by exists link, item.
Qed.

(** On a scene whose listeners are in order, [remove_node] does nothing
    here or drops the node with its four listeners. *)
Lemma remove_node_listener_step (node : SchemeNode) s :
  listeners_ok (listener_side s) ->
  listener_step (listener_side s) (listener_side (exec (remove_node node) s)).
Proof.
  intros Hok. unfold exec.
  destruct (__item_for_node s !! node) as [item|] eqn:Hitem.
  2: { unfold remove_node. unfold_monad. rewrite Hitem. apply listener_step_refl. }
  pose proof (listeners_ok_node_connected s node item Hok Hitem) as Hconn.
  destruct (remove_node_disconnects s node item Hitem Hconn) as (cs' & Hperm & ->).
  pose proof (unchanged_listeners_remove_node_item item
                (with_qt (with_connections cs' (qt s))
                   (with_item_for_node (delete node (__item_for_node s)) s))) as Hkeep.
  unfold exec in Hkeep. rewrite Hkeep. unfold listener_side. cbn.
  right; right; right; left. exists node, item.
  split; [done|]. split; [done|]. split; [done|].
  by rewrite Hperm, filter_app.
Qed.

(** Likewise [remove_link] and the listener of the link. *)
Lemma remove_link_listener_step (link : SchemeLink) s :
  listeners_ok (listener_side s) ->
  listener_step (listener_side s) (listener_side (exec (remove_link link) s)).
Proof.
  intros Hok. unfold exec.
  destruct (__item_for_link s !! link) as [item|] eqn:Hitem.
  2: { unfold remove_link. unfold_monad. rewrite Hitem. apply listener_step_refl. }
  pose proof (listeners_ok_link_connected s link item Hok Hitem) as Hconn.
  destruct (remove_link_disconnects s link item Hitem Hconn) as (cs' & Hperm & ->).
  assert (Hkeep : unchanged (Sch := Sch) listener_side
                    (bind (remove_link_item item) (fun _ => ret tt))).
  { apply unchanged_bind; [apply unchanged_listeners_remove_link_item|intros _].
    apply unchanged_ret. }
  specialize (Hkeep (with_qt (with_connections cs' (qt s))
                       (with_item_for_link (delete link (__item_for_link s)) s))).
  unfold exec in Hkeep. rewrite Hkeep. unfold listener_side. cbn.
  right; right; right; right. exists link, item.
  split; [done|]. split; [done|]. split; [done|].
  by rewrite Hperm.
Qed.

Lemma commit_scheme_node_listener_step (node : SchemeNode) :
  steps (Sch := Sch) listener_side listener_step (commit_scheme_node node).
Proof.
  unfold commit_scheme_node.
  apply steps_bind; [apply listener_step_refl|solve_unchanged|intros ed].
  apply steps_bind; [apply listener_step_refl|solve_unchanged|intros _].
  apply steps_bind; [apply listener_step_refl|solve_unchanged|intros d].
  destruct (d !! node) as [item|];
    [|apply steps_unchanged; [apply listener_step_refl|solve_unchanged]].
  intros s. unfold exec, try_except, Scheme_add_node.
  destruct (scheme s) as [sch|].
  - destruct (scheme_add_node sch node) as [sch'|e].
    + exact (add_node_listener_step node (with_scheme (Some sch') s)).
    + apply (steps_then listener_side listener_step
               (remove_node_item item) (fun _ => raise e));
        [|intros _; apply unchanged_raise].
      apply steps_unchanged;
        [apply listener_step_refl|apply unchanged_listeners_remove_node_item].
  - apply (steps_then listener_side listener_step
             (remove_node_item item) (fun _ => raise AttributeError));
      [|intros _; apply unchanged_raise].
    apply steps_unchanged;
      [apply listener_step_refl|apply unchanged_listeners_remove_node_item].
Qed.

Lemma commit_scheme_link_listener_step (link : SchemeLink) :
  steps (Sch := Sch) listener_side listener_step (commit_scheme_link link).
Proof.
  unfold commit_scheme_link.
  apply steps_bind; [apply listener_step_refl|solve_unchanged|intros ed].
  apply steps_bind; [apply listener_step_refl|solve_unchanged|intros _].
  apply steps_bind; [apply listener_step_refl|solve_unchanged|intros d].
  destruct (d !! link) as [item|];
    [|apply steps_unchanged; [apply listener_step_refl|solve_unchanged]].
  intros s. unfold exec, Scheme_add_link.
  destruct (scheme s) as [sch|]; [|apply listener_step_refl].
  destruct (scheme_add_link sch link) as [sch'|e]; [|apply listener_step_refl].
  exact (add_link_listener_step link (with_scheme (Some sch') s)).
Qed.

(** Every call of a history is one step for the listeners, on a scene
    whose listeners are in order. *)
Lemma step_listener_side (s : CanvasScene Sch) (op : Op) :
  listeners_ok (listener_side s) ->
  listener_step (listener_side s) (listener_side (step s op)).
Proof.
  intros Hok. destruct op; cbn [step].
  - apply add_node_listener_step.
  - by apply remove_node_listener_step.
  - apply add_link_listener_step.
  - by apply remove_link_listener_step.
  - apply commit_scheme_node_listener_step.
  - apply commit_scheme_link_listener_step.
  - rewrite unchanged_listeners_new_node_item. apply listener_step_refl.
  - rewrite unchanged_listeners_add_node_item. apply listener_step_refl.
  - rewrite unchanged_listeners_remove_node_item. apply listener_step_refl.
  - rewrite unchanged_listeners_remove_link_item. apply listener_step_refl.
  - apply listener_step_refl.
  - apply listener_step_refl.
  - rewrite unchanged_listeners_set_channel_names_visible. apply listener_step_refl.
Qed.

Lemma run_listeners_ok (ops : list Op) (s : CanvasScene Sch) :
  listeners_ok (listener_side s) -> listeners_ok (listener_side (run ops s)).
Proof.
  revert s. induction ops as [|op ops IH]; intros s Hok; [done|].
  apply IH. exact (listener_step_ok _ _ Hok (step_listener_side s op Hok)).
Qed.

Lemma listeners_ok_init (sch : option Sch) :
  listeners_ok (listener_side (with_scheme sch init_scene)).
Proof.
  intros c. split; [|done].
  intros [(node & item & Hlook & _)|(link & item & Hlook & _)];
    cbn in Hlook; by rewrite lookup_empty in Hlook.
Qed.

End ListenerSteps.

(** [remove_node_item] of an item that is not listed raises after it has
    hidden the item and taken it out of the two mappers and out of the items
    shown. *)
Lemma remove_node_item_unlisted {Sch} `{!SchemeModel Sch} (s : CanvasScene Sch)
    (item : NodeItem) :
  item ∉ __node_items s ->
  exists s',
    remove_node_item item s
      = (Raise (ValueError "list.remove(x): x not in list"), s') /\
    __item_for_node s' = __item_for_node s /\
    __node_items s' = __node_items s /\
    connections (qt s') = connections (qt s).
Proof.
  intros Hin.
  destruct (list_remove item (__node_items s)) as [items'|] eqn:Hrm.
  { apply list_remove_Permutation in Hrm. exfalso. apply Hin. rewrite Hrm. by left. }
  eexists. split.
  - unfold remove_node_item, hide, removeItem, emit, update_NodeItem.
    unfold_monad. cbn. rewrite Hrm. reflexivity.
  - done.
Qed.

(** [remove_link_item] of an item that is not listed raises at once. *)
Lemma remove_link_item_unlisted {Sch} `{!SchemeModel Sch} (s : CanvasScene Sch)
    (item : LinkItem) :
  item ∉ __link_items s ->
  remove_link_item item s = (Raise (ValueError "list.remove(x): x not in list"), s).
Proof.
  intros Hin.
  destruct (list_remove item (__link_items s)) as [items'|] eqn:Hrm.
  { apply list_remove_Permutation in Hrm. exfalso. apply Hin. rewrite Hrm. by left. }
  unfold remove_link_item. unfold_monad. by rewrite Hrm.
Qed.


(** X18: on a scene reached by any history of calls from a new scene,
    [remove_node] ends in one of three ways, and never with the
    [TypeError] of a failed [disconnect].  For a node that is not
    registered it raises [KeyError] and changes nothing.  For a registered
    node it drops the node's entry and exactly the four listeners, and then
    returns when the item is listed, or raises the [ValueError] of
    [list.remove] when it is not (as after a commit that was rolled
    back). *)
Theorem remove_node_outcomes {Sch} `{!SchemeModel Sch}
    (sch : option Sch) (ops : list Op) (node : SchemeNode) :
  let s := run ops (with_scheme sch init_scene) in
  match __item_for_node s !! node with
  | None => remove_node node s = (Raise KeyError, s)
  | Some item =>
      exists s',
        remove_node node s
          = (if bool_decide (item ∈ __node_items s) then Ok tt
             else Raise (ValueError "list.remove(x): x not in list"), s') /\
        __item_for_node s' = delete node (__item_for_node s) /\
        connections (qt s) ≡ₚ node_listeners node item ++ connections (qt s')
  end.
Proof.
  intros s.
  pose proof (run_listeners_ok ops _ (listeners_ok_init sch)) as Hok.
  fold s in Hok.
  destruct (__item_for_node s !! node) as [item|] eqn:Hitem.
  2: { unfold remove_node. unfold_monad. by rewrite Hitem. }
  pose proof (listeners_ok_node_connected s node item Hok Hitem) as Hconn.
  destruct (remove_node_disconnects s node item Hitem Hconn) as (cs' & Hperm & ->).
  set (s4 := with_qt (with_connections cs' (qt s))
               (with_item_for_node (delete node (__item_for_node s)) s)).
  destruct (bool_decide (item ∈ __node_items s)) eqn:Hin.
  - apply bool_decide_eq_true in Hin.
    destruct (list_remove_elem_of item _ Hin) as [items' Hrm].
    destruct (remove_node_item_spec s4 item items' Hrm)
      as (s' & Hrun & _ & Hmap & _ & _ & _ & Hcs & _).
    exists s'. rewrite Hrun, Hmap, Hcs. done.
  - apply bool_decide_eq_false in Hin.
    destruct (remove_node_item_unlisted s4 item Hin) as (s' & Hrun & Hmap & _ & Hcs).
    exists s'. rewrite Hrun, Hmap, Hcs. done.
Qed.

(** X19: likewise [remove_link] on a scene reached by any history: it
    raises [KeyError] and changes nothing for a link that is not
    registered; for a registered link it drops the link's entry and its one
    listener, and then returns when the item is listed, or raises the
    [ValueError] of [list.remove] when it is not.  It never ends with the
    [TypeError] of a failed [disconnect]. *)
Theorem remove_link_outcomes {Sch} `{!SchemeModel Sch}
    (sch : option Sch) (ops : list Op) (link : SchemeLink) :
  let s := run ops (with_scheme sch init_scene) in
  match __item_for_link s !! link with
  | None => remove_link link s = (Raise KeyError, s)
  | Some item =>
      exists s',
        remove_link link s
          = (if bool_decide (item ∈ __link_items s) then Ok tt
             else Raise (ValueError "list.remove(x): x not in list"), s') /\
        __item_for_link s' = delete link (__item_for_link s) /\
        connections (qt s) ≡ₚ link_listener link item :: connections (qt s')
  end.
Proof.
  intros s.
  pose proof (run_listeners_ok ops _ (listeners_ok_init sch)) as Hok.
  fold s in Hok.
  destruct (__item_for_link s !! link) as [item|] eqn:Hitem.
  2: { unfold remove_link. unfold_monad. by rewrite Hitem. }
  pose proof (listeners_ok_link_connected s link item Hok Hitem) as Hconn.
  destruct (remove_link_disconnects s link item Hitem Hconn) as (cs' & Hperm & ->).
  set (s4 := with_qt (with_connections cs' (qt s))
               (with_item_for_link (delete link (__item_for_link s)) s)).
  destruct (bool_decide (item ∈ __link_items s)) eqn:Hin.
  - apply bool_decide_eq_true in Hin.
    destruct (list_remove_elem_of item _ Hin) as [items' Hrm].
    destruct (remove_link_item_spec s4 item items' Hrm)
      as (s' & Hrun & _ & Hmap & _ & _ & Hcs & _).
    exists s'. rewrite (bind_Ok _ _ _ _ _ Hrun), Hmap, Hcs. done.
  - apply bool_decide_eq_false in Hin.
    exists s4. unfold bind. rewrite (remove_link_item_unlisted s4 item Hin). done.
Qed.


(** ** Items added and removed directly *)

(** X21: [add_node_item] either refuses the item or adds it.  An item that is
    listed is refused with [ValueError] and nothing changes.  Any other item
    is returned: it is appended to the list, is in the [QGraphicsScene], is
    its own tag in the three mappers, its three signals are connected to
    the mappers' [pyMap] (in this order, after the connections there were),
    [node_item_added] is emitted, and it has been moved exactly when it sat
    at the origin. *)
Theorem add_node_item_outcomes {Sch} `{!SchemeModel Sch} (s : CanvasScene Sch)
    (item : NodeItem) :
  (item ∈ __node_items s /\
   add_node_item item s = (Raise (ValueError "%r is already in the scene."), s)) \/
  ((item ∉ __node_items s) /\
   exists s',
     add_node_item item s = (Ok item, s') /\
     __node_items s' = __node_items s ++ [item] /\
     GNode item ∈ scene_items (qt s') /\
     activated_mapper s' = <[item := item]> (activated_mapper s) /\
     hovered_mapper s' = <[item := item]> (hovered_mapper s) /\
     position_change_mapper s' = <[item := item]> (position_change_mapper s) /\
     connections (qt s') =
       connections (qt s) ++ [ (activated item, pyMap Activated);
                               (hovered item, pyMap Hovered);
                               (positionChanged item, pyMap PositionChange) ] /\
     emitted (qt s') = emitted (qt s) ++ [node_item_added item] /\
     pos (node_item_obj (qt s') item) =
       (if isNull (pos (node_item_obj (qt s) item)) then
          match last (__node_items s) with
          | Some l => QPointF_add (pos (node_item_obj (qt s) l)) (150, 0)%Z
          | None => (150, 150)%Z
          end
        else pos (node_item_obj (qt s) item)) /\
     __item_for_node s' = __item_for_node s).
Proof.
  destruct (decide (item ∈ __node_items s)) as [Hin|Hin].
  - left. split; [done|].
    destruct (add_node_item item s) as [r s'] eqn:Hrun.
    by apply add_node_item_spec in Hrun as [(_ & -> & ->)|(? & _)].
  - right. split; [done|].
    destruct (add_node_item_tables s item Hin)
      as (s' & Hrun & Hact & Hhov & Hpos & Hcs & _ & Hshown & _ & Hem & _).
    destruct (add_node_item_spec s item _ _ Hrun)
      as [(? & _)|(_ & _ & Hitems & Hmap & _ & Hplace)]; [done|].
    exists s'. repeat split; done.
Qed.

(** X22: [add_link_item] reads the titles of the two ends of the item for its
    log line, after it has shown, listed and announced the item: for an
    item that lacks an end the call raises [AttributeError] there, with the
    item in the [QGraphicsScene] and in the list, [link_item_added]
    emitted, and the anchor layout not told. *)
Theorem add_link_item_without_ends {Sch} `{!SchemeModel Sch} (s : CanvasScene Sch)
    (item : LinkItem) :
  sourceItem (link_item_obj (qt s) item) = None \/
  sinkItem (link_item_obj (qt s) item) = None ->
  exists s',
    add_link_item item s = (Raise AttributeError, s') /\
    __link_items s' = __link_items s ++ [item] /\
    GLink item ∈ scene_items (qt s') /\
    emitted (qt s') = emitted (qt s) ++ [link_item_added item] /\
    invalidated (qt s') = invalidated (qt s) /\
    __item_for_link s' = __item_for_link s.
Proof.
  intros Hends.
  assert (Hobj : match sourceItem (link_item_obj (qt s) item),
                       sinkItem (link_item_obj (qt s) item) with
                 | Some _, Some _ => False
                 | _, _ => True
                 end).
  { destruct Hends as [-> | ->]; [done|]. by destruct (sourceItem _). }
  unfold add_link_item, addItem, emit, invalidateLink. unfold_monad. cbn.
  destruct (bool_decide (GLink item ∈ scene_items (qt s))) eqn:Hin; cbn;
    rewrite ?Hin; cbn;
    destruct (sourceItem (link_item_obj (qt s) item)),
             (sinkItem (link_item_obj (qt s) item)); try done;
    (eexists; split; [reflexivity|]); cbn; repeat split; try done;
    try (by apply bool_decide_eq_true in Hin);
    apply elem_of_app; right; by apply list_elem_of_singleton.
Qed.

(** Link item 7 has not been given its ends. *)
Lemma add_link_item_without_ends_witness :
  exists s',
    add_link_item 7 three_nodes = (Raise AttributeError, s') /\
    __link_items s' = __link_items three_nodes ++ [7] /\
    GLink 7 ∈ scene_items (qt s') /\
    emitted (qt s') = emitted (qt three_nodes) ++ [link_item_added 7] /\
    invalidated (qt s') = invalidated (qt three_nodes) /\
    __item_for_link s' = __item_for_link three_nodes.
Proof.
  apply (add_link_item_without_ends three_nodes 7). left. vm_compute; reflexivity.
Defined.

(** X23: an item that is not listed cannot be removed, but the two calls fail
    at different points.  [remove_link_item] starts with [list.remove]: it
    raises [ValueError] and changes nothing.  [remove_node_item] ends with
    it: it raises the same [ValueError] after it has dropped the item from
    the activated and the hovered mapper, hidden it and taken it out of the
    [QGraphicsScene]; [node_item_removed] is not emitted. *)
Theorem unlisted_item_removal {Sch} `{!SchemeModel Sch} (s : CanvasScene Sch)
    (item : nat) :
  ((item ∉ __link_items s) ->
   remove_link_item item s
   = (Raise (ValueError "list.remove(x): x not in list"), s)) /\
  ((item ∉ __node_items s) ->
   exists s',
     remove_node_item item s
       = (Raise (ValueError "list.remove(x): x not in list"), s') /\
     __node_items s' = __node_items s /\
     activated_mapper s' = delete item (activated_mapper s) /\
     hovered_mapper s' = delete item (hovered_mapper s) /\
     position_change_mapper s' = position_change_mapper s /\
     visible (node_item_obj (qt s') item) = false /\
     scene_items (qt s') = filter (fun g => g <> GNode item) (scene_items (qt s)) /\
     emitted (qt s') = emitted (qt s) /\
     connections (qt s') = connections (qt s)).
Proof.
  split; [apply remove_link_item_unlisted|].
  intros Hin.
  destruct (list_remove item (__node_items s)) as [items'|] eqn:Hrm.
  { apply list_remove_Permutation in Hrm. exfalso. apply Hin. rewrite Hrm. by left. }
  eexists. split.
  - unfold remove_node_item, hide, removeItem, emit, update_NodeItem.
    unfold_monad. cbn. rewrite Hrm. reflexivity.
  - cbn. rewrite fn_lookup_insert. done.
Qed.

(** Item 9 is neither a link item nor a node item of [three_nodes]. *)
Lemma unlisted_item_removal_witness :
  remove_link_item 9 three_nodes
    = (Raise (ValueError "list.remove(x): x not in list"), three_nodes) /\
  exists s',
    remove_node_item 9 three_nodes
      = (Raise (ValueError "list.remove(x): x not in list"), s') /\
    __node_items s' = __node_items three_nodes /\
    activated_mapper s' = delete 9 (activated_mapper three_nodes) /\
    hovered_mapper s' = delete 9 (hovered_mapper three_nodes) /\
    position_change_mapper s' = position_change_mapper three_nodes /\
    visible (node_item_obj (qt s') 9) = false /\
    scene_items (qt s') = filter (fun g => g <> GNode 9) (scene_items (qt three_nodes)) /\
    emitted (qt s') = emitted (qt three_nodes) /\
    connections (qt s') = connections (qt three_nodes).
Proof.
  destruct (unlisted_item_removal three_nodes 9) as [Hlink Hnode]. split.
  - apply Hlink. apply (bool_decide_unpack _). vm_compute. exact I.
  - apply Hnode. apply (bool_decide_unpack _). vm_compute. exact I.
Defined.

(** ** Annotations *)

Ltac unfold_monad_a :=
  unfold bind_a, ret_a, raise_a, gets_a, modify_a in *.

Section AnnotationFacts.

Context {model : AnnotationModel}.

Implicit Types s : AnnotationScene.

Lemma bind_a_Ok {A B} (m : MA A) (k : A -> MA B) s s1 (a : A) :
  m s = (Ok a, s1) -> bind_a m k s = k a s1.
Proof. intros Hm. unfold bind_a. by rewrite Hm. Qed.

Lemma elem_of_snoc_or {X} `{EqDecision X} (l : list X) (x y : X) :
  x ∈ (if bool_decide (y ∈ l) then l else l ++ [y]) <-> x ∈ l \/ x = y.
Proof.
  destruct (bool_decide (y ∈ l)) eqn:Hin.
  - apply bool_decide_eq_true in Hin. split; [by left|]. by intros [?| ->].
  - by rewrite elem_of_app, list_elem_of_singleton.
Qed.

(** [add_annotation_item] always returns: the item is appended to the
    list, whether it is listed or not, and it is shown and announced. *)
Lemma add_annotation_item_spec s (item : AnnotationItem) :
  exists s',
    add_annotation_item item s = (Ok item, s') /\
    __annotation_items s' = __annotation_items s ++ [item] /\
    annotation_scene_items s'
      = (if bool_decide (item ∈ annotation_scene_items s)
         then annotation_scene_items s else annotation_scene_items s ++ [item]) /\
    annotation_emitted s' = annotation_emitted s ++ [annotation_added item] /\
    __item_for_annotation s' = __item_for_annotation s /\
    annotation_connections s' = annotation_connections s /\
    annotation_item_obj s' = annotation_item_obj s /\
    next_annotation_item s' = next_annotation_item s.
Proof.
  eexists. split.
  - unfold add_annotation_item, addItem_a, emit_a. unfold_monad_a. reflexivity.
  - cbn. by destruct (bool_decide (item ∈ annotation_scene_items s)).
Qed.

(** [remove_annotation_item] of a listed item. *)
Lemma remove_annotation_item_spec s (item : AnnotationItem)
    (items' : list AnnotationItem) :
  list_remove item (__annotation_items s) = Some items' ->
  exists s',
    remove_annotation_item item s = (Ok tt, s') /\
    __annotation_items s' = items' /\
    annotation_scene_items s' = filter (fun i => i <> item) (annotation_scene_items s) /\
    annotation_emitted s' = annotation_emitted s ++ [annotation_removed item] /\
    __item_for_annotation s' = __item_for_annotation s /\
    annotation_connections s' = annotation_connections s /\
    annotation_item_obj s' = annotation_item_obj s.
Proof.
  intros Hrm. eexists. split.
  - unfold remove_annotation_item, removeItem_a, emit_a. unfold_monad_a.
    rewrite Hrm. reflexivity.
  - done.
Qed.

Lemma disconnect_a_spec s (c : AnnotationConnection) :
  c ∈ annotation_connections s ->
  exists cs', list_remove c (annotation_connections s) = Some cs' /\
    disconnect_a c s = (Ok tt, with_annotation_connections cs' s).
Proof.
  intros Hin. destruct (list_remove_elem_of c _ Hin) as [cs' Hrm].
  exists cs'. split; [done|]. unfold disconnect_a. unfold_monad_a. by rewrite Hrm.
Qed.

Local Arguments add_annotation_item : simpl never.
Local Arguments remove_annotation_item : simpl never.
Local Opaque add_annotation_item remove_annotation_item.

(** What [add_annotation] does for an annotation that is not registered. *)
Lemma add_annotation_new_spec s (annot : SchemeAnnotation) :
  __item_for_annotation s !! annot = None ->
  match made_item (annotation_obj annot) with
  | Some o =>
      exists s',
        add_annotation annot s = (Ok (next_annotation_item s), s') /\
        __item_for_annotation s'
          = <[annot := next_annotation_item s]> (__item_for_annotation s) /\
        __annotation_items s' = __annotation_items s ++ [next_annotation_item s] /\
        annotation_scene_items s'
          = (if bool_decide (next_annotation_item s ∈ annotation_scene_items s)
             then annotation_scene_items s
             else annotation_scene_items s ++ [next_annotation_item s]) /\
        annotation_item_obj s'
          = <[next_annotation_item s := o]> (annotation_item_obj s) /\
        annotation_connections s'
          = annotation_connections s
            ++ annotation_listeners annot (next_annotation_item s) /\
        annotation_emitted s'
          = annotation_emitted s ++ [annotation_added (next_annotation_item s)] /\
        next_annotation_item s' = S (next_annotation_item s)
  | None =>
      add_annotation annot s
      = (Raise UnboundLocalError,
         with_annotation_connections
           (annotation_connections s
            ++ [(geometry_changed annot, on_scheme_annot_geometry_change)]) s)
  end.
Proof.
  intros Hnew. unfold add_annotation, annotation_listeners.
  rewrite (bind_a_Ok (gets_a _) _ s s (__item_for_annotation s) eq_refl), Hnew.
  destruct (annotation_obj annot) as [text [[[x y] w] h]|start_pos end_pos|]; cbn [made_item].
  - unfold new_annotation_item, connect_a. unfold_monad_a. cbn.
    match goal with
    | |- context [add_annotation_item ?i ?sx] =>
        destruct (add_annotation_item_spec sx i)
          as (s1 & -> & Hitems & Hshown & Hem & Hmap & Hconn & Hobj & Hnext)
    end.
    cbn in *. eexists. split; [reflexivity|]. cbn.
    rewrite Hitems, Hshown, Hem, Hmap, Hconn, Hobj, Hnext, <- app_assoc. done.
  - unfold new_annotation_item, connect_a. unfold_monad_a. cbn.
    match goal with
    | |- context [add_annotation_item ?i ?sx] =>
        destruct (add_annotation_item_spec sx i)
          as (s1 & -> & Hitems & Hshown & Hem & Hmap & Hconn & Hobj & Hnext)
    end.
    cbn in *. eexists. split; [reflexivity|]. cbn.
    rewrite Hitems, Hshown, Hem, Hmap, Hconn, Hobj, Hnext. done.
  - unfold connect_a. unfold_monad_a. reflexivity.
Qed.

(** What [remove_annotation] does for a registered annotation whose
    listeners are connected and whose item is listed. *)
Lemma remove_annotation_spec s (annot : SchemeAnnotation) (item : AnnotationItem) :
  __item_for_annotation s !! annot = Some item ->
  item ∈ __annotation_items s ->
  annotation_listeners annot item ⊆ annotation_connections s ->
  exists s',
    remove_annotation annot s = (Ok tt, s') /\
    __item_for_annotation s' = delete annot (__item_for_annotation s) /\
    list_remove item (__annotation_items s) = Some (__annotation_items s') /\
    annotation_scene_items s'
      = filter (fun i => i <> item) (annotation_scene_items s) /\
    annotation_connections s
      ≡ₚ annotation_listeners annot item ++ annotation_connections s' /\
    annotation_emitted s' = annotation_emitted s ++ [annotation_removed item] /\
    annotation_item_obj s' = annotation_item_obj s.
Proof.
  intros Hitem Hin Hconn. unfold remove_annotation.
  rewrite (bind_a_Ok (gets_a _) _ s s (__item_for_annotation s) eq_refl), Hitem.
  set (s0 := with_item_for_annotation (delete annot (__item_for_annotation s)) s).
  rewrite (bind_a_Ok
             (bind_a (modify_a (with_item_for_annotation
                                  (delete annot (__item_for_annotation s))))
                     (fun _ => ret_a item))
             _ s s0 item eq_refl).
  assert (Hg : (geometry_changed annot, on_scheme_annot_geometry_change)
               ∈ annotation_connections s0).
  { apply Hconn. unfold annotation_listeners.
    destruct (annotation_obj annot); set_solver. }
  destruct (disconnect_a_spec s0 _ Hg) as (cs1 & Hrm1 & Hd1).
  rewrite (bind_a_Ok _ _ _ _ _ Hd1). set (s1 := with_annotation_connections cs1 s0).
  destruct (list_remove_elem_of item _ Hin) as [items' Hrm].
  unfold annotation_listeners in *.
  destruct (annotation_obj annot) as [text rect|start_pos end_pos|].
  - assert (Ht : (text_changed annot, setPlainText item) ∈ annotation_connections s1).
    { apply (list_remove_other _ _ _ _ Hrm1); [done|]. apply Hconn. set_solver. }
    destruct (disconnect_a_spec s1 _ Ht) as (cs2 & Hrm2 & Hd2).
    rewrite (bind_a_Ok _ _ _ _ _ Hd2).
    destruct (remove_annotation_item_spec (with_annotation_connections cs2 s1)
                item items' Hrm)
      as (s' & -> & Hitems & Hshown & Hem & Hmap & Hcs & Hobj).
    exists s'. cbn in *. rewrite Hitems, Hcs.
    repeat split; try done.
    apply list_remove_Permutation in Hrm1, Hrm2. cbn in *.
    rewrite Hrm1, Hrm2. apply Permutation_swap.
  - rewrite (bind_a_Ok (ret_a tt) _ s1 s1 tt eq_refl).
    destruct (remove_annotation_item_spec s1 item items' Hrm)
      as (s' & -> & Hitems & Hshown & Hem & Hmap & Hcs & Hobj).
    exists s'. cbn in *. rewrite Hitems, Hcs.
    repeat split; try done. by apply list_remove_Permutation.
  - rewrite (bind_a_Ok (ret_a tt) _ s1 s1 tt eq_refl).
    destruct (remove_annotation_item_spec s1 item items' Hrm)
      as (s' & -> & Hitems & Hshown & Hem & Hmap & Hcs & Hobj).
    exists s'. cbn in *. rewrite Hitems, Hcs.
    repeat split; try done. by apply list_remove_Permutation.
Qed.

Local Transparent add_annotation_item remove_annotation_item.

End AnnotationFacts.

(** X24: [add_annotation] of an annotation that is not registered.  For a text
    or an arrow annotation it returns a newly allocated item that carries
    the annotation's text, position and size (or its line), registers the
    annotation with it, appends it to the list, shows and announces it, and
    connects the annotation's listeners: [text_changed] (texts only) and
    [geometry_changed].  For an annotation of neither class it raises
    [UnboundLocalError], and what it leaves behind is one more
    [geometry_changed] connection. *)
Theorem add_annotation_new {model : AnnotationModel} (s : AnnotationScene)
    (annot : SchemeAnnotation) :
  __item_for_annotation s !! annot = None ->
  match made_item (annotation_obj annot) with
  | Some o =>
      exists s',
        add_annotation annot s = (Ok (next_annotation_item s), s') /\
        __item_for_annotation s'
          = <[annot := next_annotation_item s]> (__item_for_annotation s) /\
        __annotation_items s' = __annotation_items s ++ [next_annotation_item s] /\
        next_annotation_item s ∈ annotation_scene_items s' /\
        annotation_item_obj s' !! next_annotation_item s = Some o /\
        annotation_connections s'
          = annotation_connections s
            ++ annotation_listeners annot (next_annotation_item s) /\
        annotation_emitted s'
          = annotation_emitted s ++ [annotation_added (next_annotation_item s)]
  | None =>
      add_annotation annot s
      = (Raise UnboundLocalError,
         with_annotation_connections
           (annotation_connections s
            ++ [(geometry_changed annot, on_scheme_annot_geometry_change)]) s)
  end.
Proof.
  intros Hnew. pose proof (add_annotation_new_spec s annot Hnew) as Hspec.
  destruct (made_item (annotation_obj annot)) as [o|]; [|done].
  destruct Hspec as (s' & Hrun & Hmap & Hitems & Hshown & Hobj & Hcs & Hem & _).
  exists s'. split; [done|]. split; [done|]. split; [done|].
  split; [|split; [by rewrite Hobj, lookup_insert_eq|done]].
  rewrite Hshown. apply elem_of_snoc_or. by right.
Qed.

(** On a new scene: annotation 1 is a text, annotation 3 is of neither
    class. *)
Lemma add_annotation_new_witness :
  (exists s',
     add_annotation (model := demo_annotations) 1 init_annotations = (Ok 0, s') /\
     __item_for_annotation s' = <[1 := 0]> ∅ /\
     __annotation_items s' = [0] /\
     0 ∈ annotation_scene_items s' /\
     annotation_item_obj s' !! 0
       = Some (TextAnnotation "note" (10, 20)%Z (100, 50)%Z TextEditorInteraction) /\
     annotation_connections s'
       = [ (text_changed 1, setPlainText 0);
           (geometry_changed 1, on_scheme_annot_geometry_change) ] /\
     annotation_emitted s' = [annotation_added 0]) /\
  add_annotation (model := demo_annotations) 3 init_annotations
  = (Raise UnboundLocalError,
     with_annotation_connections
       [(geometry_changed 3, on_scheme_annot_geometry_change)] init_annotations).
Proof.
  split.
  - exact (add_annotation_new (model := demo_annotations) init_annotations 1 eq_refl).
  - exact (add_annotation_new (model := demo_annotations) init_annotations 3 eq_refl).
Defined.

(** X25: [remove_annotation] of an annotation that is registered, with its item
    listed and its listeners connected: the call returns, the annotation is
    no longer registered, one occurrence of the item leaves the list, the
    item is taken out of the items shown, [annotation_removed] is emitted,
    and exactly the annotation's listeners are dropped: [geometry_changed],
    and for a text annotation [text_changed] as well. *)
Theorem remove_annotation_registered {model : AnnotationModel} (s : AnnotationScene)
    (annot : SchemeAnnotation) (item : AnnotationItem) :
  __item_for_annotation s !! annot = Some item ->
  item ∈ __annotation_items s ->
  annotation_listeners annot item ⊆ annotation_connections s ->
  exists s',
    remove_annotation annot s = (Ok tt, s') /\
    item_for_annotation annot s' = (Raise KeyError, s') /\
    __item_for_annotation s' = delete annot (__item_for_annotation s) /\
    list_remove item (__annotation_items s) = Some (__annotation_items s') /\
    annotation_scene_items s'
      = filter (fun i => i <> item) (annotation_scene_items s) /\
    annotation_connections s
      ≡ₚ annotation_listeners annot item ++ annotation_connections s' /\
    annotation_emitted s' = annotation_emitted s ++ [annotation_removed item].
Proof.
  intros Hitem Hin Hconn.
  destruct (remove_annotation_spec s annot item Hitem Hin Hconn)
    as (s' & Hrun & Hmap & Hitems & Hshown & Hcs & Hem & _).
  exists s'. split; [done|]. split; [|done].
  unfold item_for_annotation. unfold_monad_a. by rewrite Hmap, lookup_delete_eq.
Qed.

(** The arrow annotation 2 is added to a new scene (item 0) and removed. *)
Lemma remove_annotation_registered_witness :
  exists s',
    remove_annotation (model := demo_annotations) 2
      (exec_a (add_annotation (model := demo_annotations) 2) init_annotations)
      = (Ok tt, s') /\
    item_for_annotation 2 s' = (Raise KeyError, s') /\
    __item_for_annotation s'
      = delete 2 (__item_for_annotation
                    (exec_a (add_annotation (model := demo_annotations) 2)
                       init_annotations)) /\
    list_remove 0 (__annotation_items
                     (exec_a (add_annotation (model := demo_annotations) 2)
                        init_annotations))
      = Some (__annotation_items s') /\
    annotation_scene_items s'
      = filter (fun i => i <> 0)
          (annotation_scene_items
             (exec_a (add_annotation (model := demo_annotations) 2) init_annotations)) /\
    annotation_connections
      (exec_a (add_annotation (model := demo_annotations) 2) init_annotations)
      ≡ₚ annotation_listeners (model := demo_annotations) 2 0
         ++ annotation_connections s' /\
    annotation_emitted s'
      = annotation_emitted
          (exec_a (add_annotation (model := demo_annotations) 2) init_annotations)
        ++ [annotation_removed 0].
Proof.
  apply (remove_annotation_registered (model := demo_annotations)
           (exec_a (add_annotation (model := demo_annotations) 2) init_annotations) 2 0).
  - vm_compute; reflexivity.
  - apply (bool_decide_unpack _). vm_compute. exact I.
  - apply (bool_decide_unpack _). vm_compute. exact I.
Defined.

(** X26: [remove_annotation] right after [add_annotation], for an annotation
    that was not registered: the registry is as it was before the
    annotation was added, the list holds the same items (and is the same
    list when the item was not listed before), the items shown are the ones
    there were without the item, and the connections are the ones there
    were: nothing of the annotation is left behind.  Both steps are
    announced. *)
Theorem add_then_remove_annotation {model : AnnotationModel} (s s1 : AnnotationScene)
    (annot : SchemeAnnotation) (item : AnnotationItem) :
  __item_for_annotation s !! annot = None ->
  add_annotation annot s = (Ok item, s1) ->
  exists s2,
    remove_annotation annot s1 = (Ok tt, s2) /\
    __item_for_annotation s2 = __item_for_annotation s /\
    __annotation_items s2 ≡ₚ __annotation_items s /\
    ((item ∉ __annotation_items s) -> __annotation_items s2 = __annotation_items s) /\
    annotation_scene_items s2
      = filter (fun i => i <> item) (annotation_scene_items s) /\
    annotation_connections s2 ≡ₚ annotation_connections s /\
    annotation_emitted s2
      = annotation_emitted s ++ [annotation_added item; annotation_removed item].
Proof.
  intros Hnew Hadd. pose proof (add_annotation_new_spec s annot Hnew) as Hspec.
  destruct (made_item (annotation_obj annot)) as [o|]; [|congruence].
  destruct Hspec as (s1' & Hrun & Hmap & Hitems & Hshown & _ & Hcs & Hem & _).
  rewrite Hrun in Hadd. injection Hadd as <- <-.
  destruct (remove_annotation_spec s1' annot (next_annotation_item s))
    as (s2 & Hrun2 & Hmap2 & Hitems2 & Hshown2 & Hcs2 & Hem2 & _).
  { rewrite Hmap. apply lookup_insert_eq. }
  { rewrite Hitems. apply elem_of_app. right. by apply list_elem_of_singleton. }
  { rewrite Hcs. intros c Hc. apply elem_of_app. by right. }
  exists s2. split; [done|].
  split; [by rewrite Hmap2, Hmap, delete_insert_id|].
  split.
  { apply list_remove_Permutation in Hitems2. rewrite Hitems in Hitems2.
    apply (Permutation_cons_inv (a := next_annotation_item s)).
    by rewrite <- Hitems2, Permutation_app_comm. }
  split.
  { intros Hfresh. rewrite Hitems, (list_remove_snoc _ _ Hfresh) in Hitems2.
    by injection Hitems2. }
  split.
  { rewrite Hshown2, Hshown.
    destruct (bool_decide _); [done|].
    rewrite filter_app, filter_cons, decide_False, filter_nil, app_nil_r; [done|].
    by intros []. }
  split.
  { rewrite Hcs in Hcs2.
    apply (Permutation_app_inv_l (annotation_listeners annot (next_annotation_item s))).
    by rewrite <- Hcs2, Permutation_app_comm. }
  by rewrite Hem2, Hem, <- app_assoc.
Qed.

(** The text annotation 1 is added to a new scene (item 0) and removed. *)
Lemma add_then_remove_annotation_witness :
  exists s2,
    remove_annotation (model := demo_annotations) 1
      (exec_a (add_annotation (model := demo_annotations) 1) init_annotations)
      = (Ok tt, s2) /\
    __item_for_annotation s2 = __item_for_annotation init_annotations /\
    __annotation_items s2 ≡ₚ __annotation_items init_annotations /\
    ((0 ∉ __annotation_items init_annotations)
     -> __annotation_items s2 = __annotation_items init_annotations) /\
    annotation_scene_items s2
      = filter (fun i => i <> 0) (annotation_scene_items init_annotations) /\
    annotation_connections s2 ≡ₚ annotation_connections init_annotations /\
    annotation_emitted s2
      = annotation_emitted init_annotations
        ++ [annotation_added 0; annotation_removed 0].
Proof.
  apply (add_then_remove_annotation (model := demo_annotations) init_annotations
           (exec_a (add_annotation (model := demo_annotations) 1) init_annotations) 1 0).
  - vm_compute; reflexivity.
  - vm_compute; reflexivity.
Defined.

(** X27: [add_annotation_item] does not look for the item in the list, as
    [add_node_item] does: adding an item a second time returns as well and
    lists the item twice, while the [QGraphicsScene] holds it once.  One
    [remove_annotation_item] then takes it out of the scene and leaves it
    in the list. *)
Theorem annotation_item_added_twice {model : AnnotationModel} (s : AnnotationScene)
    (item : AnnotationItem) :
  exists s1 s2 s3,
    add_annotation_item item s = (Ok item, s1) /\
    add_annotation_item item s1 = (Ok item, s2) /\
    __annotation_items s2 = __annotation_items s ++ [item; item] /\
    remove_annotation_item item s2 = (Ok tt, s3) /\
    item ∈ __annotation_items s3 /\
    (item ∉ annotation_scene_items s3).
Proof.
  destruct (add_annotation_item_spec s item) as (s1 & Hrun1 & Hitems1 & _).
  destruct (add_annotation_item_spec s1 item) as (s2 & Hrun2 & Hitems2 & _).
  assert (Hlist : __annotation_items s2 = __annotation_items s ++ [item; item])
    by (by rewrite Hitems2, Hitems1, <- app_assoc).
  assert (Hin : item ∈ __annotation_items s2).
  { rewrite Hlist. apply elem_of_app. right. by left. }
  destruct (list_remove_elem_of item _ Hin) as [items' Hrm].
  destruct (remove_annotation_item_spec s2 item items' Hrm)
    as (s3 & Hrun3 & Hitems3 & Hshown3 & _).
  exists s1, s2, s3. split; [done|]. split; [done|]. split; [done|].
  split; [done|]. split.
  - rewrite Hitems3. apply list_remove_Permutation in Hrm. rewrite Hlist in Hrm.
    assert (Hperm : items' ≡ₚ __annotation_items s ++ [item]).
    { apply (Permutation_cons_inv (a := item)). rewrite <- Hrm.
      replace (__annotation_items s ++ [item; item])
        with ((__annotation_items s ++ [item]) ++ [item]) by (by rewrite <- app_assoc).
      symmetry. apply Permutation_cons_append. }
    rewrite Hperm. apply elem_of_app. right. by apply list_elem_of_singleton.
  - rewrite Hshown3. intros [Hne _]%list_elem_of_filter. done.
Qed.

(** X28: [annotation_for_item] never changes the scene; what it returns is an
    annotation that is registered with the item, and it raises [KeyError]
    exactly when no annotation is registered with the item. *)
Theorem annotation_reverse_lookup_sound {model : AnnotationModel} (s : AnnotationScene)
    (item : AnnotationItem) :
  (exists annot, annotation_for_item item s = (Ok annot, s) /\
                 __item_for_annotation s !! annot = Some item) \/
  (annotation_for_item item s = (Raise KeyError, s) /\
   forall annot, __item_for_annotation s !! annot <> Some item).
Proof.
  unfold annotation_for_item. unfold_monad_a.
  destruct (dict_of_pairs _ !! item) as [annot|] eqn:Hlook.
  - left. exists annot. split; [done|].
    apply dict_of_pairs_Some, list_elem_of_fmap in Hlook as ([a i] & [= -> ->] & Hin).
    by apply elem_of_map_to_list in Hin.
  - right. split; [done|]. intros annot Hannot.
    apply (dict_of_pairs_None _ _ Hlook annot), list_elem_of_fmap.
    exists (annot, item). split; [done|]. by apply elem_of_map_to_list.
Qed.
